(** * Response decoding and request envelopes of the LINE bot SDK

    This development embeds [linebot/response.go] -- the three response
    decoders [decodeToBasicResponse], [decodeToUserProfileResponse] and
    [decodeToMessageContentResponse] -- together with the parts of the Go
    runtime they call: the [io.ReadCloser] behind [http.Response.Body], the
    streaming decoder of [encoding/json] and [mime.ParseMediaType].

    Go strings and byte slices are sequences of bytes; they are modelled by
    [string], whose characters are the 256 byte values.  Go's [int] only
    carries HTTP status codes here and is modelled by [Z].  A nil pointer
    and a nil [error] are [None]. *)

From Stdlib Require Import ZArith NArith Ascii String List Lia.
From Stdlib Require Import DecimalString DecimalNat.
From stdpp Require Import base option list gmap strings.

Open Scope string_scope.

(** ** Bytes *)

Definition byte_val (c : ascii) : N := N_of_ascii c.

Definition byte_in (lo hi : N) (c : ascii) : bool :=
  ((lo <=? byte_val c) && (byte_val c <=? hi))%N.

Definition byte_is (c d : ascii) : bool := Ascii.eqb c d.

(** The double quote. *)
Definition dq : ascii := Eval cbv in ascii_of_N 34.

(** [js] turns every apostrophe of [s] into a double quote, so that JSON
    texts can be written as readable literals. *)
Fixpoint js (s : string) : string :=
  match s with
  | EmptyString => EmptyString
  | String c s' => String (if byte_is c "'" then dq else c) (js s')
  end.

Definition is_digit (c : ascii) : bool := byte_in 48 57 c.
Definition is_upper (c : ascii) : bool := byte_in 65 90 c.
Definition is_lower (c : ascii) : bool := byte_in 97 122 c.

Definition hex_val (c : ascii) : option N :=
  if is_digit c then Some (byte_val c - 48)%N
  else if byte_in 97 102 c then Some (byte_val c - 87)%N
  else if byte_in 65 70 c then Some (byte_val c - 55)%N
  else None.

Definition ascii_lower (c : ascii) : ascii :=
  if is_upper c then ascii_of_N (byte_val c + 32) else c.

Definition ascii_upper (c : ascii) : ascii :=
  if is_lower c then ascii_of_N (byte_val c - 32) else c.

(** Whether the byte [c] is one of the bytes of [set]. *)
Fixpoint byte_among (set : string) (c : ascii) : bool :=
  match set with
  | EmptyString => false
  | String d set' => byte_is c d || byte_among set' c
  end.

Fixpoint str_take (n : nat) (s : string) : string :=
  match n, s with
  | S n', String c s' => String c (str_take n' s')
  | _, _ => EmptyString
  end.

Fixpoint str_drop (n : nat) (s : string) : string :=
  match n, s with
  | O, _ => s
  | S n', String _ s' => str_drop n' s'
  | S _, EmptyString => EmptyString
  end.

(** ** unicode/utf8 *)

Module utf8.

Definition rune := N.

Definition RuneError : rune := 0xFFFD%N.

Definition cont (c : ascii) : N := N.land (byte_val c) 0x3F.

(** [utf8.DecodeRune]: the first rune of [p] and its width in bytes.  An
    empty input gives [(RuneError, 0)] and an invalid or truncated
    encoding gives [(RuneError, 1)]. *)
Definition DecodeRune (p : string) : rune * nat :=
  match p with
  | EmptyString => (RuneError, 0%nat)
  | String p0 t =>
    let bad := (RuneError, 1%nat) in
    if byte_in 0 0x7F p0 then (byte_val p0, 1%nat)
    else if byte_in 0xC2 0xDF p0 then
      match t with
      | String b1 _ =>
        if byte_in 0x80 0xBF b1
        then (N.lor (N.shiftl (N.land (byte_val p0) 0x1F) 6) (cont b1), 2%nat)
        else bad
      | _ => bad
      end
    else if byte_in 0xE0 0xEF p0 then
      match t with
      | String b1 (String b2 _) =>
        let lo := if byte_is p0 (ascii_of_N 0xE0) then 0xA0%N else 0x80%N in
        let hi := if byte_is p0 (ascii_of_N 0xED) then 0x9F%N else 0xBF%N in
        if byte_in lo hi b1 && byte_in 0x80 0xBF b2
        then (N.lor (N.shiftl (N.land (byte_val p0) 0x0F) 12)
                (N.lor (N.shiftl (cont b1) 6) (cont b2)), 3%nat)
        else bad
      | _ => bad
      end
    else if byte_in 0xF0 0xF4 p0 then
      match t with
      | String b1 (String b2 (String b3 _)) =>
        let lo := if byte_is p0 (ascii_of_N 0xF0) then 0x90%N else 0x80%N in
        let hi := if byte_is p0 (ascii_of_N 0xF4) then 0x8F%N else 0xBF%N in
        if byte_in lo hi b1 && byte_in 0x80 0xBF b2 && byte_in 0x80 0xBF b3
        then (N.lor (N.shiftl (N.land (byte_val p0) 0x07) 18)
                (N.lor (N.shiftl (cont b1) 12)
                   (N.lor (N.shiftl (cont b2) 6) (cont b3))), 4%nat)
        else bad
      | _ => bad
      end
    else bad
  end.

Definition tail_byte (r : rune) (shift : N) : ascii :=
  ascii_of_N (N.lor 0x80 (N.land (N.shiftr r shift) 0x3F)).

(** [utf8.EncodeRune] (as [utf8.AppendRune] on an empty slice): surrogate
    halves and values beyond U+10FFFF are written as U+FFFD. *)
Definition EncodeRune (r : rune) : string :=
  let three (r : rune) :=
    String (ascii_of_N (N.lor 0xE0 (N.shiftr r 12)))
      (String (tail_byte r 6) (String (tail_byte r 0) EmptyString)) in
  if (r <=? 0x7F)%N then String (ascii_of_N r) EmptyString
  else if (r <=? 0x7FF)%N then
    String (ascii_of_N (N.lor 0xC0 (N.shiftr r 6)))
      (String (tail_byte r 0) EmptyString)
  else if ((0xD800 <=? r) && (r <=? 0xDFFF))%N || (0x10FFFF <? r)%N
    then three RuneError
  else if (r <=? 0xFFFF)%N then three r
  else
    String (ascii_of_N (N.lor 0xF0 (N.shiftr r 18)))
      (String (tail_byte r 12)
         (String (tail_byte r 6) (String (tail_byte r 0) EmptyString))).

End utf8.

(** ** Data model of [response.go]

    One module per Go struct, so that the fields keep their Go names. *)

(** [type BasicResponse struct { RequestID string `json:"requestId"` }] *)
Module BasicResponse.
Record t : Type := Make { RequestID : string }.
Definition zero : t := {| RequestID := "" |}.
End BasicResponse.

(** [type errorResponseDetail struct]: [Message], [Property]. *)
Module errorResponseDetail.
Record t : Type := Make { Message : string; Property : string }.
Definition zero : t := {| Message := ""; Property := "" |}.
End errorResponseDetail.

(** [type ErrorResponse struct]: [RequestID], [Message], [Details].
    [Details] is a Go slice: [None] is the nil slice, [Some l] a slice whose
    elements are [l], in index order. *)
Module ErrorResponse.
Record t : Type := Make {
  RequestID : string;
  Message : string;
  Details : option (list errorResponseDetail.t)
}.
Definition zero : t := {| RequestID := ""; Message := ""; Details := None |}.
End ErrorResponse.

(** [type UserProfileResponse struct]; the field [PicutureURL] is spelled
    as in the source. *)
Module UserProfileResponse.
Record t : Type := Make {
  RequestID : string;
  UserID : string;
  DisplayName : string;
  PicutureURL : string;
  StatusMessage : string
}.
Definition zero : t :=
  {| RequestID := ""; UserID := ""; DisplayName := "";
     PicutureURL := ""; StatusMessage := "" |}.
End UserProfileResponse.

(** Modelled from the spec: the declaration of [APIError] is not among the
    sources.  The spec gives "APIError -- {code: int, response:
    *ErrorResponse | absent}", and [response.go] and the tests build it as
    [&APIError{Code: ..., Response: ...}]. *)
Module APIError.
Record t : Type := Make { Code : Z; Response : option ErrorResponse.t }.
End APIError.

(** ** Go's [error] interface

    A value of interface type [error] is a value of one of the concrete
    error types that can reach the decoders.  [errorString] is the type
    behind [errors.New], which [io.EOF], [io.ErrUnexpectedEOF] and the
    errors of package [mime] are made with; [TransportError] stands for
    the errors with which reading the body of an HTTP response can fail
    (connection reset, deadline exceeded, read after close, ...);
    [ptrAPIError] is [*APIError].  Message texts and offsets inside the
    [encoding/json] errors are not modelled. *)
Inductive error : Type :=
| errorString (msg : string)
| TransportError (msg : string)
| SyntaxError
| UnmarshalTypeError (Value : string) (GoType : string)
| ptrAPIError (e : APIError.t).

(** The type assertion [err.( *APIError )]. *)
Definition asAPIError (err : error) : option APIError.t :=
  match err with
  | ptrAPIError e => Some e
  | _ => None
  end.

Definition isAPIError (err : error) : bool :=
  match asAPIError err with Some _ => true | None => false end.

(** ** io: the body of a response as a shared stream

    An [io.ReadCloser] is a reference to a stream object.  The state of a
    stream is what successive [Read] calls are still going to deliver (one
    chunk per call, as the network hands them over), how the stream ends
    once the chunks are used up ([None]: a clean [io.EOF]; [Some msg]: a
    transport failure) and whether [Close] has been called. *)
Module io.

Definition EOF : error := errorString "EOF".
Definition ErrUnexpectedEOF : error := errorString "unexpected EOF".
(** [errReadOnClosedResBody] of [net/http] ([transport.go]): what the
    body of a client response returns when it is read after [Close].
    (It is not the exported [http.ErrBodyReadAfterClose], whose text is
    another.) *)
Definition errReadOnClosedResBody : error :=
  TransportError "http: read on closed response body".

Record stream : Type := Stream {
  chunks : list string;
  failure : option string;
  closed : bool
}.

Definition ReadCloser := positive.

(** All the bytes that a list of chunks holds. *)
Definition bytes (chunks : list string) : string :=
  fold_right String.append "" chunks.

(** The heap of live streams, and computations that may touch it. *)
Abbreviation heap := (gmap positive stream).

Definition IO (A : Type) : Type := heap -> A * heap.

Definition ret {A} (a : A) : IO A := fun h => (a, h).

Definition bind {A B} (m : IO A) (k : A -> IO B) : IO B :=
  fun h => let (a, h') := m h in k a h'.

(** How a stream ends when no chunk is left. *)
Definition ending (s : stream) : error :=
  match failure s with
  | None => EOF
  | Some msg => TransportError msg
  end.

(** [r.Read(p)]: the next chunk, or the error the stream ends with.  A
    closed body (or a reference to no stream) only gives an error. *)
Definition Read (r : ReadCloser) : IO (string * option error) :=
  fun h =>
    match h !! r with
    | None => (("", Some errReadOnClosedResBody), h)
    | Some s =>
      if closed s then (("", Some errReadOnClosedResBody), h)
      else match chunks s with
           | c :: cs =>
             ((c, None), <[r := Stream cs (failure s) false]> h)
           | [] => (("", Some (ending s)), h)
           end
    end.

(** [r.Close()] *)
Definition Close (r : ReadCloser) : IO (option error) :=
  fun h =>
    match h !! r with
    | None => (None, h)
    | Some s => (None, <[r := Stream (chunks s) (failure s) true]> h)
    end.

(** What a caller who drains [r] to its end ([ioutil.ReadAll]) gets:
    all remaining bytes, and the error unless the end is a clean EOF. *)
Definition ReadAll (r : ReadCloser) : IO (string * option error) :=
  fun h =>
    match h !! r with
    | None => (("", Some errReadOnClosedResBody), h)
    | Some s =>
      if closed s then (("", Some errReadOnClosedResBody), h)
      else ((bytes (chunks s),
             match failure s with
             | None => None
             | Some msg => Some (TransportError msg)
             end),
            <[r := Stream [] (failure s) false]> h)
    end.

End io.

Notation "'do' x <- m ; k" := (io.bind m (fun x => k))
  (at level 10, x name, m at level 100, k at level 200).
Notation "'do' ' p <- m ; k" := (io.bind m (fun p => k))
  (at level 10, p pattern, m at level 100, k at level 200).

(** ** encoding/json: values and the scanner

    The model follows the two parts of the package that [Decoder.Decode]
    goes through: the scanner ([scanner.go]), a pushdown automaton that is
    fed one byte at a time and tells where a JSON value ends, and the
    decoding of that value into a Go value ([decode.go]).  The automaton
    below also builds the value it recognises. *)
Module json.

#[warnings="-register-all"]
Inductive value : Type :=
| JNull
| JBool (b : bool)
| JNumber (literal : string)
| JString (s : string)
| JArray (items : list value)
| JObject (members : list (string * value)).

Definition isSpace (c : ascii) : bool :=
  byte_is c " " || byte_is c (ascii_of_N 9) || byte_is c (ascii_of_N 13)
  || byte_is c (ascii_of_N 10).

(** *** Unquoting a string literal ([unquoteBytes])

    The text between the quotes is read left to right.  Escapes are
    replaced, a UTF-16 surrogate pair written as two [\u] escapes becomes
    one rune, a surrogate half without its partner becomes U+FFFD, and so
    does every byte that is not part of a valid UTF-8 sequence. *)
Inductive umode : Type :=
| UPlain
| UEsc
| UHex (todo : nat) (acc : N).

Definition emit (piece : string) (rest : option string) : option string :=
  match rest with
  | Some r => Some (piece +:+ r)
  | None => None
  end.

Definition replacement : string := utf8.EncodeRune utf8.RuneError.

(** A pending high surrogate that turned out to have no partner. *)
Definition flush (hi : option N) : string :=
  match hi with
  | Some _ => replacement
  | None => ""
  end.

Definition isHighSurrogate (r : N) : bool := ((0xD800 <=? r) && (r <? 0xDC00))%N.
Definition isLowSurrogate (r : N) : bool := ((0xDC00 <=? r) && (r <? 0xE000))%N.

(** [utf16.DecodeRune] on a valid pair. *)
Definition combine (hi lo : N) : N :=
  (N.lor (N.shiftl (hi - 0xD800) 10) (lo - 0xDC00) + 0x10000)%N.

Definition escape_char (c : ascii) : option ascii :=
  if byte_is c dq || byte_is c "\" || byte_is c "/" || byte_is c "'" then Some c
  else if byte_is c "b" then Some (ascii_of_N 8)
  else if byte_is c "f" then Some (ascii_of_N 12)
  else if byte_is c "n" then Some (ascii_of_N 10)
  else if byte_is c "r" then Some (ascii_of_N 13)
  else if byte_is c "t" then Some (ascii_of_N 9)
  else None.

Fixpoint unquote_from (m : umode) (copy : nat) (hi : option N) (s : string)
  : option string :=
  match s with
  | EmptyString =>
    match m with
    | UPlain => Some (flush hi)
    | _ => None
    end
  | String c s' =>
    match m with
    | UPlain =>
      match copy with
      | S k => emit (String c "") (unquote_from UPlain k None s')
      | O =>
        if byte_is c "\" then unquote_from UEsc 0 hi s'
        else if byte_is c dq || byte_in 0 0x1F c then None
        else if byte_in 0 0x7F c then
          emit (flush hi +:+ String c "") (unquote_from UPlain 0 None s')
        else
          match utf8.DecodeRune s with
          | (_, 1%nat) =>
            emit (flush hi +:+ replacement) (unquote_from UPlain 0 None s')
          | (_, size) =>
            emit (flush hi +:+ String c "")
                 (unquote_from UPlain (size - 1) None s')
          end
      end
    | UEsc =>
      if byte_is c "u" then unquote_from (UHex 4 0) 0 hi s'
      else match escape_char c with
           | Some b =>
             emit (flush hi +:+ String b "") (unquote_from UPlain 0 None s')
           | None => None
           end
    | UHex todo acc =>
      match hex_val c with
      | None => None
      | Some d =>
        let rr := (acc * 16 + d)%N in
        match todo with
        | S (S l) => unquote_from (UHex (S l) rr) 0 hi s'
        | _ =>
          let paired :=
            match hi with
            | Some h => isLowSurrogate rr
            | None => false
            end in
          if paired then
            emit (utf8.EncodeRune (combine (default 0%N hi) rr))
                 (unquote_from UPlain 0 None s')
          else if isHighSurrogate rr then
            emit (flush hi) (unquote_from UPlain 0 (Some rr) s')
          else
            emit (flush hi +:+ utf8.EncodeRune rr)
                 (unquote_from UPlain 0 None s')
        end
      end
    end
  end.

Definition unquote (raw : string) : option string :=
  unquote_from UPlain 0 None raw.

(** *** The scanner *)

(** What the value being read is nested in ([scanner.parseState]); the
    parts already read are kept in reverse order. *)
Inductive frame : Type :=
| FArray (items : list value)
| FKey (members : list (string * value))
| FColon (members : list (string * value)) (key : string)
| FValue (members : list (string * value)) (key : string)
| FMember (members : list (string * value)).

(** The [step] functions of the scanner; those inside a string or a
    number carry the bytes read so far, in reverse order. *)
Inductive state : Type :=
| BeginValue
| BeginValueOrEmpty
| BeginStringOrEmpty
| BeginString
| EndValue
| InString (raw : list ascii)
| InStringEsc (raw : list ascii)
| InStringEscU (todo : nat) (raw : list ascii)
| Neg (lit : list ascii)
| Num0 (lit : list ascii)
| Num1 (lit : list ascii)
| Dot (lit : list ascii)
| Dot0 (lit : list ascii)
| Exp (lit : list ascii)
| ExpSign (lit : list ascii)
| Exp0 (lit : list ascii)
| InLiteral (rest : string) (v : value)
| EndTop (v : value).

Inductive outcome : Type :=
| Continue (stk : list frame) (st : state)
| End (v : value) (consumed : bool)
| Invalid.

Definition text (rev_bytes : list ascii) : string :=
  string_of_list_ascii (rev rev_bytes).

(** A value is complete: hand it to what it is nested in. *)
Definition deliver (stk : list frame) (v : value) : outcome :=
  match stk with
  | [] => Continue [] (EndTop v)
  | FArray items :: stk' => Continue (FArray (v :: items) :: stk') EndValue
  | FKey ms :: stk' =>
    match v with
    | JString k => Continue (FColon ms k :: stk') EndValue
    | _ => Invalid
    end
  | FValue ms k :: stk' => Continue (FMember ((k, v) :: ms) :: stk') EndValue
  | FColon _ _ :: _ | FMember _ :: _ => Invalid
  end.

(** An array or object is closed by the current byte.  At top level the
    value ends right there ([readValue] does not wait for another
    byte). *)
Definition close (stk : list frame) (v : value) : outcome :=
  match stk with
  | [] => End v true
  | _ => deliver stk v
  end.

(** [stateEndValue], inside an array or object. *)
Definition endValue (stk : list frame) (c : ascii) : outcome :=
  if isSpace c then Continue stk EndValue
  else
    match stk with
    | FColon ms k :: stk' =>
      if byte_is c ":" then Continue (FValue ms k :: stk') BeginValue
      else Invalid
    | FMember ms :: stk' =>
      if byte_is c "," then Continue (FKey ms :: stk') BeginString
      else if byte_is c "}" then close stk' (JObject (rev ms))
      else Invalid
    | FArray items :: stk' =>
      if byte_is c "," then Continue stk BeginValue
      else if byte_is c "]" then close stk' (JArray (rev items))
      else Invalid
    | _ => Invalid
    end.

(** A number ends before the byte [c], which [stateEndValue] then
    handles.  At top level any byte ends the value. *)
Definition endNumber (stk : list frame) (lit : list ascii) (c : ascii)
  : outcome :=
  let v := JNumber (text lit) in
  match stk with
  | [] => End v false
  | _ =>
    match deliver stk v with
    | Continue stk' _ => endValue stk' c
    | other => other
    end
  end.

(** Arrays and objects may be nested this deep ([maxNestingDepth]). *)
Definition maxNestingDepth : N := 10000.

(** [pushParseState]: one level deeper, unless that is too deep. *)
Definition push (f : frame) (stk : list frame) (st : state) : outcome :=
  if (N.of_nat (length stk) <? maxNestingDepth)%N then Continue (f :: stk) st
  else Invalid.

(** [stateBeginValue] *)
Definition beginValue (stk : list frame) (c : ascii) : outcome :=
  if isSpace c then Continue stk BeginValue
  else if byte_is c "{" then push (FKey []) stk BeginStringOrEmpty
  else if byte_is c "[" then push (FArray []) stk BeginValueOrEmpty
  else if byte_is c dq then Continue stk (InString [])
  else if byte_is c "-" then Continue stk (Neg [c])
  else if byte_is c "0" then Continue stk (Num0 [c])
  else if byte_is c "t" then Continue stk (InLiteral "rue" (JBool true))
  else if byte_is c "f" then Continue stk (InLiteral "alse" (JBool false))
  else if byte_is c "n" then Continue stk (InLiteral "ull" JNull)
  else if byte_in 49 57 c then Continue stk (Num1 [c])
  else Invalid.

(** [state0]: after the integer part. *)
Definition afterInt (stk : list frame) (lit : list ascii) (c : ascii)
  : outcome :=
  if byte_is c "." then Continue stk (Dot (c :: lit))
  else if byte_is c "e" || byte_is c "E" then Continue stk (Exp (c :: lit))
  else endNumber stk lit c.

Definition step (stk : list frame) (st : state) (c : ascii) : outcome :=
  match st with
  | BeginValue => beginValue stk c
  | BeginValueOrEmpty =>
    if isSpace c then Continue stk BeginValueOrEmpty
    else if byte_is c "]" then endValue stk c
    else beginValue stk c
  | BeginStringOrEmpty =>
    if isSpace c then Continue stk BeginStringOrEmpty
    else if byte_is c "}" then
      match stk with
      | FKey ms :: stk' => endValue (FMember ms :: stk') c
      | _ => Invalid
      end
    else if byte_is c dq then Continue stk (InString [])
    else Invalid
  | BeginString =>
    if isSpace c then Continue stk BeginString
    else if byte_is c dq then Continue stk (InString [])
    else Invalid
  | EndValue => endValue stk c
  | InString raw =>
    if byte_is c dq then
      match unquote (text raw) with
      | Some s => deliver stk (JString s)
      | None => Invalid
      end
    else if byte_is c "\" then Continue stk (InStringEsc (c :: raw))
    else if byte_in 0 0x1F c then Invalid
    else Continue stk (InString (c :: raw))
  | InStringEsc raw =>
    if byte_is c "b" || byte_is c "f" || byte_is c "n" || byte_is c "r"
       || byte_is c "t" || byte_is c "\" || byte_is c "/" || byte_is c dq
    then Continue stk (InString (c :: raw))
    else if byte_is c "u" then Continue stk (InStringEscU 4 (c :: raw))
    else Invalid
  | InStringEscU todo raw =>
    match hex_val c, todo with
    | Some _, S (S l) => Continue stk (InStringEscU (S l) (c :: raw))
    | Some _, _ => Continue stk (InString (c :: raw))
    | None, _ => Invalid
    end
  | Neg lit =>
    if byte_is c "0" then Continue stk (Num0 (c :: lit))
    else if byte_in 49 57 c then Continue stk (Num1 (c :: lit))
    else Invalid
  | Num1 lit =>
    if is_digit c then Continue stk (Num1 (c :: lit))
    else afterInt stk lit c
  | Num0 lit => afterInt stk lit c
  | Dot lit =>
    if is_digit c then Continue stk (Dot0 (c :: lit)) else Invalid
  | Dot0 lit =>
    if is_digit c then Continue stk (Dot0 (c :: lit))
    else if byte_is c "e" || byte_is c "E" then Continue stk (Exp (c :: lit))
    else endNumber stk lit c
  | Exp lit =>
    if byte_is c "+" || byte_is c "-" then Continue stk (ExpSign (c :: lit))
    else if is_digit c then Continue stk (Exp0 (c :: lit))
    else Invalid
  | ExpSign lit =>
    if is_digit c then Continue stk (Exp0 (c :: lit)) else Invalid
  | Exp0 lit =>
    if is_digit c then Continue stk (Exp0 (c :: lit))
    else endNumber stk lit c
  | InLiteral rest v =>
    match rest with
    | String d rest' =>
      if byte_is c d then
        match rest' with
        | EmptyString => deliver stk v
        | _ => Continue stk (InLiteral rest' v)
        end
      else Invalid
    | EmptyString => Invalid
    end
  | EndTop v => End v false
  end.

(** What scanning a buffer gives: a first value and the bytes after it,
    a syntax error, or neither yet. *)
Inductive scanned : Type :=
| Value (v : value) (rest : string)
| Malformed
| NeedMore.

Fixpoint run (stk : list frame) (st : state) (buf : string) : scanned :=
  match buf with
  | EmptyString => NeedMore
  | String c buf' =>
    match step stk st c with
    | Continue stk' st' => run stk' st' buf'
    | End v consumed => Value v (if consumed then buf' else buf)
    | Invalid => Malformed
    end
  end.

Definition scan (buf : string) : scanned := run [] BeginValue buf.

(** *** Decoding a value into a Go value ([decode.go])

    A [store T] writes a JSON value into an existing Go value of type
    [T], as [decodeState.value] does through reflection.  A JSON value
    that does not fit the Go type leaves the target as it is and records
    an [UnmarshalTypeError]; decoding goes on, and the first recorded
    error is what [Unmarshal] returns in the end ([d.savedError]). *)
Definition store (T : Type) : Type :=
  value -> T -> option error -> T * option error.

Definition saveError (saved : option error) (e : error) : option error :=
  match saved with
  | Some _ => saved
  | None => Some e
  end.

Definition kind (v : value) : string :=
  match v with
  | JNull => "null"
  | JBool _ => "bool"
  | JNumber _ => "number"
  | JString _ => "string"
  | JArray _ => "array"
  | JObject _ => "object"
  end.

Definition mismatch {T} (goType : string) (v : value) (old : T)
  (saved : option error) : T * option error :=
  (old, saveError saved (UnmarshalTypeError (kind v) goType)).

(** Into a [string]: a JSON string is stored, [null] changes nothing. *)
Definition store_string : store string :=
  fun v old saved =>
    match v with
    | JString s => (s, saved)
    | JNull => (old, saved)
    | _ => mismatch "string" v old saved
    end.

(** Whether an object key selects the field called [name] when it is not
    equal to it: the comparison ignores the case of letters, and the
    long s U+017F and the Kelvin sign U+212A count as the letters s and
    k.  ([name] is a name of ASCII characters, as every field name of
    this package is.) *)
Fixpoint equalFold (name key : string) {struct name} : bool :=
  match name with
  | EmptyString =>
    match key with
    | EmptyString => true
    | _ => false
    end
  | String n name' =>
    match key with
    | EmptyString => false
    | String k key' =>
      if byte_in 0 0x7F k then
        byte_is (ascii_upper n) (ascii_upper k) && equalFold name' key'
      else
        let (r, size) := utf8.DecodeRune key in
        if ((r =? 0x17F)%N && byte_is (ascii_upper n) "S")
           || ((r =? 0x212A)%N && byte_is (ascii_upper n) "K")
        then equalFold name' (str_drop size key)
        else false
    end
  end.

(** The field an object key is decoded into: the field of that exact
    name if there is one, otherwise the first field whose name matches
    up to case. *)
Definition findField {F} (fields : list (string * F)) (key : string)
  : option (string * F) :=
  match List.find (fun f => String.eqb (fst f) key) fields with
  | Some f => Some f
  | None => List.find (fun f => equalFold (fst f) key) fields
  end.

(** One member of an object: decoded into the field its key selects,
    skipped if it selects none. *)
Definition member {S} (fields : list (string * store S))
  (acc : S * option error) (m : string * value) : S * option error :=
  match findField fields (fst m) with
  | Some f => snd f (snd m) (fst acc) (snd acc)
  | None => acc
  end.

(** Into a struct with the given fields (JSON name and store of each):
    the members of an object are decoded in the order of the text;
    [null] changes nothing. *)
Definition store_struct {S} (goType : string)
  (fields : list (string * store S)) : store S :=
  fun v old saved =>
    match v with
    | JObject ms => fold_left (member fields) ms (old, saved)
    | JNull => (old, saved)
    | _ => mismatch goType v old saved
    end.

(** The elements of a JSON array, each decoded into the element of the
    same index that the slice already holds ([pool]), or into a zero
    value where it holds none. *)
Fixpoint elements {A} (zero : A) (elem : store A) (items : list value)
  (pool : list A) (saved : option error) : list A * option error :=
  match items with
  | [] => ([], saved)
  | item :: items' =>
    let (x, saved1) := elem item (hd zero pool) saved in
    let (xs, saved2) := elements zero elem items' (tl pool) saved1 in
    (x :: xs, saved2)
  end.

(** A slice being decoded into: the slice itself ([None] is nil), and
    the elements that its backing array still holds beyond its length
    (left there when an earlier array for the same field was longer). *)
Definition slice (A : Type) : Type := option (list A) * list A.

(** Into a slice: an array overwrites the slice element by element and
    sets its length, an empty array gives a fresh empty slice, [null]
    gives the nil slice. *)
Definition store_slice {A} (goType : string) (zero : A) (elem : store A)
  : store (slice A) :=
  fun v old saved =>
    match v with
    | JArray [] => ((Some [], []), saved)
    | JArray items =>
      let pool := (default [] (fst old) ++ snd old)%list in
      let (xs, saved') := elements zero elem items pool saved in
      ((Some xs, drop (length items) pool), saved')
    | JNull => ((None, []), saved)
    | _ => mismatch goType v old saved
    end.

(** *** The streaming decoder ([stream.go]) *)

Record Decoder : Type := MkDecoder {
  r : io.ReadCloser;
  buf : string;
  err : option error
}.

(** [json.NewDecoder(r)]: nothing is read yet. *)
Definition NewDecoder (r : io.ReadCloser) : Decoder :=
  {| r := r; buf := ""; err := None |}.

Inductive found : Type :=
| Found (v : value) (rest : string) (chunks : list string)
| SyntaxErr (buf : string) (chunks : list string)
| Starved (buf : string).

(** The loop of [Decoder.readValue]: scan what is buffered; while that
    neither completes a value nor is invalid, append what the next
    [Read] delivers and scan again. *)
Fixpoint refill (buf : string) (chunks : list string) : found :=
  match scan buf with
  | Value v rest => Found v rest chunks
  | Malformed => SyntaxErr buf chunks
  | NeedMore =>
    match chunks with
    | c :: chunks' => refill (buf +:+ c) chunks'
    | [] => Starved buf
    end
  end.

Fixpoint nonSpace (b : string) : bool :=
  match b with
  | EmptyString => false
  | String c b' => negb (isSpace c) || nonSpace b'
  end.

(** What the reader still delivers: its chunks and the error after the
    last one; a closed body delivers the error only. *)
Definition pending (h : io.heap) (r : io.ReadCloser) : list string * error :=
  match h !! r with
  | Some s =>
    if io.closed s then ([], io.errReadOnClosedResBody)
    else (io.chunks s, io.ending s)
  | None => ([], io.errReadOnClosedResBody)
  end.

(** The reader after the decoder has used up all chunks but [unread]. *)
Definition consumed (r : io.ReadCloser) (unread : list string) (h : io.heap)
  : io.heap :=
  match h !! r with
  | Some s =>
    if io.closed s then h
    else <[r := io.Stream unread (io.failure s) false]> h
  | None => h
  end.

Definition error_is (e1 e2 : error) : bool :=
  match e1, e2 with
  | errorString a, errorString b => String.eqb a b
  | _, _ => false
  end.

(** [dec.readValue()]: the next JSON value of the stream.  At the end of
    the stream a pending number, string or literal is complete; an end
    in the middle of a value is [io.ErrUnexpectedEOF], an end before any
    value [io.EOF]; any other read error is returned as it is.  Bytes
    after the value stay in the buffer and are not looked at.  An error
    sticks to the decoder. *)
Definition readValue (dec : Decoder)
  : io.IO (value * Decoder + error * Decoder) :=
  fun h =>
    match err dec with
    | Some e => (inr (e, dec), h)
    | None =>
      let (chunks, ending) := pending h (r dec) in
      let ok v rest unread :=
        (inl (v, {| r := r dec; buf := rest; err := None |}),
         consumed (r dec) unread h) in
      let fail e b unread :=
        (inr (e, {| r := r dec; buf := b; err := Some e |}),
         consumed (r dec) unread h) in
      match refill (buf dec) chunks with
      | Found v rest unread => ok v rest unread
      | SyntaxErr b unread => fail SyntaxError b unread
      | Starved b =>
        if error_is ending io.EOF then
          match scan (b +:+ " ") with
          | Value v _ => ok v "" []
          | _ =>
            fail (if nonSpace b then io.ErrUnexpectedEOF else io.EOF) b []
          end
        else fail ending b []
      end
    end.

(** [dec.Decode(&target)]: reads the next JSON value and stores it into
    [target]; the error is that of reading, or the first one recorded
    while storing. *)
Definition Decode {T} (into : store T) (dec : Decoder) (target : T)
  : io.IO (T * option error * Decoder) :=
  do next <- readValue dec;
  match next with
  | inl (v, dec') =>
    let (target', e) := into v target None in io.ret (target', e, dec')
  | inr (e, dec') => io.ret (target, Some e, dec')
  end.

(** *** Encoding ([encode.go])

    A string is written between quotes, with the escapes of a default
    [Encoder] (HTML escaping on, [\b] and [\f] written short as releases
    since Go 1.22 do): quote and backslash get a backslash, control
    characters and [<], [>], [&] are written as [\u00XX], U+2028 and
    U+2029 as [\u2028] and [\u2029], and a byte that is not valid UTF-8
    as [\ufffd]. *)
Definition hexDigit (n : N) : ascii :=
  match get (N.to_nat n) "0123456789abcdef" with
  | Some c => c
  | None => "0"%char
  end.

Definition quoteByte (c : ascii) : string :=
  if byte_is c "\" || byte_is c dq then String "\" (String c "")
  else if byte_is c (ascii_of_N 8) then "\b"
  else if byte_is c (ascii_of_N 12) then "\f"
  else if byte_is c (ascii_of_N 10) then "\n"
  else if byte_is c (ascii_of_N 13) then "\r"
  else if byte_is c (ascii_of_N 9) then "\t"
  else if byte_in 0 0x1F c || byte_is c "<" || byte_is c ">" || byte_is c "&"
  then "\u00" +:+ String (hexDigit (N.shiftr (byte_val c) 4))
                   (String (hexDigit (N.land (byte_val c) 0xF)) "")
  else String c "".

Fixpoint quoteFrom (skip : nat) (s : string) : string :=
  match s with
  | EmptyString => EmptyString
  | String c s' =>
    match skip with
    | S k => quoteFrom k s'
    | O =>
      let (r, size) := utf8.DecodeRune s in
      let out :=
        if (r <? 0x80)%N then quoteByte c
        else if Nat.eqb size 1 then "\ufffd"
        else if (r =? 0x2028)%N then "\u2028"
        else if (r =? 0x2029)%N then "\u2029"
        else str_take size s in
      out +:+ quoteFrom (size - 1) s'
    end
  end.

Definition quote (s : string) : string :=
  String dq (quoteFrom 0 s) +:+ String dq "".

(** The compact text of a value: the members of an object and the items
    of an array in their order, separated by commas. *)
Fixpoint Marshal (v : value) : string :=
  match v with
  | JNull => "null"
  | JBool true => "true"
  | JBool false => "false"
  | JNumber literal => literal
  | JString s => quote s
  | JArray items =>
    "[" +:+ (fix each (l : list value) : string :=
               match l with
               | [] => ""
               | [x] => Marshal x
               | x :: l' => Marshal x +:+ "," +:+ each l'
               end) items +:+ "]"
  | JObject members =>
    "{" +:+ (fix each (l : list (string * value)) : string :=
               match l with
               | [] => ""
               | [m] => quote (fst m) +:+ ":" +:+ Marshal (snd m)
               | m :: l' =>
                 quote (fst m) +:+ ":" +:+ Marshal (snd m) +:+ "," +:+ each l'
               end) members +:+ "}"
  end.

(** [Encoder.Encode]: the text of the value and a newline. *)
Definition Encode (v : value) : string :=
  Marshal v +:+ String (ascii_of_N 10) "".

End json.

(** ** strings, unicode: the functions package [mime] uses *)
Module gostrings.

(** [unicode.IsSpace] *)
Definition IsSpace (r : utf8.rune) : bool :=
  ((9 <=? r) && (r <=? 13) || (r =? 0x20) || (r =? 0x85) || (r =? 0xA0)
   || (r =? 0x1680) || (0x2000 <=? r) && (r <=? 0x200A) || (r =? 0x2028)
   || (r =? 0x2029) || (r =? 0x202F) || (r =? 0x205F) || (r =? 0x3000))%N.

(** [strings.TrimLeftFunc(s, unicode.IsSpace)]; [skip] counts the bytes
    of the current rune that are still to be passed over. *)
Fixpoint trimLeftFrom (skip : nat) (s : string) : string :=
  match s with
  | EmptyString => EmptyString
  | String _ s' =>
    match skip with
    | S k => trimLeftFrom k s'
    | O =>
      let (r, size) := utf8.DecodeRune s in
      if IsSpace r then trimLeftFrom (size - 1) s' else s
    end
  end.

Definition TrimLeftSpace (s : string) : string := trimLeftFrom 0 s.

Fixpoint allSpaceFrom (skip : nat) (s : string) : bool :=
  match s with
  | EmptyString => true
  | String _ s' =>
    match skip with
    | S k => allSpaceFrom k s'
    | O =>
      let (r, size) := utf8.DecodeRune s in
      IsSpace r && allSpaceFrom (size - 1) s'
    end
  end.

Fixpoint TrimRightSpace (s : string) : string :=
  match s with
  | EmptyString => EmptyString
  | String c s' =>
    if allSpaceFrom 0 s then EmptyString else String c (TrimRightSpace s')
  end.

(** [strings.TrimSpace] *)
Definition TrimSpace (s : string) : string :=
  TrimRightSpace (TrimLeftSpace s).

(** [strings.ToLower].  ASCII letters are lowered; the two runes outside
    ASCII whose lower case is an ASCII letter, U+0130 and U+212A, become
    [i] and [k]; a byte that is not valid UTF-8 becomes U+FFFD.  Every
    other rune outside ASCII is kept as it is: its lower case is again
    a rune outside ASCII that is neither a space nor allowed in a token,
    so package [mime], which only compares the result with ASCII text,
    cannot tell the difference. *)
Fixpoint toLowerFrom (skip : nat) (s : string) : string :=
  match s with
  | EmptyString => EmptyString
  | String c s' =>
    match skip with
    | S k => toLowerFrom k s'
    | O =>
      let (r, size) := utf8.DecodeRune s in
      let out :=
        if (r <? 0x80)%N then String (ascii_lower c) ""
        else if (r =? 0x130)%N then "i"
        else if (r =? 0x212A)%N then "k"
        else if Nat.eqb size 1 then utf8.EncodeRune utf8.RuneError
        else str_take size s in
      out +:+ toLowerFrom (size - 1) s'
    end
  end.

Definition ToLower (s : string) : string := toLowerFrom 0 s.

(** [strings.Cut(s, sep)] for a separator of one byte: the text before
    and after its first occurrence, if there is one. *)
Fixpoint Cut (sep : ascii) (s : string) : option (string * string) :=
  match s with
  | EmptyString => None
  | String c s' =>
    if byte_is c sep then Some ("", s')
    else match Cut sep s' with
         | Some (before, after) => Some (String c before, after)
         | None => None
         end
  end.

End gostrings.

(** ** mime: [ParseMediaType] ([mediatype.go], [grammar.go]) *)
Module mime.

Definition ErrNoMediaType : error := errorString "mime: no media type".
Definition ErrInvalidMediaParameter : error :=
  errorString "mime: invalid media parameter".
Definition ErrDuplicateParameter : error :=
  errorString "mime: duplicate parameter name".

(** The special characters of RFC 1521 and 2045; the double quote is
    one of them. *)
Definition isTSpecial (c : ascii) : bool :=
  byte_among "()<>@,;:\/[]?=" c || byte_is c dq.

Definition isTokenChar (c : ascii) : bool :=
  byte_in 0x21 0x7E c && negb (isTSpecial c).

(** The longest prefix of token characters, and what follows it. *)
Fixpoint consumeToken (v : string) : string * string :=
  match v with
  | EmptyString => ("", "")
  | String c v' =>
    if isTokenChar c then
      let (token, rest) := consumeToken v' in (String c token, rest)
    else ("", v)
  end.

(** The inside of a quoted string, up to the closing quote.  A backslash
    in front of a special character stands for that character; any
    other backslash stands for itself. *)
Fixpoint quoted (s : string) : option (string * string) :=
  let more c s' :=
    match quoted s' with
    | Some (text, rest) => Some (String c text, rest)
    | None => None
    end in
  match s with
  | EmptyString => None
  | String c s' =>
    if byte_is c dq then Some ("", s')
    else if byte_is c "\" then
      match s' with
      | String d s'' =>
        if isTSpecial d then
          match quoted s'' with
          | Some (text, rest) => Some (String d text, rest)
          | None => None
          end
        else more c s'
      | EmptyString => None
      end
    else if byte_is c (ascii_of_N 13) || byte_is c (ascii_of_N 10) then None
    else more c s'
  end.

(** [consumeValue]: a token or a quoted string; on failure the value is
    empty and the rest is the whole input. *)
Definition consumeValue (v : string) : string * string :=
  match v with
  | EmptyString => ("", "")
  | String c v' =>
    if byte_is c dq then
      match quoted v' with
      | Some (text, rest) => (text, rest)
      | None => ("", v)
      end
    else consumeToken v
  end.

(** [consumeMediaParam]: one [; name = value], with the name in lower
    case.  [None] stands for the result with an empty name. *)
Definition consumeMediaParam (v : string)
  : option (string * string * string) :=
  match gostrings.TrimLeftSpace v with
  | String semi rest1 =>
    if byte_is semi ";" then
      let (param, rest2) := consumeToken (gostrings.TrimLeftSpace rest1) in
      match param, gostrings.TrimLeftSpace rest2 with
      | String _ _, String eq rest3 =>
        if byte_is eq "=" then
          let rest4 := gostrings.TrimLeftSpace rest3 in
          let (value, rest5) := consumeValue rest4 in
          if String.eqb value "" && String.eqb rest5 rest4 then None
          else Some (gostrings.ToLower param, value, rest5)
        else None
      | _, _ => None
      end
    else None
  | EmptyString => None
  end.

(** [checkMediaTypeDisposition]: a token, or two tokens with a slash
    between them. *)
Definition checkMediaTypeDisposition (s : string) : option error :=
  let (typ, rest) := consumeToken s in
  match typ, rest with
  | EmptyString, _ => Some ErrNoMediaType
  | _, EmptyString => None
  | _, String slash rest1 =>
    if byte_is slash "/" then
      let (subtype, rest2) := consumeToken rest1 in
      match subtype, rest2 with
      | EmptyString, _ =>
        Some (errorString "mime: expected token after slash")
      | _, EmptyString => None
      | _, _ =>
        Some (errorString "mime: unexpected content after media subtype")
      end
    else Some (errorString "mime: expected slash after first token")
  end.

(** [percentHexUnescape]: [None] if a percent sign is not followed by
    two hexadecimal digits. *)
Fixpoint percentHexUnescape (s : string) : option string :=
  match s with
  | EmptyString => Some ""
  | String c s' =>
    if byte_is c "%" then
      match s' with
      | String a (String b s'') =>
        match hex_val a, hex_val b, percentHexUnescape s'' with
        | Some x, Some y, Some t =>
          Some (String (ascii_of_N (x * 16 + y)) t)
        | _, _, _ => None
        end
      | _ => None
      end
    else
      match percentHexUnescape s' with
      | Some t => Some (String c t)
      | None => None
      end
  end.

(** [decode2231Enc]: [charset'language'text] with the text percent
    encoded; only the charsets us-ascii and utf-8 are decoded. *)
Definition decode2231Enc (v : string) : option string :=
  match gostrings.Cut "'" v with
  | Some (cs, after) =>
    match gostrings.Cut "'" after with
    | Some (_, encoded) =>
      let charset := gostrings.ToLower cs in
      if String.eqb charset "us-ascii" || String.eqb charset "utf-8"
      then percentHexUnescape encoded
      else None
    | None => None
    end
  | None => None
  end.

(** A parameter may not be given twice with different values. *)
Definition clash (m : gmap string string) (key value : string) : bool :=
  match m !! key with
  | Some v => negb (String.eqb v value)
  | None => false
  end.

Inductive parsed : Type :=
| Params (params : gmap string string)
    (continuation : gmap string (gmap string string))
| InvalidParameter
| DuplicateParameter.

(** The loop over the parameters.  Parameters whose name has a star are
    collected apart, under the part of the name before the star.
    [fuel] bounds the number of parameters; every parameter takes at
    least one byte, so the length of the input is enough. *)
Fixpoint parseParams (fuel : nat) (v : string) (params : gmap string string)
  (continuation : gmap string (gmap string string)) : option parsed :=
  match fuel with
  | O => None
  | S fuel' =>
    let v := gostrings.TrimLeftSpace v in
    match v with
    | EmptyString => Some (Params params continuation)
    | _ =>
      match consumeMediaParam v with
      | None =>
        if String.eqb (gostrings.TrimSpace v) ";"
        then Some (Params params continuation)
        else Some InvalidParameter
      | Some (key, value, rest) =>
        match gostrings.Cut "*" key with
        | Some (baseName, _) =>
          let pmap := default ∅ (continuation !! baseName) in
          if clash pmap key value then Some DuplicateParameter
          else parseParams fuel' rest params
                 (<[baseName := <[key := value]> pmap]> continuation)
        | None =>
          if clash params key value then Some DuplicateParameter
          else parseParams fuel' rest (<[key := value]> params) continuation
        end
      end
    end
  end.

Definition decimal (n : nat) : string :=
  DecimalString.NilZero.string_of_uint (Nat.to_uint n).

(** The names [key*n] and [key*n*] of the [n]-th piece of a parameter. *)
Definition simplePart (key : string) (n : nat) : string :=
  key +:+ "*" +:+ decimal n.

Definition encodedPart (key : string) (n : nat) : string :=
  simplePart key n +:+ "*".

(** The pieces [key*0], [key*1], ... of a parameter split over several
    (RFC 2231), joined in order, as long as there is a next piece; a
    piece whose name ends in a star is percent encoded.  The flag tells
    whether there was any piece.  There are at most as many pieces as
    the map has entries, which bounds [fuel]. *)
Fixpoint pieces (fuel n : nat) (key : string) (pieceMap : gmap string string)
  : bool * string :=
  match fuel with
  | O => (false, "")
  | S fuel' =>
    match pieceMap !! simplePart key n with
    | Some v => (true, v +:+ snd (pieces fuel' (S n) key pieceMap))
    | None =>
      match pieceMap !! encodedPart key n with
      | Some v =>
        let decv :=
          match n with
          | O => default "" (decode2231Enc v)
          | S _ => default "" (percentHexUnescape v)
          end in
        (true, decv +:+ snd (pieces fuel' (S n) key pieceMap))
      | None => (false, "")
      end
    end
  end.

(** What the starred parameters collected under [key] add to the
    result. *)
Definition stitch (key : string) (pieceMap : gmap string string)
  (params : gmap string string) : gmap string string :=
  match pieceMap !! (key +:+ "*") with
  | Some v =>
    match decode2231Enc v with
    | Some decv => <[key := decv]> params
    | None => params
    end
  | None =>
    let (valid, text) := pieces (S (size pieceMap)) 0 key pieceMap in
    if valid then <[key := text]> params else params
  end.

(** [mime.ParseMediaType(v)]: the media type in lower case, its
    parameters, and an error.  A nil map is the empty map. *)
Definition ParseMediaType (v : string)
  : string * gmap string string * option error :=
  let (base, rest) :=
    match gostrings.Cut ";" v with
    | Some (base, _) => (base, str_drop (String.length base) v)
    | None => (v, "")
    end in
  let mediatype := gostrings.TrimSpace (gostrings.ToLower base) in
  match checkMediaTypeDisposition mediatype with
  | Some e => ("", ∅, Some e)
  | None =>
    match parseParams (S (String.length rest)) rest ∅ ∅ with
    | Some (Params params continuation) =>
      (mediatype, map_fold stitch params continuation, None)
    | Some InvalidParameter => (mediatype, ∅, Some ErrInvalidMediaParameter)
    | Some DuplicateParameter => ("", ∅, Some ErrDuplicateParameter)
    | None => ("", ∅, Some ErrInvalidMediaParameter)
    end
  end.

End mime.

(** ** net/http: the response handed to the decoders *)
Module http.

Definition StatusOK : Z := 200.

(** The bytes allowed in the name of a header field. *)
Definition validHeaderFieldByte (c : ascii) : bool :=
  is_digit c || is_upper c || is_lower c
  || byte_among "!#$%&'*+-.^_`|~" c.

Fixpoint canonicalFrom (upper : bool) (s : string) : string :=
  match s with
  | EmptyString => EmptyString
  | String c s' =>
    String (if upper then ascii_upper c else ascii_lower c)
           (canonicalFrom (byte_is c "-") s')
  end.

Fixpoint allValid (s : string) : bool :=
  match s with
  | EmptyString => true
  | String c s' => validHeaderFieldByte c && allValid s'
  end.

(** [textproto.CanonicalMIMEHeaderKey] *)
Definition CanonicalMIMEHeaderKey (s : string) : string :=
  if allValid s then canonicalFrom true s else s.

(** [Header.Get(key)]: the first value stored under the canonical form
    of [key], or the empty string. *)
Definition Get (h : gmap string (list string)) (key : string) : string :=
  match h !! CanonicalMIMEHeaderKey key with
  | Some (v :: _) => v
  | _ => ""
  end.

Record Response : Type := MkResponse {
  StatusCode : Z;
  Header : gmap string (list string);
  Body : io.ReadCloser
}.

End http.

(** ** [response.go] *)

(** [type MessageContentResponse struct]: [Content] is a reference to a
    stream, [FileName] a string. *)
Module MessageContentResponse.
Record t : Type := Make { Content : io.ReadCloser; FileName : string }.
End MessageContentResponse.

(** *** The struct tags

    For each struct the JSON name of every field, in the order of the
    declaration, with the way a value is stored into the field. *)

Definition field {S A} (get : S -> A) (set : A -> S -> S) (st : json.store A)
  : json.store S :=
  fun v s saved => let (x, saved') := st v (get s) saved in (set x s, saved').

Definition BasicResponse_fields : list (string * json.store BasicResponse.t) :=
  [ ("requestId",
     field BasicResponse.RequestID (fun x _ => BasicResponse.Make x)
           json.store_string) ].

Definition errorResponseDetail_fields
  : list (string * json.store errorResponseDetail.t) :=
  [ ("message",
     field errorResponseDetail.Message
           (fun x d => errorResponseDetail.Make x (errorResponseDetail.Property d))
           json.store_string);
    ("property",
     field errorResponseDetail.Property
           (fun x d => errorResponseDetail.Make (errorResponseDetail.Message d) x)
           json.store_string) ].

Definition store_errorResponseDetail : json.store errorResponseDetail.t :=
  json.store_struct "linebot.errorResponseDetail" errorResponseDetail_fields.

(** While an [ErrorResponse] is decoded, the elements that the backing
    array of [Details] holds beyond its length are kept next to it. *)
Definition ErrorResponse_fields
  : list (string * json.store (ErrorResponse.t * list errorResponseDetail.t)) :=
  [ ("requestId",
     field (fun s => ErrorResponse.RequestID (fst s))
           (fun x s => (ErrorResponse.Make x (ErrorResponse.Message (fst s))
                          (ErrorResponse.Details (fst s)), snd s))
           json.store_string);
    ("message",
     field (fun s => ErrorResponse.Message (fst s))
           (fun x s => (ErrorResponse.Make (ErrorResponse.RequestID (fst s)) x
                          (ErrorResponse.Details (fst s)), snd s))
           json.store_string);
    ("details",
     field (fun s => (ErrorResponse.Details (fst s), snd s))
           (fun x s => (ErrorResponse.Make (ErrorResponse.RequestID (fst s))
                          (ErrorResponse.Message (fst s)) (fst x), snd x))
           (json.store_slice "[]linebot.errorResponseDetail"
              errorResponseDetail.zero store_errorResponseDetail)) ].

Definition UserProfileResponse_fields
  : list (string * json.store UserProfileResponse.t) :=
  let R := UserProfileResponse.RequestID in
  let U := UserProfileResponse.UserID in
  let D := UserProfileResponse.DisplayName in
  let P := UserProfileResponse.PicutureURL in
  let S := UserProfileResponse.StatusMessage in
  let Make := UserProfileResponse.Make in
  [ ("requestId",
     field R (fun x r => Make x (U r) (D r) (P r) (S r)) json.store_string);
    ("userId",
     field U (fun x r => Make (R r) x (D r) (P r) (S r)) json.store_string);
    ("displayName",
     field D (fun x r => Make (R r) (U r) x (P r) (S r)) json.store_string);
    ("pictureUrl",
     field P (fun x r => Make (R r) (U r) (D r) x (S r)) json.store_string);
    ("statusMessage",
     field S (fun x r => Make (R r) (U r) (D r) (P r) x) json.store_string) ].

(** How [Decode] stores a JSON value into a variable of each type. *)
Definition store_BasicResponse : json.store BasicResponse.t :=
  json.store_struct "linebot.BasicResponse" BasicResponse_fields.

Definition store_ErrorResponse : json.store ErrorResponse.t :=
  fun v result saved =>
    let (s, saved') :=
      json.store_struct "linebot.ErrorResponse" ErrorResponse_fields
        v (result, []) saved in
    (fst s, saved').

Definition store_UserProfileResponse : json.store UserProfileResponse.t :=
  json.store_struct "linebot.UserProfileResponse" UserProfileResponse_fields.

(** *** The decoders *)

Definition decodeToBasicResponse (res : http.Response)
  : io.IO (option BasicResponse.t * option error) :=
  let decoder := json.NewDecoder (http.Body res) in
  if negb (http.StatusCode res =? http.StatusOK)%Z then
    let result := ErrorResponse.zero in
    do '(result, err, _) <- json.Decode store_ErrorResponse decoder result;
    match err with
    | Some _ =>
      io.ret (None,
              Some (ptrAPIError {| APIError.Code := http.StatusCode res;
                                   APIError.Response := None |}))
    | None =>
      io.ret (None,
              Some (ptrAPIError {| APIError.Code := http.StatusCode res;
                                   APIError.Response := Some result |}))
    end
  else
    let result := BasicResponse.zero in
    do '(result, err, _) <- json.Decode store_BasicResponse decoder result;
    match err with
    | Some err => io.ret (None, Some err)
    | None => io.ret (Some result, None)
    end.

Definition decodeToUserProfileResponse (res : http.Response)
  : io.IO (option UserProfileResponse.t * option error) :=
  let decoder := json.NewDecoder (http.Body res) in
  if negb (http.StatusCode res =? http.StatusOK)%Z then
    let result := ErrorResponse.zero in
    do '(result, err, _) <- json.Decode store_ErrorResponse decoder result;
    match err with
    | Some _ =>
      io.ret (None,
              Some (ptrAPIError {| APIError.Code := http.StatusCode res;
                                   APIError.Response := None |}))
    | None =>
      io.ret (None,
              Some (ptrAPIError {| APIError.Code := http.StatusCode res;
                                   APIError.Response := Some result |}))
    end
  else
    let result := UserProfileResponse.zero in
    do '(result, err, _) <- json.Decode store_UserProfileResponse decoder result;
    match err with
    | Some err => io.ret (None, Some err)
    | None => io.ret (Some result, None)
    end.

Definition decodeToMessageContentResponse (res : http.Response)
  : io.IO (option MessageContentResponse.t * option error) :=
  let decoder := json.NewDecoder (http.Body res) in
  if negb (http.StatusCode res =? http.StatusOK)%Z then
    let result := ErrorResponse.zero in
    do '(result, err, _) <- json.Decode store_ErrorResponse decoder result;
    match err with
    | Some _ =>
      io.ret (None,
              Some (ptrAPIError {| APIError.Code := http.StatusCode res;
                                   APIError.Response := None |}))
    | None =>
      io.ret (None,
              Some (ptrAPIError {| APIError.Code := http.StatusCode res;
                                   APIError.Response := Some result |}))
    end
  else
    let '(_, params, err) :=
      mime.ParseMediaType
        (http.Get (http.Header res) "Content-Disposition") in
    match err with
    | Some err => io.ret (None, Some err)
    | None =>
      let result :=
        {| MessageContentResponse.Content := http.Body res;
           MessageContentResponse.FileName :=
             default "" (params !! "filename") |} in
      io.ret (Some result, None)
    end.

(** ** Messages and the push envelope

    [message.go] and the [Push] call of the client are not among the
    sources; what [TestPushMessages] sends is modelled from the spec and
    from the request bodies that the test expects.  How a [float64] is
    written as a JSON number is left to the parameter [FormatFloat]. *)
Section Messages.

Variable float64 : Type.
Variable FormatFloat : float64 -> string.

(** Modelled from the spec: the type [Message] of [message.go], which is
    missing.  "Message -- polymorphic value; variants: Text{text},
    Image{originalContentUrl, previewImageUrl}, Location{title, address,
    latitude, longitude}, Sticker{packageId, stickerId}". *)
Inductive Message : Type :=
| TextMessage (Text : string)
| ImageMessage (OriginalContentURL PreviewImageURL : string)
| LocationMessage (Title Address : string) (Latitude Longitude : float64)
| StickerMessage (PackageID StickerID : string).

(** Modelled from the spec: the constructors of [message.go], which are
    missing, as the tests call them.  "Constructing any variant never
    fails (no validation performed client-side)". *)
Definition NewTextMessage (content : string) : Message :=
  TextMessage content.

Definition NewImageMessage (originalContentURL previewImageURL : string)
  : Message := ImageMessage originalContentURL previewImageURL.

Definition NewLocationMessage (title address : string)
  (latitude longitude : float64) : Message :=
  LocationMessage title address latitude longitude.

Definition NewStickerMessage (packageID stickerID : string) : Message :=
  StickerMessage packageID stickerID.

(** Modelled from the spec: the discriminator of a variant, "a fixed
    [type] string literal naming the variant". *)
Definition MessageType (m : Message) : string :=
  match m with
  | TextMessage _ => "text"
  | ImageMessage _ _ => "image"
  | LocationMessage _ _ _ _ => "location"
  | StickerMessage _ _ => "sticker"
  end.

(** Modelled from the spec: the fields of a variant after the
    discriminator, "its own fields in a fixed, stable key order", with
    "the platform's exact casing"; the names and their order are those of
    the request bodies in [TestPushMessages]. *)
Definition messageFields (m : Message) : list (string * json.value) :=
  match m with
  | TextMessage text => [("text", json.JString text)]
  | ImageMessage original preview =>
    [("originalContentUrl", json.JString original);
     ("previewImageUrl", json.JString preview)]
  | LocationMessage title address latitude longitude =>
    [("title", json.JString title);
     ("address", json.JString address);
     ("latitude", json.JNumber (FormatFloat latitude));
     ("longitude", json.JNumber (FormatFloat longitude))]
  | StickerMessage package sticker =>
    [("packageId", json.JString package);
     ("stickerId", json.JString sticker)]
  end.

(** Modelled from the spec: the [MarshalJSON] methods of [message.go],
    which are missing.  "Each variant maps to a single flat JSON object;
    the [type] discriminator is always the first field". *)
Definition MarshalJSON (m : Message) : json.value :=
  json.JObject (("type", json.JString (MessageType m)) :: messageFields m).

(** Modelled from the spec: the envelope of a push, built by the missing
    [Push] call.  "Envelope -- either {to: UserID, messages: [Message]}
    (push) or ...; messages preserves caller-supplied order". *)
Definition pushEnvelope (to : string) (messages : list Message) : json.value :=
  json.JObject
    [("to", json.JString to);
     ("messages", json.JArray (map MarshalJSON messages))].

(** Modelled from the spec: the body of the request that the missing
    [Push] call sends: "one JSON object per request, UTF-8, trailing
    newline after the encoded body". *)
Definition pushBody (to : string) (messages : list Message) : string :=
  json.Encode (pushEnvelope to messages).

End Messages.

(** * Notions used in the statements *)

(** [&APIError{Code: code}] and [&APIError{Code: code, Response: &result}] *)
Definition newAPIError (code : Z) (response : option ErrorResponse.t) : error :=
  ptrAPIError {| APIError.Code := code; APIError.Response := response |}.

(** The branch for a status other than 200, which the three decoders
    spell out in the same words (lines 45-54, 66-75 and 87-96). *)
Definition decodeError {T} (res : http.Response) (decoder : json.Decoder)
  : io.IO (option T * option error) :=
  let result := ErrorResponse.zero in
  do '(result, err, _) <- json.Decode store_ErrorResponse decoder result;
  match err with
  | Some _ => io.ret (None, Some (newAPIError (http.StatusCode res) None))
  | None =>
    io.ret (None, Some (newAPIError (http.StatusCode res) (Some result)))
  end.

(** No error recorded so far is an [*APIError]. *)
Definition plain (saved : option error) : Prop :=
  forall e, saved = Some e -> isAPIError e = false.

(** A store that only ever records errors of [encoding/json]. *)
Definition plain_store {T} (st : json.store T) : Prop :=
  forall v old saved, plain saved -> plain (snd (st v old saved)).

(** The value a store writes does not depend on the errors recorded
    before. *)
Definition steady {T} (st : json.store T) : Prop :=
  forall v old s1 s2, fst (st v old s1) = fst (st v old s2).

(** What one item of the [details] array decodes to. *)
Definition detailOf (item : json.value) : errorResponseDetail.t :=
  fst (store_errorResponseDetail item errorResponseDetail.zero None).

(** Whether an object key selects the field [Details]. *)
Definition detailsKey (key : string) : bool :=
  match json.findField ErrorResponse_fields key with
  | Some f => String.eqb (fst f) "details"
  | None => false
  end.

(** What the error branch returns for a status [code]: no value, and an
    [APIError] carrying [code]. *)
Definition fromErrorBranch {T} (code : Z) (r : option T * option error) : Prop :=
  exists response, r = (None, Some (newAPIError code response)).

(** What a success branch returns: a value and no error, or no value and
    an error that is not an [*APIError]. *)
Definition fromSuccessBranch {T} (r : option T * option error) : Prop :=
  (exists result, r = (Some result, None))
  \/ (exists e, r = (None, Some e) /\ asAPIError e = None).

(** Texts joined by commas. *)
Fixpoint commas (l : list string) : string :=
  match l with
  | [] => ""
  | [x] => x
  | x :: l' => x +:+ "," +:+ commas l'
  end.

(** The bytes that a JSON string literal shows as they are. *)
Definition safeByte (c : ascii) : bool :=
  byte_in 0x20 0x7F c
  && negb (byte_is c "\" || byte_is c dq || byte_is c "<" || byte_is c ">"
           || byte_is c "&").

Fixpoint plainText (s : string) : bool :=
  match s with
  | EmptyString => true
  | String c s' => safeByte c && plainText s'
  end.

(** The names of the pieces of [key] with an index below [n], and how many
    entries of a map are not among them: the measure by which the loop
    over the pieces ends. *)
Fixpoint used (key : string) (n : nat) : gset string :=
  match n with
  | O => ∅
  | S i => {[ mime.simplePart key i; mime.encodedPart key i ]} ∪ used key i
  end.

Definition remaining (key : string) (m : gmap string string) (n : nat) : nat :=
  size (dom m ∖ used key n).

(** Responses used as examples: a response whose body is the only live
    stream, delivering the given chunks and then a clean end. *)
Definition body : io.ReadCloser := 1%positive.

Definition bodyHeap (chunks : list string) : io.heap :=
  {[ body := io.Stream chunks None false ]}.

Definition response (code : Z) (header : gmap string (list string))
  : http.Response :=
  {| http.StatusCode := code; http.Header := header; http.Body := body |}.

(** The "Bad request" case of [TestPushMessages]: the body the test server
    answers with, and the error the test expects. *)
Definition badRequestBody : string :=
  js "{'message':'Request body has 2 error(s).','details':[{'message':'may not be empty','property':'messages[0].text'},{'message':'may not be empty','property':'messages[1].text'}]}".

(** The JSON value that [badRequestBody] is the text of. *)
Definition badRequestValue : json.value :=
  json.JObject
    [("message", json.JString "Request body has 2 error(s).");
     ("details",
      json.JArray
        [json.JObject
           [("message", json.JString "may not be empty");
            ("property", json.JString "messages[0].text")];
         json.JObject
           [("message", json.JString "may not be empty");
            ("property", json.JString "messages[1].text")]])].

Definition badRequestResponse : ErrorResponse.t :=
  {| ErrorResponse.RequestID := "";
     ErrorResponse.Message := "Request body has 2 error(s).";
     ErrorResponse.Details :=
       Some [ {| errorResponseDetail.Message := "may not be empty";
                 errorResponseDetail.Property := "messages[0].text" |};
              {| errorResponseDetail.Message := "may not be empty";
                 errorResponseDetail.Property := "messages[1].text" |} ] |}.

(** An error body that gives [details] twice: first an array of two
    items, then an array of one item that has no [property]. *)
Definition detailsTwiceBody : string :=
  js "{'details':[{'message':'a','property':'p'},{'message':'c','property':'q'}],'details':[{'message':'b'}]}".

Definition detailsGivenFirst : list json.value :=
  [json.JObject [("message", json.JString "a"); ("property", json.JString "p")];
   json.JObject [("message", json.JString "c"); ("property", json.JString "q")]].

Definition detailsGivenSecond : list json.value :=
  [json.JObject [("message", json.JString "b")]].

(** The JSON value that [detailsTwiceBody] is the text of. *)
Definition detailsTwiceValue : json.value :=
  json.JObject [("details", json.JArray detailsGivenFirst);
                ("details", json.JArray detailsGivenSecond)].

(** What [detailsTwiceBody] decodes to: the one item of the second array,
    stored into the first element that the first array left. *)
Definition detailsTwiceResponse : ErrorResponse.t :=
  {| ErrorResponse.RequestID := "";
     ErrorResponse.Message := "";
     ErrorResponse.Details :=
       Some [ {| errorResponseDetail.Message := "b";
                 errorResponseDetail.Property := "p" |} ] |}.

(** A content response with the given [Content-Disposition] header. *)
Definition contentResponse (disposition : string) : http.Response :=
  response 200 {[ "Content-Disposition" := [disposition] ]}.

(** A caller that decodes a content response and then reads the content
    to its end. *)
Definition readContent (res : http.Response) : io.IO (string * option error) :=
  do r <- decodeToMessageContentResponse res;
  match fst r with
  | Some result => io.ReadAll (MessageContentResponse.Content result)
  | None => io.ret ("", snd r)
  end.

(** ** Notions used in the further properties *)

(** What [readValue] makes of a body that is read from its start, told
    from all the bytes the body holds and from the way it ends: the first
    JSON value, or the error. *)
Definition firstValue (b : string) (failure : option string)
  : json.value + error :=
  match json.scan b with
  | json.Value v _ => inl v
  | json.Malformed => inr SyntaxError
  | json.NeedMore =>
    match failure with
    | Some msg => inr (TransportError msg)
    | None =>
      match json.scan (b +:+ " ") with
      | json.Value v _ => inl v
      | _ => inr (if json.nonSpace b then io.ErrUnexpectedEOF else io.EOF)
      end
    end
  end.

(** What [Decode] leaves in [target] and returns as its error. *)
Definition decoded {T} (into : json.store T) (target : T)
  (first : json.value + error) : T * option error :=
  match first with
  | inl v => into v target None
  | inr e => (target, Some e)
  end.

(** The two [return] statements after a [Decode] in a success branch:
    [return nil, err] and [return &result, nil]. *)
Definition returned {T} (d : T * option error) : option T * option error :=
  match snd d with
  | Some e => (None, Some e)
  | None => (Some (fst d), None)
  end.

(** The two [return] statements of the error branch:
    [return nil, &APIError{Code: code}] and
    [return nil, &APIError{Code: code, Response: &result}]. *)
Definition refused {T} (code : Z) (d : ErrorResponse.t * option error)
  : option T * option error :=
  (None,
   Some (newAPIError code
           (match snd d with
            | Some _ => None
            | None => Some (fst d)
            end))).

(** The heap [after] differs from the heap [before] at most in that the
    stream [r] has delivered some of its first chunks: no other stream
    has changed, no stream has appeared or gone, and [r] is neither
    closed nor reopened. *)
Definition onlyRead (r : io.ReadCloser) (before after : io.heap) : Prop :=
  (forall r', r' <> r -> after !! r' = before !! r')
  /\ match before !! r with
     | None => after !! r = None
     | Some s =>
       exists s' read,
         after !! r = Some s' /\ io.closed s' = io.closed s
         /\ io.failure s' = io.failure s
         /\ io.chunks s = (read ++ io.chunks s')%list
     end.

(** Whether an object key selects the field with the JSON name [name]:
    the field [json.findField] finds for the key is that one. *)
Definition selects {F} (fields : list (string * F)) (name key : string) : bool :=
  match json.findField fields key with
  | Some f => String.eqb (fst f) name
  | None => false
  end.

(** What the member [m] of an object makes of a string field called
    [name] that holds [old]: a member that selects the field and holds a
    string replaces it. *)
Definition memberString {F} (fields : list (string * F)) (name : string)
  (old : string) (m : string * json.value) : string :=
  if selects fields name (fst m)
  then match snd m with
       | json.JString s => s
       | _ => old
       end
  else old.

(** The string of the last member of [ms] that selects the field [name]
    and holds a string; the empty string if there is none. *)
Definition lastString {F} (fields : list (string * F)) (name : string)
  (ms : list (string * json.value)) : string :=
  fold_left (memberString fields name) ms "".

(** A member that can be stored into a struct whose fields are all
    strings: its key selects no field, or it holds a string or [null]. *)
Definition fitsString {F} (fields : list (string * F))
  (m : string * json.value) : bool :=
  match json.findField fields (fst m), snd m with
  | None, _ => true
  | Some _, (json.JString _ | json.JNull) => true
  | Some _, _ => false
  end.

Definition unknownKey {F} (fields : list (string * F))
  (m : string * json.value) : bool :=
  match json.findField fields (fst m) with
  | None => true
  | Some _ => false
  end.

(** A JSON value that has nothing for a struct with the given fields:
    [null], or an object none of whose keys selects a field. *)
Definition carriesNothing {F} (fields : list (string * F)) (v : json.value)
  : bool :=
  match v with
  | json.JNull => true
  | json.JObject ms => forallb (unknownKey fields) ms
  | _ => false
  end.

(** The JSON values that a struct accepts: objects and [null]. *)
Definition structLike (v : json.value) : bool :=
  match v with
  | json.JNull | json.JObject _ => true
  | _ => false
  end.

(** All fields of a struct are of type [string]. *)
Definition stringFields {S} (fields : list (string * json.store S)) : Prop :=
  Forall (fun f => exists get set, snd f = field get set json.store_string)
         fields.

(** A text of token characters only ([mime.isTokenChar]). *)
Fixpoint isToken (s : string) : bool :=
  match s with
  | EmptyString => true
  | String c s' => mime.isTokenChar c && isToken s'
  end.

(** A text that can stand between double quotes as it is: it has no
    double quote, no backslash and no line break. *)
Fixpoint quotable (s : string) : bool :=
  match s with
  | EmptyString => true
  | String c s' =>
    negb (byte_is c dq || byte_is c "\" || byte_is c (ascii_of_N 13)
          || byte_is c (ascii_of_N 10))
    && quotable s'
  end.

(** A text of ASCII bytes only. *)
Fixpoint isASCII (s : string) : bool :=
  match s with
  | EmptyString => true
  | String c s' => byte_in 0 0x7F c && isASCII s'
  end.

(** The bytes of [s] put one by one in front of [raw], as the scanner
    collects the bytes of a string literal. *)
Fixpoint pushed (s : string) (raw : list ascii) : list ascii :=
  match s with
  | EmptyString => raw
  | String c s' => pushed s' (c :: raw)
  end.

(** * Properties *)

(** ** Strings *)

Lemma str_app_assoc (a b c : string) : (a +:+ b) +:+ c = a +:+ (b +:+ c).
Proof.
  induction a as [|x a IH]; [reflexivity|].
  change (String x ((a +:+ b) +:+ c) = String x (a +:+ (b +:+ c))).
  f_equal. exact IH.
Qed.

Lemma str_app_nil_r (a : string) : a +:+ "" = a.
Proof.
  induction a as [|x a IH]; [reflexivity|].
  change (String x (a +:+ "") = String x a). f_equal. exact IH.
Qed.

Lemma str_app_inj_l (a b c : string) : a +:+ b = a +:+ c -> b = c.
Proof.
  induction a as [|x a IH]; [exact (fun H => H)|].
  change (String x (a +:+ b) = String x (a +:+ c) -> b = c).
  intros [= H]. exact (IH H).
Qed.

Lemma star_inj (a b : string) : a +:+ "*" = b +:+ "*" -> a = b.
Proof.
  revert b. induction a as [|x a IH]; intros [|y b].
  - reflexivity.
  - change ("*" = String y (b +:+ "*") -> "" = String y b).
    intros [= _ H]. destruct b; discriminate H.
  - change (String x (a +:+ "*") = "*" -> String x a = "").
    intros [= _ H]. destruct a; discriminate H.
  - change (String x (a +:+ "*") = String y (b +:+ "*")
            -> String x a = String y b).
    intros [= -> H]. f_equal. exact (IH b H).
Qed.

(** ** The stream behind a body *)

(** A [Read] on an open stream takes the first chunk, which is what the
    decoder's bookkeeping [json.consumed] records. *)
Lemma Read_chunk (r : io.ReadCloser) (h : io.heap) c chunks failure :
  h !! r = Some (io.Stream (c :: chunks) failure false) ->
  io.Read r h = ((c, None), json.consumed r chunks h).
Proof.
  intros Hr. unfold io.Read, json.consumed. rewrite Hr. reflexivity.
Qed.

(** When no chunk is left to deliver, a [Read] gives the error that the
    decoder takes for the end of the stream. *)
Lemma Read_end (r : io.ReadCloser) (h : io.heap) :
  fst (json.pending h r) = [] ->
  io.Read r h = (("", Some (snd (json.pending h r))), h).
Proof.
  unfold json.pending, io.Read. destruct (h !! r) as [s|]; [|reflexivity].
  destruct (io.closed s); [reflexivity|].
  cbn [fst snd]. intros ->. reflexivity.
Qed.

(** Once closed, a body cannot be read any more. *)
Lemma Close_then_ReadAll (r : io.ReadCloser) (h : io.heap) s :
  h !! r = Some s ->
  fst (io.ReadAll r (snd (io.Close r h))) = ("", Some io.errReadOnClosedResBody).
Proof.
  intros Hr. unfold io.Close, io.ReadAll. rewrite Hr. cbn [snd].
  rewrite lookup_insert_eq. reflexivity.
Qed.

(** ** The loops of [mime.ParseMediaType] end within their bounds *)

Lemma trimLeftFrom_length skip s :
  String.length (gostrings.trimLeftFrom skip s) <= String.length s.
Proof.
  revert skip. induction s as [|c s IH]; intros skip; [simpl; lia|].
  destruct skip as [|k].
  - cbn [gostrings.trimLeftFrom].
    destruct (utf8.DecodeRune (String c s)) as [r size].
    destruct (gostrings.IsSpace r); [|lia].
    specialize (IH (size - 1)%nat). simpl. lia.
  - cbn [gostrings.trimLeftFrom]. specialize (IH k). simpl. lia.
Qed.

Lemma consumeToken_length v :
  String.length (snd (mime.consumeToken v)) <= String.length v.
Proof.
  induction v as [|c v IH]; [simpl; lia|].
  cbn [mime.consumeToken]. destruct (mime.isTokenChar c); [|simpl; lia].
  destruct (mime.consumeToken v) as [token rest]. simpl in *. lia.
Qed.

Lemma quoted_length n : forall s text rest,
  String.length s <= n ->
  mime.quoted s = Some (text, rest) -> String.length rest < String.length s.
Proof.
  induction n as [|n IH]; intros s text rest Hn.
  - destruct s; [discriminate|simpl in Hn; lia].
  - destruct s as [|c s]; [discriminate|].
    cbn [mime.quoted]. simpl in Hn.
    assert (Hmore : forall text rest,
               match mime.quoted s with
               | Some (text, rest) => Some (String c text, rest)
               | None => None
               end = Some (text, rest) ->
               String.length rest < String.length (String c s)).
    { intros t r. destruct (mime.quoted s) as [[t0 r0]|] eqn:Hq; [|discriminate].
      intros [= _ <-]. apply IH in Hq; [simpl; lia|lia]. }
    destruct (byte_is c dq); [intros [= _ <-]; simpl; lia|].
    destruct (byte_is c "\").
    + destruct s as [|d s']; [discriminate|].
      destruct (mime.isTSpecial d); [|apply Hmore].
      destruct (mime.quoted s') as [[t0 r0]|] eqn:Hq; [|discriminate].
      intros [= _ <-]. apply IH in Hq; [simpl; lia|simpl in Hn; lia].
    + destruct (_ || _); [discriminate|apply Hmore].
Qed.

Lemma consumeValue_length v :
  String.length (snd (mime.consumeValue v)) <= String.length v.
Proof.
  destruct v as [|c v]; [simpl; lia|].
  unfold mime.consumeValue. destruct (byte_is c dq).
  - destruct (mime.quoted v) as [[text rest]|] eqn:Hq; [|simpl; lia].
    apply (quoted_length (String.length v)) in Hq; [simpl; lia|lia].
  - apply consumeToken_length.
Qed.

(** Every parameter takes at least its semicolon from the input. *)
Lemma consumeMediaParam_length v key value rest :
  mime.consumeMediaParam v = Some (key, value, rest) ->
  String.length rest < String.length v.
Proof.
  unfold mime.consumeMediaParam, gostrings.TrimLeftSpace.
  pose proof (trimLeftFrom_length 0 v) as H0.
  destruct (gostrings.trimLeftFrom 0 v) as [|semi rest1]; [discriminate|].
  destruct (byte_is semi ";"); [|discriminate].
  pose proof (trimLeftFrom_length 0 rest1) as H1.
  pose proof (consumeToken_length (gostrings.trimLeftFrom 0 rest1)) as H2.
  destruct (mime.consumeToken (gostrings.trimLeftFrom 0 rest1)) as [param rest2].
  destruct param as [|p0 param]; [discriminate|].
  pose proof (trimLeftFrom_length 0 rest2) as H3.
  destruct (gostrings.trimLeftFrom 0 rest2) as [|eq rest3]; [discriminate|].
  destruct (byte_is eq "="); [|discriminate].
  pose proof (trimLeftFrom_length 0 rest3) as H4.
  pose proof (consumeValue_length (gostrings.trimLeftFrom 0 rest3)) as H5.
  destruct (mime.consumeValue (gostrings.trimLeftFrom 0 rest3)) as [value0 rest5].
  destruct (_ && _); [discriminate|].
  intros [= _ _ <-]. simpl in *. lia.
Qed.

(** The loop over the parameters never uses up a bound above the length
    of its input. *)
Lemma parseParams_fuel fuel : forall v params continuation,
  String.length v < fuel ->
  mime.parseParams fuel v params continuation <> None.
Proof.
  induction fuel as [|fuel IH]; intros v params continuation Hfuel; [lia|].
  cbn [mime.parseParams].
  pose proof (trimLeftFrom_length 0 v) as H0.
  fold (gostrings.TrimLeftSpace v) in H0.
  destruct (gostrings.TrimLeftSpace v) as [|c v'] eqn:Hv; [discriminate|].
  destruct (mime.consumeMediaParam (String c v')) as [[[key value] rest]|] eqn:Hp.
  - apply consumeMediaParam_length in Hp.
    destruct (gostrings.Cut "*" key) as [[baseName ?]|].
    + destruct (mime.clash _ key value); [discriminate|]. apply IH. lia.
    + destruct (mime.clash _ key value); [discriminate|]. apply IH. lia.
  - destruct (String.eqb _ ";"); discriminate.
Qed.

(** In [mime.ParseMediaType] the loop is run with a bound it cannot
    use up. *)
Lemma parseParams_bound rest :
  mime.parseParams (S (String.length rest)) rest ∅ ∅ <> None.
Proof. apply parseParams_fuel. lia. Qed.

Lemma decimal_inj n m : mime.decimal n = mime.decimal m -> n = m.
Proof.
  unfold mime.decimal. intros H.
  apply DecimalNat.Unsigned.to_uint_inj.
  assert (Hs : forall d,
             NilZero.uint_of_string (NilZero.string_of_uint (Nat.to_uint d))
             = Some (Nat.to_uint d)).
  { intros d. apply NilZero.usu. intros Hd.
    pose proof (DecimalNat.Unsigned.of_to d) as Ho. rewrite Hd in Ho.
    destruct d; [|discriminate Ho]. discriminate Hd. }
  pose proof (Hs n) as Hn. rewrite H, Hs in Hn. congruence.
Qed.

Lemma digits_star s : NilEmpty.uint_of_string (s +:+ "*") = None.
Proof.
  induction s as [|c s IH]; [reflexivity|].
  change (uint_of_char c (NilEmpty.uint_of_string (s +:+ "*")) = None).
  rewrite IH. reflexivity.
Qed.

Lemma decimal_star n m : mime.decimal n <> mime.decimal m +:+ "*".
Proof.
  intros H.
  assert (Hn : NilEmpty.uint_of_string (mime.decimal n) <> None).
  { unfold mime.decimal, NilZero.string_of_uint.
    destruct (Nat.to_uint n); rewrite ?NilEmpty.usu; discriminate. }
  rewrite H, digits_star in Hn. contradiction.
Qed.

Lemma simplePart_inj key n m :
  mime.simplePart key n = mime.simplePart key m -> n = m.
Proof.
  unfold mime.simplePart. intros H.
  apply str_app_inj_l, str_app_inj_l in H. exact (decimal_inj n m H).
Qed.

Lemma encodedPart_inj key n m :
  mime.encodedPart key n = mime.encodedPart key m -> n = m.
Proof.
  unfold mime.encodedPart. intros H. apply star_inj in H.
  exact (simplePart_inj key n m H).
Qed.

Lemma simple_not_encoded key n m :
  mime.simplePart key n <> mime.encodedPart key m.
Proof.
  unfold mime.encodedPart, mime.simplePart. rewrite !str_app_assoc. intros H.
  apply str_app_inj_l, str_app_inj_l in H. exact (decimal_star n m H).
Qed.

(** The names of the [n]-th piece are none of the names of the pieces
    before it. *)
Lemma parts_fresh key n k :
  k <= n ->
  (mime.simplePart key n ∉ used key k) /\ (mime.encodedPart key n ∉ used key k).
Proof.
  induction k as [|i IH]; intros Hk;
    [split; apply not_elem_of_empty|].
  destruct IH as [IH1 IH2]; [lia|].
  assert (n <> i) by lia.
  split; cbn [used]; rewrite !elem_of_union, !elem_of_singleton;
    intros [[Heq|Heq]|Hin]; try contradiction.
  - apply simplePart_inj in Heq. contradiction.
  - exact (simple_not_encoded key n i Heq).
  - symmetry in Heq. exact (simple_not_encoded key i n Heq).
  - apply encodedPart_inj in Heq. contradiction.
Qed.

(** Every piece that is found leaves fewer entries for later pieces. *)
Lemma remaining_step key (m : gmap string string) n k :
  k = mime.simplePart key n \/ k = mime.encodedPart key n ->
  is_Some (m !! k) ->
  remaining key m (S n) < remaining key m n.
Proof.
  intros Hk Hm. unfold remaining. apply subset_size.
  apply elem_of_dom in Hm.
  destruct (parts_fresh key n n (le_n n)) as [H1 H2].
  assert (Hfresh : k ∉ used key n) by (destruct Hk as [->| ->]; assumption).
  assert (Hused : k ∈ used key (S n)).
  { cbn [used]. rewrite !elem_of_union, !elem_of_singleton. tauto. }
  split.
  - intros x. rewrite !elem_of_difference. cbn [used]. rewrite elem_of_union.
    tauto.
  - intros Hsub. specialize (Hsub k). rewrite !elem_of_difference in Hsub.
    destruct Hsub as [_ Hn]; [split; assumption|]. exact (Hn Hused).
Qed.

Lemma pieces_fuel key (m : gmap string string) f1 : forall f2 n,
  remaining key m n < f1 -> remaining key m n < f2 ->
  mime.pieces f1 n key m = mime.pieces f2 n key m.
Proof.
  induction f1 as [|f1 IH]; intros f2 n H1 H2; [lia|].
  destruct f2 as [|f2]; [lia|].
  cbn [mime.pieces].
  destruct (m !! mime.simplePart key n) as [v|] eqn:Hs.
  - rewrite (IH f2 (S n)); [reflexivity| |];
      pose proof (remaining_step key m n _ (or_introl eq_refl)
                    (mk_is_Some _ _ Hs)); lia.
  - destruct (m !! mime.encodedPart key n) as [v|] eqn:He; [|reflexivity].
    rewrite (IH f2 (S n)); [reflexivity| |];
      pose proof (remaining_step key m n _ (or_intror eq_refl)
                    (mk_is_Some _ _ He)); lia.
Qed.

(** The loop over the pieces gives the same with every bound above the
    size of the map: the bound it is run with is never what stops it. *)
Lemma pieces_enough key (m : gmap string string) fuel :
  size m < fuel ->
  mime.pieces fuel 0 key m = mime.pieces (S (size m)) 0 key m.
Proof.
  intros Hfuel.
  assert (remaining key m 0 = size m) as Hr.
  { unfold remaining. cbn [used]. rewrite difference_empty_L. apply size_dom. }
  apply pieces_fuel; lia.
Qed.

(** ** Errors of the runtime are never an [APIError] *)

Lemma plain_None : plain None.
Proof. intros e H. discriminate H. Qed.

Lemma plain_saveError saved value goType :
  plain saved -> plain (json.saveError saved (UnmarshalTypeError value goType)).
Proof.
  intros Hs. destruct saved as [e0|]; simpl; [exact Hs|].
  intros e He. injection He as <-. reflexivity.
Qed.

Lemma plain_store_string : plain_store json.store_string.
Proof.
  intros v old saved Hs.
  destruct v; simpl; first [exact Hs | apply plain_saveError; exact Hs].
Qed.

Lemma plain_field {S A} (get : S -> A) (set : A -> S -> S) (st : json.store A) :
  plain_store st -> plain_store (field get set st).
Proof.
  intros Hst v s saved Hs. unfold field.
  specialize (Hst v (get s) saved Hs).
  destruct (st v (get s) saved) as [x saved']. exact Hst.
Qed.

Lemma findField_In {F} (fields : list (string * F)) key f :
  json.findField fields key = Some f -> In f fields.
Proof.
  unfold json.findField.
  destruct (List.find _ fields) as [f0|] eqn:Hexact.
  - intros [= <-]. apply find_some in Hexact. tauto.
  - intros Hfold. apply find_some in Hfold. tauto.
Qed.

Lemma plain_member {S} (fields : list (string * json.store S)) acc m :
  Forall (fun f => plain_store (snd f)) fields ->
  plain (snd acc) -> plain (snd (json.member fields acc m)).
Proof.
  intros Hfields Hacc. unfold json.member.
  destruct (json.findField fields (fst m)) as [f|] eqn:Hf; [|exact Hacc].
  apply findField_In in Hf.
  rewrite List.Forall_forall in Hfields. apply (Hfields f Hf). exact Hacc.
Qed.

Lemma plain_members {S} (fields : list (string * json.store S)) ms acc :
  Forall (fun f => plain_store (snd f)) fields ->
  plain (snd acc) -> plain (snd (fold_left (json.member fields) ms acc)).
Proof.
  intros Hfields. revert acc.
  induction ms as [|m ms IH]; intros acc Hacc; simpl; [exact Hacc|].
  apply IH. apply plain_member; assumption.
Qed.

Lemma plain_store_struct {S} goType (fields : list (string * json.store S)) :
  Forall (fun f => plain_store (snd f)) fields ->
  plain_store (json.store_struct goType fields).
Proof.
  intros Hfields v old saved Hs.
  destruct v; simpl;
    first [exact Hs | apply plain_saveError; exact Hs | idtac].
  apply plain_members; assumption.
Qed.

Create HintDb stores.
#[local] Hint Resolve plain_store_string plain_field : stores.

(** Goes through a table of fields, one entry at a time. *)
Ltac each_field := repeat constructor; cbn [snd]; auto with stores.

Lemma plain_store_BasicResponse : plain_store store_BasicResponse.
Proof. apply plain_store_struct. each_field. Qed.

Lemma plain_store_UserProfileResponse : plain_store store_UserProfileResponse.
Proof. apply plain_store_struct. each_field. Qed.

(** The end of a stream is an [io.EOF] or a transport error. *)
Lemma pending_plain h r chunks ending :
  json.pending h r = (chunks, ending) -> isAPIError ending = false.
Proof.
  unfold json.pending, io.ending.
  destruct (h !! r) as [s|]; [|intros [= <- <-]; reflexivity].
  destruct (io.closed s); [intros [= <- <-]; reflexivity|].
  destruct (io.failure s); intros [= <- <-]; reflexivity.
Qed.

(** A fresh decoder fails to read a value only with an error of
    [encoding/json], of [io] or of the transport. *)
Lemma readValue_plain r h e dec' h' :
  json.readValue (json.NewDecoder r) h = (inr (e, dec'), h') ->
  isAPIError e = false.
Proof.
  unfold json.readValue. simpl.
  destruct (json.pending h r) as [chunks ending] eqn:Hp.
  apply pending_plain in Hp.
  destruct (json.refill "" chunks) as [v rest unread|b unread|b].
  - discriminate.
  - intros [= <- _ _]. reflexivity.
  - destruct (json.error_is ending io.EOF).
    + destruct (json.scan (b +:+ " ")); [discriminate| |];
        intros [= <- _ _]; destruct (json.nonSpace b); reflexivity.
    + intros [= <- _ _]. exact Hp.
Qed.

(** [Decode] on a fresh decoder, with a store that records only errors of
    [encoding/json], never returns an [*APIError]. *)
Lemma Decode_plain {T} (into : json.store T) r target h result e dec' h' :
  plain_store into ->
  json.Decode into (json.NewDecoder r) target h = ((result, Some e, dec'), h') ->
  isAPIError e = false.
Proof.
  intros Hinto. unfold json.Decode, io.bind.
  destruct (json.readValue (json.NewDecoder r) h) as [[[v d]|[e0 d]] h0] eqn:Hr.
  - pose proof (Hinto v target None plain_None) as Hp.
    destruct (into v target None) as [t' e'].
    unfold io.ret. intros [= _ -> _ _]. apply Hp. reflexivity.
  - unfold io.ret. intros [= _ <- _ _]. eapply readValue_plain. exact Hr.
Qed.

(** [mime.ParseMediaType] fails only with errors made by [errors.New]. *)
Lemma ParseMediaType_plain v mediatype params e :
  mime.ParseMediaType v = (mediatype, params, Some e) ->
  isAPIError e = false.
Proof.
  unfold mime.ParseMediaType.
  destruct (match gostrings.Cut ";" v with
            | Some (base, _) => (base, str_drop (String.length base) v)
            | None => (v, "")
            end) as [base rest].
  destruct (mime.checkMediaTypeDisposition _) as [e0|] eqn:Hc.
  - intros [= _ _ <-].
    unfold mime.checkMediaTypeDisposition in Hc.
    destruct (mime.consumeToken _) as [typ rest0].
    destruct typ; [injection Hc as <-; reflexivity|].
    destruct rest0 as [|slash rest1]; [discriminate|].
    destruct (byte_is slash "/"); [|injection Hc as <-; reflexivity].
    destruct (mime.consumeToken rest1) as [subtype rest2].
    destruct subtype; [injection Hc as <-; reflexivity|].
    destruct rest2; [discriminate|injection Hc as <-; reflexivity].
  - destruct (mime.parseParams _ rest ∅ ∅) as [[params0 cont| |]|];
      [discriminate | | |]; intros [= _ _ <-]; reflexivity.
Qed.

Lemma plain_elements {A} (zero : A) (elem : json.store A) items pool saved :
  plain_store elem -> plain saved ->
  plain (snd (json.elements zero elem items pool saved)).
Proof.
  intros Helem. revert pool saved.
  induction items as [|item items IH]; intros pool saved Hs; simpl; [exact Hs|].
  pose proof (Helem item (hd zero pool) saved Hs) as H1.
  destruct (elem item (hd zero pool) saved) as [x saved1].
  pose proof (IH (tl pool) saved1 H1) as H2.
  destruct (json.elements zero elem items (tl pool) saved1) as [xs saved2].
  exact H2.
Qed.

Lemma plain_store_slice {A} goType (zero : A) (elem : json.store A) :
  plain_store elem -> plain_store (json.store_slice goType zero elem).
Proof.
  intros Helem v old saved Hs.
  destruct v as [| | | |items|];
    try (simpl; first [exact Hs | apply plain_saveError; exact Hs]).
  destruct items as [|item items]; [exact Hs|].
  unfold json.store_slice.
  pose proof (plain_elements zero elem (item :: items)
                (default [] (fst old) ++ snd old)%list saved Helem Hs) as H.
  destruct (json.elements zero elem (item :: items) _ saved) as [xs saved'].
  exact H.
Qed.

Lemma plain_store_errorResponseDetail : plain_store store_errorResponseDetail.
Proof. apply plain_store_struct. each_field. Qed.

Lemma plain_store_ErrorResponse : plain_store store_ErrorResponse.
Proof.
  intros v result saved Hs. unfold store_ErrorResponse.
  assert (Hf : plain_store
                 (json.store_struct "linebot.ErrorResponse" ErrorResponse_fields)).
  { apply plain_store_struct. each_field.
    apply plain_field, plain_store_slice, plain_store_errorResponseDetail. }
  specialize (Hf v (result, []) saved Hs).
  destruct (json.store_struct _ _ v (result, []) saved) as [s saved'].
  exact Hf.
Qed.

(** ** The two branches of the decoders *)

Lemma status_not_OK (res : http.Response) :
  http.StatusCode res <> http.StatusOK ->
  negb (http.StatusCode res =? http.StatusOK)%Z = true.
Proof. intros H. apply negb_true_iff, Z.eqb_neq. exact H. Qed.

Lemma status_OK (res : http.Response) :
  http.StatusCode res = http.StatusOK ->
  negb (http.StatusCode res =? http.StatusOK)%Z = false.
Proof. intros H. apply negb_false_iff, Z.eqb_eq. exact H. Qed.

(** The error branch returns an [APIError] with the status code; it holds
    the decoded [ErrorResponse] exactly when [Decode] gave no error. *)
Lemma decodeError_eq {T} res dec h result err dec' h' :
  json.Decode store_ErrorResponse dec ErrorResponse.zero h
    = ((result, err, dec'), h') ->
  @decodeError T res dec h
    = ((None,
        Some (newAPIError (http.StatusCode res)
                (match err with Some _ => None | None => Some result end))),
       h').
Proof.
  intros HD. unfold decodeError, io.bind. rewrite HD.
  destruct err; reflexivity.
Qed.

Lemma decodeToBasicResponse_error res :
  http.StatusCode res <> http.StatusOK ->
  decodeToBasicResponse res = decodeError res (json.NewDecoder (http.Body res)).
Proof. intros H. unfold decodeToBasicResponse. rewrite status_not_OK; auto. Qed.

Lemma decodeToUserProfileResponse_error res :
  http.StatusCode res <> http.StatusOK ->
  decodeToUserProfileResponse res
    = decodeError res (json.NewDecoder (http.Body res)).
Proof.
  intros H. unfold decodeToUserProfileResponse. rewrite status_not_OK; auto.
Qed.

Lemma decodeToMessageContentResponse_error res :
  http.StatusCode res <> http.StatusOK ->
  decodeToMessageContentResponse res
    = decodeError res (json.NewDecoder (http.Body res)).
Proof.
  intros H. unfold decodeToMessageContentResponse. rewrite status_not_OK; auto.
Qed.

(** With status 200 the two JSON decoders return what [Decode] gives. *)
Lemma decodeToBasicResponse_OK res h result err dec' h' :
  http.StatusCode res = http.StatusOK ->
  json.Decode store_BasicResponse (json.NewDecoder (http.Body res))
    BasicResponse.zero h = ((result, err, dec'), h') ->
  decodeToBasicResponse res h
    = ((match err with Some _ => None | None => Some result end, err), h').
Proof.
  intros Hs HD. unfold decodeToBasicResponse, io.bind.
  rewrite status_OK by exact Hs. rewrite HD. destruct err; reflexivity.
Qed.

Lemma decodeToUserProfileResponse_OK res h result err dec' h' :
  http.StatusCode res = http.StatusOK ->
  json.Decode store_UserProfileResponse (json.NewDecoder (http.Body res))
    UserProfileResponse.zero h = ((result, err, dec'), h') ->
  decodeToUserProfileResponse res h
    = ((match err with Some _ => None | None => Some result end, err), h').
Proof.
  intros Hs HD. unfold decodeToUserProfileResponse, io.bind.
  rewrite status_OK by exact Hs. rewrite HD. destruct err; reflexivity.
Qed.

(** With status 200 the content decoder returns what [ParseMediaType]
    gives for the [Content-Disposition] header, and leaves the heap of
    streams as it is. *)
Lemma decodeToMessageContentResponse_OK res h mediatype params err :
  http.StatusCode res = http.StatusOK ->
  mime.ParseMediaType (http.Get (http.Header res) "Content-Disposition")
    = (mediatype, params, err) ->
  decodeToMessageContentResponse res h
    = ((match err with
        | Some _ => None
        | None =>
          Some {| MessageContentResponse.Content := http.Body res;
                  MessageContentResponse.FileName :=
                    default "" (params !! "filename") |}
        end, err), h).
Proof.
  intros Hs HP. unfold decodeToMessageContentResponse.
  rewrite status_OK by exact Hs. rewrite HP. destruct err; reflexivity.
Qed.

(** ** [Details] follows the order of the body *)

Lemma steady_store_string : steady json.store_string.
Proof. intros v old s1 s2. destruct v; reflexivity. Qed.

Lemma steady_field {S A} (get : S -> A) (set : A -> S -> S) (st : json.store A) :
  steady st -> steady (field get set st).
Proof.
  intros Hst v s s1 s2. unfold field.
  specialize (Hst v (get s) s1 s2).
  destruct (st v (get s) s1), (st v (get s) s2). simpl in *. congruence.
Qed.

Lemma steady_members {S} (fields : list (string * json.store S)) ms old s1 s2 :
  Forall (fun f => steady (snd f)) fields ->
  fst (fold_left (json.member fields) ms (old, s1))
  = fst (fold_left (json.member fields) ms (old, s2)).
Proof.
  intros Hfields. revert old s1 s2.
  induction ms as [|m ms IH]; intros old s1 s2; simpl; [reflexivity|].
  unfold json.member at 2 4. simpl.
  destruct (json.findField fields (fst m)) as [f|] eqn:Hf; [|apply IH].
  apply findField_In in Hf. rewrite List.Forall_forall in Hfields.
  pose proof (Hfields f Hf (snd m) old s1 s2) as Heq.
  destruct (snd f (snd m) old s1) as [x1 e1], (snd f (snd m) old s2) as [x2 e2].
  simpl in Heq. subst x2. apply IH.
Qed.

Lemma steady_store_struct {S} goType (fields : list (string * json.store S)) :
  Forall (fun f => steady (snd f)) fields ->
  steady (json.store_struct goType fields).
Proof.
  intros Hfields v old s1 s2. destruct v; try reflexivity.
  simpl. apply steady_members. exact Hfields.
Qed.

#[local] Hint Resolve steady_store_string steady_field : stores.

Lemma steady_store_errorResponseDetail : steady store_errorResponseDetail.
Proof. apply steady_store_struct. each_field. Qed.

(** Decoded into a slice that holds nothing, the items of an array give
    its elements one for one, in the same order. *)
Lemma elements_fresh items saved :
  fst (json.elements errorResponseDetail.zero store_errorResponseDetail
         items [] saved)
  = map detailOf items.
Proof.
  revert saved. induction items as [|item items IH]; intros saved; [reflexivity|].
  simpl.
  pose proof (steady_store_errorResponseDetail item errorResponseDetail.zero
                saved None) as Hx.
  destruct (store_errorResponseDetail item errorResponseDetail.zero saved)
    as [x saved1].
  specialize (IH saved1).
  destruct (json.elements _ _ items [] saved1) as [xs saved2].
  cbn [fst snd] in *. subst. reflexivity.
Qed.

(** A member whose key does not select [Details] leaves the slice and
    its backing array alone. *)
Lemma member_keeps_Details acc m :
  detailsKey (fst m) = false ->
  ErrorResponse.Details (fst (fst (json.member ErrorResponse_fields acc m)))
  = ErrorResponse.Details (fst (fst acc))
  /\ snd (fst (json.member ErrorResponse_fields acc m)) = snd (fst acc).
Proof.
  unfold detailsKey, json.member.
  destruct (json.findField ErrorResponse_fields (fst m)) as [f|] eqn:Hf;
    [|intros _; split; reflexivity].
  apply findField_In in Hf. simpl in Hf.
  destruct Hf as [<-|[<-|[<-|[]]]]; simpl; intros Hk; try discriminate Hk;
    unfold field;
    destruct (json.store_string (snd m) _ (snd acc)); split; reflexivity.
Qed.

Lemma members_keep_Details ms acc :
  Forall (fun m => detailsKey (fst m) = false) ms ->
  ErrorResponse.Details
    (fst (fst (fold_left (json.member ErrorResponse_fields) ms acc)))
  = ErrorResponse.Details (fst (fst acc))
  /\ snd (fst (fold_left (json.member ErrorResponse_fields) ms acc))
     = snd (fst acc).
Proof.
  revert acc. induction ms as [|m ms IH]; intros acc Hms; [split; reflexivity|].
  apply Forall_cons in Hms as [Hm Hms]. simpl.
  destruct (IH (json.member ErrorResponse_fields acc m) Hms) as [H1 H2].
  destruct (member_keeps_Details acc m Hm) as [H3 H4].
  split; congruence.
Qed.

(** The member that selects [Details], holding an array, on a slice that
    is still nil: the slice becomes the items decoded one for one. *)
Lemma member_sets_Details acc key items :
  detailsKey key = true ->
  ErrorResponse.Details (fst (fst acc)) = None ->
  snd (fst acc) = [] ->
  ErrorResponse.Details
    (fst (fst (json.member ErrorResponse_fields acc (key, json.JArray items))))
  = Some (map detailOf items).
Proof.
  unfold detailsKey, json.member. simpl fst. simpl snd.
  destruct (json.findField ErrorResponse_fields key) as [f|] eqn:Hf;
    [|discriminate].
  apply findField_In in Hf. simpl in Hf.
  destruct Hf as [<-|[<-|[<-|[]]]]; simpl; intros Hk; try discriminate Hk.
  intros HD Hspare. unfold field. simpl fst. simpl snd.
  rewrite HD, Hspare.
  destruct items as [|item items]; [reflexivity|].
  unfold json.store_slice. simpl default. simpl app.
  pose proof (elements_fresh (item :: items) (snd acc)) as He.
  destruct (json.elements _ _ (item :: items) [] (snd acc)) as [xs saved'].
  simpl in *. congruence.
Qed.

(** An object with one member for [Details], which holds an array:
    [Details] is that array decoded item by item, in its order. *)
Lemma Details_in_order before key items after er saved :
  store_ErrorResponse
    (json.JObject (before ++ (key, json.JArray items) :: after))
    ErrorResponse.zero None = (er, saved) ->
  detailsKey key = true ->
  Forall (fun m => detailsKey (fst m) = false) (before ++ after) ->
  ErrorResponse.Details er = Some (map detailOf items).
Proof.
  intros Hstore Hkey Hothers.
  apply Forall_app in Hothers as [Hbefore Hafter].
  unfold store_ErrorResponse, json.store_struct in Hstore.
  rewrite fold_left_app in Hstore. simpl fold_left in Hstore.
  set (acc0 := fold_left (json.member ErrorResponse_fields) before
                 (ErrorResponse.zero, [], None)) in *.
  destruct (members_keep_Details before (ErrorResponse.zero, [], None) Hbefore)
    as [HD0 HS0]. fold acc0 in HD0, HS0. simpl in HD0, HS0.
  pose proof (member_sets_Details acc0 key items Hkey HD0 HS0) as HD1.
  set (acc1 := json.member ErrorResponse_fields acc0 (key, json.JArray items)) in *.
  destruct (members_keep_Details after acc1 Hafter) as [HD2 _].
  destruct (fold_left (json.member ErrorResponse_fields) after acc1)
    as [s saved2].
  injection Hstore as <- _. simpl in HD2. congruence.
Qed.

(** ** C1: an error body that decodes *)

(** [Decode], once the next value of the stream is known. *)
Lemma Decode_value {T} (into : json.store T) dec target h v dec' h' :
  json.readValue dec h = (inl (v, dec'), h') ->
  json.Decode into dec target h
  = ((fst (into v target None), snd (into v target None), dec'), h').
Proof.
  intros HR. unfold json.Decode, io.bind. rewrite HR.
  destruct (into v target None). reflexivity.
Qed.

(** C1, as amended.  For a response with a status other than 200 whose
    body decodes as an [ErrorResponse] -- the stream holds a JSON value
    [v], and storing [v] into an [ErrorResponse] gives [er] and no error
    -- each of the three decoders returns no value and an [APIError]
    whose [Code] is the status code and whose [Response] is [er].  When
    exactly one member of the object [v] selects [Details], and that
    member holds an array, [Details] is that array decoded item by item,
    in the order of its items.  (The claim as it is written promises that
    order for every body that decodes; the lemma after the witness shows
    a body that gives [details] twice, for which it fails.) *)
Theorem C1_decoded_error_body
  (res : http.Response) (h h' : io.heap) (v : json.value)
  (dec' : json.Decoder) (er : ErrorResponse.t) :
  http.StatusCode res <> http.StatusOK ->
  json.readValue (json.NewDecoder (http.Body res)) h = (inl (v, dec'), h') ->
  store_ErrorResponse v ErrorResponse.zero None = (er, None) ->
  let apiError :=
    ptrAPIError {| APIError.Code := http.StatusCode res;
                   APIError.Response := Some er |} in
  decodeToBasicResponse res h = ((None, Some apiError), h')
  /\ decodeToUserProfileResponse res h = ((None, Some apiError), h')
  /\ decodeToMessageContentResponse res h = ((None, Some apiError), h')
  /\ forall before key items after,
       v = json.JObject (before ++ (key, json.JArray items) :: after) ->
       detailsKey key = true ->
       Forall (fun m => detailsKey (fst m) = false) (before ++ after) ->
       ErrorResponse.Details er = Some (map detailOf items).
Proof.
  intros Hcode HR Hstore apiError.
  pose proof (Decode_value store_ErrorResponse _ ErrorResponse.zero h v dec' h' HR)
    as HD.
  rewrite Hstore in HD. cbn [fst snd] in HD.
  rewrite decodeToBasicResponse_error, decodeToUserProfileResponse_error,
    decodeToMessageContentResponse_error by exact Hcode.
  rewrite !(decodeError_eq res _ h er None dec' h' HD).
  repeat split.
  intros before key items after -> Hkey Hothers.
  exact (Details_in_order before key items after er None Hstore Hkey Hothers).
Qed.

Lemma C1_decoded_error_body_witness :
  let res := response 400 ∅ in
  let h := bodyHeap [badRequestBody] in
  let apiError :=
    ptrAPIError {| APIError.Code := 400;
                   APIError.Response := Some badRequestResponse |} in
  http.StatusCode res <> http.StatusOK
  /\ json.readValue (json.NewDecoder (http.Body res)) h
     = (inl (badRequestValue, json.NewDecoder body), bodyHeap [])
  /\ store_ErrorResponse badRequestValue ErrorResponse.zero None
     = (badRequestResponse, None)
  /\ decodeToBasicResponse res h = ((None, Some apiError), bodyHeap [])
  /\ decodeToUserProfileResponse res h = ((None, Some apiError), bodyHeap [])
  /\ decodeToMessageContentResponse res h = ((None, Some apiError), bodyHeap [])
  /\ ErrorResponse.Details badRequestResponse
     = Some (map detailOf
               [json.JObject
                  [("message", json.JString "may not be empty");
                   ("property", json.JString "messages[0].text")];
                json.JObject
                  [("message", json.JString "may not be empty");
                   ("property", json.JString "messages[1].text")]]).
Proof.
  cbv zeta.
  assert (Hcode : http.StatusCode (response 400 ∅) <> http.StatusOK)
    by discriminate.
  assert (Hvalue : json.readValue (json.NewDecoder (http.Body (response 400 ∅)))
                     (bodyHeap [badRequestBody])
                   = (inl (badRequestValue, json.NewDecoder body), bodyHeap []))
    by (vm_compute; reflexivity).
  assert (Hstore : store_ErrorResponse badRequestValue ErrorResponse.zero None
                   = (badRequestResponse, None))
    by (vm_compute; reflexivity).
  destruct (C1_decoded_error_body _ _ _ _ _ _ Hcode Hvalue Hstore)
    as (HB & HU & HC & HD).
  split; [exact Hcode|]. split; [exact Hvalue|]. split; [exact Hstore|].
  split; [exact HB|]. split; [exact HU|]. split; [exact HC|].
  apply (HD [("message", json.JString "Request body has 2 error(s).")]
            "details" _ []); [reflexivity|reflexivity|].
  repeat constructor.
Defined.

(** C1 as it is written fails when the body gives [details] more than
    once.  The body [detailsTwiceBody], sent with status 400, decodes as
    an [ErrorResponse] without error, and each decoder returns an
    [APIError] with [Code] 400 and the parsed response.  [encoding/json]
    decodes the second array into the elements that the first one left in
    the slice, so [Details] is the one element with [Message] "b" and
    [Property] "p": the items of neither array of the body.  The
    statement about the order of [Details], taken without the condition
    that only one member selects [Details], is false here. *)
Lemma C1_details_given_twice_counterexample :
  let res := response 400 ∅ in
  let h := bodyHeap [detailsTwiceBody] in
  let er := detailsTwiceResponse in
  let apiError :=
    ptrAPIError {| APIError.Code := 400; APIError.Response := Some er |} in
  (http.StatusCode res <> http.StatusOK
   /\ json.readValue (json.NewDecoder (http.Body res)) h
      = (inl (detailsTwiceValue, json.NewDecoder body), bodyHeap [])
   /\ store_ErrorResponse detailsTwiceValue ErrorResponse.zero None = (er, None))
  /\ (decodeToBasicResponse res h = ((None, Some apiError), bodyHeap [])
      /\ decodeToUserProfileResponse res h = ((None, Some apiError), bodyHeap [])
      /\ decodeToMessageContentResponse res h
         = ((None, Some apiError), bodyHeap []))
  /\ ErrorResponse.Details er <> Some (map detailOf detailsGivenFirst)
  /\ ErrorResponse.Details er <> Some (map detailOf detailsGivenSecond)
  /\ ~ (forall before key items after,
          detailsTwiceValue
          = json.JObject (before ++ (key, json.JArray items) :: after) ->
          detailsKey key = true ->
          ErrorResponse.Details er = Some (map detailOf items)).
Proof.
  cbv zeta.
  assert (Hsecond : ErrorResponse.Details detailsTwiceResponse
                    <> Some (map detailOf detailsGivenSecond))
    by (vm_compute; discriminate).
  split; [|split; [|split; [|split]]].
  - split; [discriminate|]. split; vm_compute; reflexivity.
  - split; [|split]; vm_compute; reflexivity.
  - vm_compute. discriminate.
  - exact Hsecond.
  - intros Hall. apply Hsecond.
    apply (Hall [("details", json.JArray detailsGivenFirst)] "details"
                detailsGivenSecond []); reflexivity.
Qed.

(** ** C2: an error body that cannot be decoded *)

(** C2.  For a response with a status other than 200 whose body fails to
    decode as an [ErrorResponse] -- [Decode] returns some error [e] -- each
    of the three decoders returns no value and an [APIError] with the
    status code and a nil [Response]; the error returned is not the decode
    failure [e]. *)
Theorem C2_undecodable_error_body
  (res : http.Response) (h h' : io.heap) (result : ErrorResponse.t)
  (e : error) (dec' : json.Decoder) :
  http.StatusCode res <> http.StatusOK ->
  json.Decode store_ErrorResponse (json.NewDecoder (http.Body res))
    ErrorResponse.zero h = ((result, Some e, dec'), h') ->
  let apiError := newAPIError (http.StatusCode res) None in
  decodeToBasicResponse res h = ((None, Some apiError), h')
  /\ decodeToUserProfileResponse res h = ((None, Some apiError), h')
  /\ decodeToMessageContentResponse res h = ((None, Some apiError), h')
  /\ apiError <> e.
Proof.
  intros Hcode HD apiError.
  rewrite decodeToBasicResponse_error, decodeToUserProfileResponse_error,
    decodeToMessageContentResponse_error by exact Hcode.
  rewrite !(decodeError_eq res _ h result (Some e) dec' h' HD).
  repeat split.
  intros <-.
  apply Decode_plain in HD; [discriminate HD|apply plain_store_ErrorResponse].
Qed.

Lemma C2_undecodable_error_body_witness :
  let res := response 400 ∅ in
  let h := bodyHeap ["<html>Bad Request</html>"] in
  let dec' :=
    {| json.r := body; json.buf := "<html>Bad Request</html>";
       json.err := Some SyntaxError |} in
  let apiError := newAPIError 400 None in
  http.StatusCode res <> http.StatusOK
  /\ json.Decode store_ErrorResponse (json.NewDecoder (http.Body res))
       ErrorResponse.zero h
     = ((ErrorResponse.zero, Some SyntaxError, dec'), bodyHeap [])
  /\ decodeToBasicResponse res h = ((None, Some apiError), bodyHeap [])
  /\ decodeToUserProfileResponse res h = ((None, Some apiError), bodyHeap [])
  /\ decodeToMessageContentResponse res h = ((None, Some apiError), bodyHeap [])
  /\ apiError <> SyntaxError.
Proof.
  cbv zeta.
  assert (Hcode : http.StatusCode (response 400 ∅) <> http.StatusOK)
    by discriminate.
  assert (HD : json.Decode store_ErrorResponse
                 (json.NewDecoder (http.Body (response 400 ∅)))
                 ErrorResponse.zero (bodyHeap ["<html>Bad Request</html>"])
               = ((ErrorResponse.zero, Some SyntaxError,
                   {| json.r := body; json.buf := "<html>Bad Request</html>";
                      json.err := Some SyntaxError |}), bodyHeap []))
    by (vm_compute; reflexivity).
  split; [exact Hcode|]. split; [exact HD|].
  exact (C2_undecodable_error_body _ _ _ _ _ _ Hcode HD).
Defined.

(** ** C3: a success body that cannot be decoded *)

(** C3.  For a response with status 200 whose body fails to decode as the
    expected shape -- [Decode] into a [BasicResponse], respectively into a
    [UserProfileResponse], returns some error [e] -- the decoder returns no
    value and that very error [e], and [e] is not an [*APIError]. *)
Theorem C3_undecodable_success_body (res : http.Response) (h : io.heap) :
  http.StatusCode res = http.StatusOK ->
  (forall result e dec' h',
      json.Decode store_BasicResponse (json.NewDecoder (http.Body res))
        BasicResponse.zero h = ((result, Some e, dec'), h') ->
      decodeToBasicResponse res h = ((None, Some e), h')
      /\ asAPIError e = None)
  /\ (forall result e dec' h',
      json.Decode store_UserProfileResponse (json.NewDecoder (http.Body res))
        UserProfileResponse.zero h = ((result, Some e, dec'), h') ->
      decodeToUserProfileResponse res h = ((None, Some e), h')
      /\ asAPIError e = None).
Proof.
  intros Hcode. split; intros result e dec' h' HD; split.
  - apply (decodeToBasicResponse_OK res h result (Some e) dec' h' Hcode HD).
  - apply Decode_plain in HD; [|apply plain_store_BasicResponse].
    destruct e; try reflexivity; discriminate HD.
  - apply (decodeToUserProfileResponse_OK res h result (Some e) dec' h' Hcode HD).
  - apply Decode_plain in HD; [|apply plain_store_UserProfileResponse].
    destruct e; try reflexivity; discriminate HD.
Qed.

Lemma C3_undecodable_success_body_witness :
  let res := response 200 ∅ in
  let h := bodyHeap [js "{'requestId':"; js " 42}"] in
  let e := UnmarshalTypeError "number" "string" in
  http.StatusCode res = http.StatusOK
  /\ json.Decode store_BasicResponse (json.NewDecoder (http.Body res))
       BasicResponse.zero h
     = ((BasicResponse.zero, Some e, json.NewDecoder body), bodyHeap [])
  /\ json.Decode store_UserProfileResponse (json.NewDecoder (http.Body res))
       UserProfileResponse.zero h
     = ((UserProfileResponse.zero, Some e, json.NewDecoder body), bodyHeap [])
  /\ (decodeToBasicResponse res h = ((None, Some e), bodyHeap [])
      /\ asAPIError e = None)
  /\ (decodeToUserProfileResponse res h = ((None, Some e), bodyHeap [])
      /\ asAPIError e = None).
Proof.
  cbv zeta.
  assert (Hcode : http.StatusCode (response 200 ∅) = http.StatusOK)
    by reflexivity.
  destruct (C3_undecodable_success_body (response 200 ∅)
              (bodyHeap [js "{'requestId':"; js " 42}"]) Hcode) as [HB HU].
  assert (HDB : json.Decode store_BasicResponse
                  (json.NewDecoder (http.Body (response 200 ∅)))
                  BasicResponse.zero (bodyHeap [js "{'requestId':"; js " 42}"])
                = ((BasicResponse.zero,
                    Some (UnmarshalTypeError "number" "string"),
                    json.NewDecoder body), bodyHeap []))
    by (vm_compute; reflexivity).
  assert (HDU : json.Decode store_UserProfileResponse
                  (json.NewDecoder (http.Body (response 200 ∅)))
                  UserProfileResponse.zero
                  (bodyHeap [js "{'requestId':"; js " 42}"])
                = ((UserProfileResponse.zero,
                    Some (UnmarshalTypeError "number" "string"),
                    json.NewDecoder body), bodyHeap []))
    by (vm_compute; reflexivity).
  split; [exact Hcode|]. split; [exact HDB|]. split; [exact HDU|].
  split; [exact (HB _ _ _ _ HDB)|exact (HU _ _ _ _ HDU)].
Defined.

(** ** C4: the status code alone selects the branch *)

Lemma branches_apart {T} code (r : option T * option error) :
  fromErrorBranch code r -> ~ fromSuccessBranch r.
Proof.
  intros [response ->] [[result H]|[e [H He]]]; [discriminate H|].
  injection H as <-. discriminate He.
Qed.

Lemma plain_asAPIError e : isAPIError e = false -> asAPIError e = None.
Proof. unfold isAPIError. destruct (asAPIError e); [discriminate|reflexivity]. Qed.

Lemma decodeError_fromErrorBranch {T} res dec h :
  fromErrorBranch (http.StatusCode res) (fst (@decodeError T res dec h)).
Proof.
  destruct (json.Decode store_ErrorResponse dec ErrorResponse.zero h)
    as [[[result err] dec'] h'] eqn:HD.
  rewrite (decodeError_eq res dec h result err dec' h' HD).
  eexists. reflexivity.
Qed.

Lemma decodeToBasicResponse_success res h :
  http.StatusCode res = http.StatusOK ->
  fromSuccessBranch (fst (decodeToBasicResponse res h)).
Proof.
  intros Hcode.
  destruct (json.Decode store_BasicResponse (json.NewDecoder (http.Body res))
              BasicResponse.zero h) as [[[result err] dec'] h'] eqn:HD.
  rewrite (decodeToBasicResponse_OK res h result err dec' h' Hcode HD).
  destruct err as [e|]; [right|left; eexists; reflexivity].
  exists e. split; [reflexivity|].
  apply plain_asAPIError. eapply Decode_plain; [|exact HD].
  apply plain_store_BasicResponse.
Qed.

Lemma decodeToUserProfileResponse_success res h :
  http.StatusCode res = http.StatusOK ->
  fromSuccessBranch (fst (decodeToUserProfileResponse res h)).
Proof.
  intros Hcode.
  destruct (json.Decode store_UserProfileResponse
              (json.NewDecoder (http.Body res)) UserProfileResponse.zero h)
    as [[[result err] dec'] h'] eqn:HD.
  rewrite (decodeToUserProfileResponse_OK res h result err dec' h' Hcode HD).
  destruct err as [e|]; [right|left; eexists; reflexivity].
  exists e. split; [reflexivity|].
  apply plain_asAPIError. eapply Decode_plain; [|exact HD].
  apply plain_store_UserProfileResponse.
Qed.

Lemma decodeToMessageContentResponse_success res h :
  http.StatusCode res = http.StatusOK ->
  fromSuccessBranch (fst (decodeToMessageContentResponse res h)).
Proof.
  intros Hcode.
  destruct (mime.ParseMediaType
              (http.Get (http.Header res) "Content-Disposition"))
    as [[mediatype params] err] eqn:HP.
  rewrite (decodeToMessageContentResponse_OK res h mediatype params err Hcode HP).
  destruct err as [e|]; [right|left; eexists; reflexivity].
  exists e. split; [reflexivity|].
  apply plain_asAPIError. eapply ParseMediaType_plain. exact HP.
Qed.

(** C4.  For every response, each decoder returns what a success branch
    returns if and only if the status code is 200; for every other status
    code it returns what the error branch returns: no value, and an
    [APIError] that carries that status code. *)
Theorem C4_status_selects_branch (res : http.Response) (h : io.heap) :
  let code := http.StatusCode res in
  let basic := fst (decodeToBasicResponse res h) in
  let profile := fst (decodeToUserProfileResponse res h) in
  let content := fst (decodeToMessageContentResponse res h) in
  (fromSuccessBranch basic <-> code = http.StatusOK)
  /\ (fromSuccessBranch profile <-> code = http.StatusOK)
  /\ (fromSuccessBranch content <-> code = http.StatusOK)
  /\ (code <> http.StatusOK ->
      fromErrorBranch code basic /\ fromErrorBranch code profile
      /\ fromErrorBranch code content).
Proof.
  intros code basic profile content.
  assert (Herr : code <> http.StatusOK ->
                 fromErrorBranch code basic /\ fromErrorBranch code profile
                 /\ fromErrorBranch code content).
  { intros Hcode. subst basic profile content.
    rewrite decodeToBasicResponse_error, decodeToUserProfileResponse_error,
      decodeToMessageContentResponse_error by exact Hcode.
    repeat split; apply decodeError_fromErrorBranch. }
  destruct (Z.eq_dec code http.StatusOK) as [Hcode|Hcode].
  - repeat split; try (intros _; exact Hcode); try contradiction; intros _.
    + apply decodeToBasicResponse_success. exact Hcode.
    + apply decodeToUserProfileResponse_success. exact Hcode.
    + apply decodeToMessageContentResponse_success. exact Hcode.
  - destruct (Herr Hcode) as (Hb & Hp & Hc).
    repeat split; try contradiction; try assumption; intros Hs; exfalso.
    + exact (branches_apart code basic Hb Hs).
    + exact (branches_apart code profile Hp Hs).
    + exact (branches_apart code content Hc Hs).
Qed.

(** ** C5: the bytes of a push request *)

Lemma Marshal_array (items : list json.value) :
  json.Marshal (json.JArray items)
  = "[" +:+ commas (map json.Marshal items) +:+ "]".
Proof.
  cbn [json.Marshal]. do 2 f_equal.
  induction items as [|x items IH]; [reflexivity|].
  destruct items as [|y items]; [reflexivity|].
  change (json.Marshal x +:+ "," +:+
          (fix each (l : list json.value) : string :=
             match l with
             | [] => ""
             | [x] => json.Marshal x
             | x :: (_ :: _) as l' => json.Marshal x +:+ "," +:+ each l'
             end) (y :: items)
          = json.Marshal x +:+ "," +:+ commas (map json.Marshal (y :: items))).
  do 2 f_equal. exact IH.
Qed.

Lemma quoteFrom_safe c s :
  safeByte c = true ->
  json.quoteFrom 0 (String c s) = String c (json.quoteFrom 0 s).
Proof.
  destruct c as [[] [] [] [] [] [] [] []]; intros H;
    first [discriminate H | reflexivity].
Qed.

(** A text of safe bytes is quoted by putting it between quotes. *)
Lemma quote_plainText s :
  plainText s = true -> json.quote s = String dq s +:+ String dq "".
Proof.
  intros Hs. unfold json.quote. do 2 f_equal.
  induction s as [|c s IH]; [reflexivity|].
  simpl in Hs. apply andb_true_iff in Hs as [Hc Hs].
  rewrite quoteFrom_safe by exact Hc. rewrite IH by exact Hs. reflexivity.
Qed.

Ltac marshal_bytes :=
  cbn [json.Marshal MarshalJSON MessageType messageFields fst snd];
  rewrite ?str_app_assoc; reflexivity.

(** C5.  Whatever text [FormatFloat] writes for a [float64]: each of the
    four message variants is serialized to exactly the bytes of an object
    whose first key is [type], with the name of the variant, followed by
    the fields of the variant in their fixed order; a push envelope is
    exactly the bytes of [to], then [messages] with the messages in the
    order given, then a newline; and the push of
    [NewTextMessage("Hello, world")] to a user id of plain characters is
    exactly [{"to":"<userId>","messages":[{"type":"text","text":"Hello,
    world"}]}] and a newline -- for the user id of [TestPushMessages],
    the request body that the test expects. *)
Theorem C5_push_body_bytes (float64 : Type) (FormatFloat : float64 -> string) :
  let bytesOf := fun m => json.Marshal (MarshalJSON float64 FormatFloat m) in
  let newline := String (ascii_of_N 10) "" in
  (forall text,
      bytesOf (NewTextMessage float64 text)
      = js "{'type':'text','text':" +:+ json.quote text +:+ "}")
  /\ (forall original preview,
      bytesOf (NewImageMessage float64 original preview)
      = js "{'type':'image','originalContentUrl':" +:+ json.quote original
        +:+ js ",'previewImageUrl':" +:+ json.quote preview +:+ "}")
  /\ (forall title address latitude longitude,
      bytesOf (NewLocationMessage float64 title address latitude longitude)
      = js "{'type':'location','title':" +:+ json.quote title
        +:+ js ",'address':" +:+ json.quote address
        +:+ js ",'latitude':" +:+ FormatFloat latitude
        +:+ js ",'longitude':" +:+ FormatFloat longitude +:+ "}")
  /\ (forall package sticker,
      bytesOf (NewStickerMessage float64 package sticker)
      = js "{'type':'sticker','packageId':" +:+ json.quote package
        +:+ js ",'stickerId':" +:+ json.quote sticker +:+ "}")
  /\ (forall to messages,
      pushBody float64 FormatFloat to messages
      = js "{'to':" +:+ json.quote to +:+ js ",'messages':["
        +:+ commas (map bytesOf messages) +:+ "]}" +:+ newline)
  /\ (forall userId,
      plainText userId = true ->
      pushBody float64 FormatFloat userId
        [NewTextMessage float64 "Hello, world"]
      = js "{'to':'" +:+ userId
        +:+ js "','messages':[{'type':'text','text':'Hello, world'}]}"
        +:+ newline)
  /\ pushBody float64 FormatFloat "U0cc15697597f61dd8b01cea8b027050e"
       [NewTextMessage float64 "Hello, world"]
     = js "{'to':'U0cc15697597f61dd8b01cea8b027050e','messages':[{'type':'text','text':'Hello, world'}]}"
       +:+ newline.
Proof.
  intros bytesOf newline. subst bytesOf.
  assert (Henvelope : forall to messages,
             pushBody float64 FormatFloat to messages
             = js "{'to':" +:+ json.quote to +:+ js ",'messages':["
               +:+ commas (map (fun m => json.Marshal
                                           (MarshalJSON float64 FormatFloat m))
                             messages) +:+ "]}" +:+ newline).
  { intros to messages. unfold pushBody, pushEnvelope, json.Encode.
    change (json.Marshal (json.JObject
              [("to", json.JString to);
               ("messages",
                json.JArray (map (MarshalJSON float64 FormatFloat) messages))]))
      with ("{" +:+ (json.quote "to" +:+ ":" +:+ json.quote to +:+ ","
                     +:+ json.quote "messages" +:+ ":"
                     +:+ json.Marshal
                           (json.JArray
                              (map (MarshalJSON float64 FormatFloat) messages)))
            +:+ "}").
    rewrite Marshal_array, map_map, !str_app_assoc. reflexivity. }
  split; [|split; [|split; [|split; [|split; [|split]]]]].
  - intros text. unfold NewTextMessage. marshal_bytes.
  - intros original preview. unfold NewImageMessage. marshal_bytes.
  - intros title address latitude longitude. unfold NewLocationMessage.
    marshal_bytes.
  - intros package sticker. unfold NewStickerMessage. marshal_bytes.
  - exact Henvelope.
  - intros userId Hplain. rewrite Henvelope.
    rewrite (quote_plainText userId Hplain), !str_app_assoc. reflexivity.
  - reflexivity.
Qed.

(** ** C6, C7: the content decoder and [Content-Disposition] *)

(** C6.  For a response with status 200 whose [Content-Disposition] header
    parses and has a [filename] parameter, the content decoder returns no
    error and a [MessageContentResponse] whose [FileName] is the value of
    that parameter and whose [Content] is the body of the response.  The
    decoder leaves the heap of streams as it is: a body that was open is
    still open, in the same state, and a caller who then reads [Content]
    to its end gets every byte of the body. *)
Theorem C6_content_with_filename
  (res : http.Response) (h : io.heap) (mediatype : string)
  (params : gmap string string) (name : string) :
  http.StatusCode res = http.StatusOK ->
  mime.ParseMediaType (http.Get (http.Header res) "Content-Disposition")
    = (mediatype, params, None) ->
  params !! "filename" = Some name ->
  let result :=
    {| MessageContentResponse.Content := http.Body res;
       MessageContentResponse.FileName := name |} in
  decodeToMessageContentResponse res h = ((Some result, None), h)
  /\ forall s, h !! http.Body res = Some s -> io.closed s = false ->
       snd (decodeToMessageContentResponse res h)
         !! MessageContentResponse.Content result = Some s
       /\ fst (readContent res h)
          = (io.bytes (io.chunks s), TransportError <$> io.failure s).
Proof.
  intros Hcode HP Hname result.
  assert (HD : decodeToMessageContentResponse res h = ((Some result, None), h)).
  { rewrite (decodeToMessageContentResponse_OK res h mediatype params None
               Hcode HP). rewrite Hname. reflexivity. }
  split; [exact HD|].
  intros s Hs Hopen. unfold readContent, io.bind. rewrite HD. cbn [fst snd].
  split; [exact Hs|].
  unfold io.ReadAll. cbn [MessageContentResponse.Content result].
  rewrite Hs, Hopen. destruct (io.failure s); reflexivity.
Qed.

Lemma C6_content_with_filename_witness :
  let res := contentResponse "attachment; filename=foo.png" in
  let h := bodyHeap ["PNG"; "DATA"] in
  let result :=
    {| MessageContentResponse.Content := body;
       MessageContentResponse.FileName := "foo.png" |} in
  http.StatusCode res = http.StatusOK
  /\ mime.ParseMediaType (http.Get (http.Header res) "Content-Disposition")
     = ("attachment", {[ "filename" := "foo.png" ]}, None)
  /\ decodeToMessageContentResponse res h = ((Some result, None), h)
  /\ fst (readContent res h) = ("PNGDATA", None).
Proof.
  cbv zeta.
  assert (Hcode : http.StatusCode (contentResponse "attachment; filename=foo.png")
                  = http.StatusOK) by reflexivity.
  assert (HP : mime.ParseMediaType
                 (http.Get
                    (http.Header (contentResponse "attachment; filename=foo.png"))
                    "Content-Disposition")
               = ("attachment", {[ "filename" := "foo.png" ]}, None))
    by (vm_compute; reflexivity).
  assert (Hname : ({[ "filename" := "foo.png" ]} : gmap string string)
                    !! "filename" = Some "foo.png")
    by (vm_compute; reflexivity).
  destruct (C6_content_with_filename _ (bodyHeap ["PNG"; "DATA"]) _ _ _
              Hcode HP Hname) as [HD Hopen].
  split; [exact Hcode|]. split; [exact HP|]. split; [exact HD|].
  destruct (Hopen (io.Stream ["PNG"; "DATA"] None false)) as [_ Hread];
    [reflexivity|reflexivity|exact Hread].
Defined.

(** C7.  For a response with status 200 whose [Content-Disposition] header
    is missing, or does not parse as a media type, the content decoder
    returns no [MessageContentResponse] and an error that is not an
    [*APIError]: the error of [mime.ParseMediaType]. *)
Theorem C7_content_without_disposition (res : http.Response) (h : io.heap) :
  http.StatusCode res = http.StatusOK ->
  http.Header res !! "Content-Disposition" = None
  \/ (exists mediatype params e,
        mime.ParseMediaType (http.Get (http.Header res) "Content-Disposition")
        = (mediatype, params, Some e)) ->
  exists e,
    decodeToMessageContentResponse res h = ((None, Some e), h)
    /\ snd (mime.ParseMediaType
              (http.Get (http.Header res) "Content-Disposition")) = Some e
    /\ asAPIError e = None.
Proof.
  intros Hcode Hbad.
  assert (exists mediatype params e,
             mime.ParseMediaType
               (http.Get (http.Header res) "Content-Disposition")
             = (mediatype, params, Some e)) as (mediatype & params & e & HP).
  { destruct Hbad as [Hmissing|Hbad]; [|exact Hbad].
    unfold http.Get.
    replace (http.CanonicalMIMEHeaderKey "Content-Disposition")
      with "Content-Disposition" by (vm_compute; reflexivity).
    rewrite Hmissing. exists "", ∅, mime.ErrNoMediaType. reflexivity. }
  exists e. split; [|split].
  - rewrite (decodeToMessageContentResponse_OK res h mediatype params (Some e)
               Hcode HP). reflexivity.
  - rewrite HP. reflexivity.
  - apply plain_asAPIError. eapply ParseMediaType_plain. exact HP.
Qed.

Lemma C7_content_without_disposition_witness :
  let res := response 200 ∅ in
  let h := bodyHeap ["PNG"; "DATA"] in
  http.StatusCode res = http.StatusOK
  /\ http.Header res !! "Content-Disposition" = None
  /\ exists e,
      decodeToMessageContentResponse res h = ((None, Some e), h)
      /\ snd (mime.ParseMediaType
                (http.Get (http.Header res) "Content-Disposition")) = Some e
      /\ asAPIError e = None.
Proof.
  cbv zeta.
  assert (Hcode : http.StatusCode (response 200 ∅) = http.StatusOK)
    by reflexivity.
  assert (Hmissing : http.Header (response 200 ∅) !! "Content-Disposition"
                     = None) by reflexivity.
  split; [exact Hcode|]. split; [exact Hmissing|].
  exact (C7_content_without_disposition _ (bodyHeap ["PNG"; "DATA"]) Hcode
           (or_introl Hmissing)).
Defined.

(** ** C8: the body [{}] *)

(** However the two bytes [{}] are cut into chunks, the decoder finds the
    empty object, and nothing after it. *)
Lemma refill_empty_object chunks buf :
  buf +:+ io.bytes chunks = js "{}" ->
  exists unread, json.refill buf chunks = json.Found (json.JObject []) "" unread.
Proof.
  revert buf. induction chunks as [|c chunks IH]; intros buf Hbuf.
  - change (buf +:+ "" = js "{}") in Hbuf.
    rewrite str_app_nil_r in Hbuf. subst buf.
    eexists. reflexivity.
  - change (buf +:+ (c +:+ io.bytes chunks) = js "{}") in Hbuf.
    rewrite <- str_app_assoc in Hbuf.
    destruct (IH (buf +:+ c) Hbuf) as [unread Hu].
    destruct buf as [|b0 [|b1 [|b2 buf]]].
    + exists unread. exact Hu.
    + injection Hbuf as -> _. exists unread. exact Hu.
    + injection Hbuf as -> -> _. eexists. reflexivity.
    + injection Hbuf as _ _ Hrest. discriminate Hrest.
Qed.

(** C8.  A response with status 200 whose body is the two bytes [{}],
    in whatever chunks the open stream delivers them, decodes via
    [decodeToBasicResponse] to a [BasicResponse] whose [RequestID] is the
    empty string, with no error. *)
Theorem C8_empty_object_body
  (res : http.Response) (h : io.heap) (s : io.stream) :
  http.StatusCode res = http.StatusOK ->
  h !! http.Body res = Some s ->
  io.closed s = false ->
  io.bytes (io.chunks s) = js "{}" ->
  fst (decodeToBasicResponse res h)
  = (Some {| BasicResponse.RequestID := "" |}, None).
Proof.
  intros Hcode Hs Hopen Hbytes.
  destruct (refill_empty_object (io.chunks s) "" Hbytes) as [unread Hrefill].
  assert (HR : json.readValue (json.NewDecoder (http.Body res)) h
               = (inl (json.JObject [],
                       {| json.r := http.Body res; json.buf := "";
                          json.err := None |}),
                  json.consumed (http.Body res) unread h)).
  { unfold json.readValue, json.pending. simpl.
    rewrite Hs, Hopen, Hrefill. reflexivity. }
  pose proof (Decode_value store_BasicResponse _ BasicResponse.zero h _ _ _ HR)
    as HD.
  rewrite (decodeToBasicResponse_OK res h _ _ _ _ Hcode HD). reflexivity.
Qed.

Lemma C8_empty_object_body_witness :
  let res := response 200 ∅ in
  let s := io.Stream [js "{"; ""; js "}"] None false in
  let h : io.heap := {[ body := s ]} in
  http.StatusCode res = http.StatusOK
  /\ h !! http.Body res = Some s
  /\ io.closed s = false
  /\ io.bytes (io.chunks s) = js "{}"
  /\ fst (decodeToBasicResponse res h)
     = (Some {| BasicResponse.RequestID := "" |}, None).
Proof.
  cbv zeta.
  assert (Hcode : http.StatusCode (response 200 ∅) = http.StatusOK)
    by reflexivity.
  assert (Hs : ({[ body := io.Stream [js "{"; ""; js "}"] None false ]}
                : io.heap) !! http.Body (response 200 ∅)
               = Some (io.Stream [js "{"; ""; js "}"] None false))
    by reflexivity.
  assert (Hopen : io.closed (io.Stream [js "{"; ""; js "}"] None false) = false)
    by reflexivity.
  assert (Hbytes : io.bytes (io.chunks (io.Stream [js "{"; ""; js "}"] None false))
                   = js "{}") by reflexivity.
  split; [exact Hcode|]. split; [exact Hs|]. split; [exact Hopen|].
  split; [exact Hbytes|].
  exact (C8_empty_object_body _ _ _ Hcode Hs Hopen Hbytes).
Defined.

(** ** C10: a [Content-Disposition] without a file name *)

(** C10.  For a response with status 200 whose [Content-Disposition]
    header parses as a media type but has no [filename] parameter, the
    content decoder returns no error and a [MessageContentResponse] whose
    [FileName] is the empty string. *)
Theorem C10_content_without_filename
  (res : http.Response) (h : io.heap) (mediatype : string)
  (params : gmap string string) :
  http.StatusCode res = http.StatusOK ->
  mime.ParseMediaType (http.Get (http.Header res) "Content-Disposition")
    = (mediatype, params, None) ->
  params !! "filename" = None ->
  decodeToMessageContentResponse res h
  = ((Some {| MessageContentResponse.Content := http.Body res;
              MessageContentResponse.FileName := "" |}, None), h).
Proof.
  intros Hcode HP Hname.
  rewrite (decodeToMessageContentResponse_OK res h mediatype params None Hcode HP).
  rewrite Hname. reflexivity.
Qed.

Lemma C10_content_without_filename_witness :
  let res := contentResponse "attachment" in
  let h := bodyHeap ["PNG"; "DATA"] in
  http.StatusCode res = http.StatusOK
  /\ mime.ParseMediaType (http.Get (http.Header res) "Content-Disposition")
     = ("attachment", ∅, None)
  /\ (∅ : gmap string string) !! "filename" = None
  /\ decodeToMessageContentResponse res h
     = ((Some {| MessageContentResponse.Content := body;
                 MessageContentResponse.FileName := "" |}, None), h).
Proof.
  cbv zeta.
  assert (Hcode : http.StatusCode (contentResponse "attachment") = http.StatusOK)
    by reflexivity.
  assert (HP : mime.ParseMediaType
                 (http.Get (http.Header (contentResponse "attachment"))
                    "Content-Disposition")
               = ("attachment", ∅, None))
    by (vm_compute; reflexivity).
  assert (Hname : (∅ : gmap string string) !! "filename" = None)
    by reflexivity.
  split; [exact Hcode|]. split; [exact HP|]. split; [exact Hname|].
  exact (C10_content_without_filename _ (bodyHeap ["PNG"; "DATA"]) _ _
           Hcode HP Hname).
Defined.

(** * Further properties of the decoders *)

(** ** The scanner reads a value from a prefix of the input *)

Lemma run_app_Value stk st a b v rest :
  json.run stk st a = json.Value v rest ->
  json.run stk st (a +:+ b) = json.Value v (rest +:+ b).
Proof.
  revert stk st. induction a as [|c a IH]; intros stk st; [discriminate|].
  change (String c a +:+ b) with (String c (a +:+ b)).
  cbn [json.run].
  destruct (json.step stk st c) as [stk' st'|v' consumed|].
  - apply IH.
  - intros [= <- <-]. destruct consumed; reflexivity.
  - discriminate.
Qed.

Lemma run_app_Malformed stk st a b :
  json.run stk st a = json.Malformed ->
  json.run stk st (a +:+ b) = json.Malformed.
Proof.
  revert stk st. induction a as [|c a IH]; intros stk st; [discriminate|].
  change (String c a +:+ b) with (String c (a +:+ b)).
  cbn [json.run].
  destruct (json.step stk st c) as [stk' st'|v' consumed|].
  - apply IH.
  - discriminate.
  - reflexivity.
Qed.

Lemma bytes_cons c cs : io.bytes (c :: cs) = c +:+ io.bytes cs.
Proof. reflexivity. Qed.

(** The loop of [readValue] finds what a scan of all the bytes finds. *)
Lemma refill_Value chunks : forall buf v rest,
  json.scan (buf +:+ io.bytes chunks) = json.Value v rest ->
  exists r u, json.refill buf chunks = json.Found v r u.
Proof.
  induction chunks as [|c cs IH]; intros buf v rest H.
  - cbn [io.bytes fold_right] in H. rewrite str_app_nil_r in H.
    cbn [json.refill]. rewrite H. eauto.
  - cbn [json.refill]. rewrite bytes_cons in H.
    destruct (json.scan buf) as [v0 r0| |] eqn:Hb.
    + pose proof (run_app_Value _ _ _ (c +:+ io.bytes cs) _ _ Hb) as H2.
      unfold json.scan in H. rewrite H2 in H. injection H as <- _. eauto.
    + pose proof (run_app_Malformed _ _ _ (c +:+ io.bytes cs) Hb) as H2.
      unfold json.scan in H. rewrite H2 in H. discriminate.
    + rewrite <- str_app_assoc in H. exact (IH _ _ _ H).
Qed.

Lemma refill_Malformed chunks : forall buf,
  json.scan (buf +:+ io.bytes chunks) = json.Malformed ->
  exists b u, json.refill buf chunks = json.SyntaxErr b u.
Proof.
  induction chunks as [|c cs IH]; intros buf H.
  - cbn [io.bytes fold_right] in H. rewrite str_app_nil_r in H.
    cbn [json.refill]. rewrite H. eauto.
  - cbn [json.refill]. rewrite bytes_cons in H.
    destruct (json.scan buf) as [v0 r0| |] eqn:Hb.
    + pose proof (run_app_Value _ _ _ (c +:+ io.bytes cs) _ _ Hb) as H2.
      unfold json.scan in H. rewrite H2 in H. discriminate.
    + eauto.
    + rewrite <- str_app_assoc in H. exact (IH _ H).
Qed.

Lemma refill_NeedMore chunks : forall buf,
  json.scan (buf +:+ io.bytes chunks) = json.NeedMore ->
  json.refill buf chunks = json.Starved (buf +:+ io.bytes chunks).
Proof.
  induction chunks as [|c cs IH]; intros buf H.
  - cbn [io.bytes fold_right] in *. rewrite str_app_nil_r in *.
    cbn [json.refill]. rewrite H. reflexivity.
  - cbn [json.refill]. rewrite bytes_cons in *.
    destruct (json.scan buf) as [v0 r0| |] eqn:Hb.
    + pose proof (run_app_Value _ _ _ (c +:+ io.bytes cs) _ _ Hb) as H2.
      unfold json.scan in H. rewrite H2 in H. discriminate.
    + pose proof (run_app_Malformed _ _ _ (c +:+ io.bytes cs) Hb) as H2.
      unfold json.scan in H. rewrite H2 in H. discriminate.
    + rewrite <- str_app_assoc in *. exact (IH _ H).
Qed.

(** ** The decoders on an open body *)

(** The next value of an open stream depends on its bytes and on the way
    it ends, not on how the bytes come in chunks. *)
Lemma readValue_open (r : io.ReadCloser) (h : io.heap) s :
  h !! r = Some s -> io.closed s = false ->
  exists dec' h',
    json.readValue (json.NewDecoder r) h
    = (match firstValue (io.bytes (io.chunks s)) (io.failure s) with
       | inl v => inl (v, dec')
       | inr e => inr (e, dec')
       end, h').
Proof.
  intros Hs Hopen. unfold json.readValue, json.pending.
  cbn [json.err json.NewDecoder json.r json.buf].
  rewrite Hs, Hopen. unfold firstValue.
  destruct (json.scan (io.bytes (io.chunks s))) as [v rest| |] eqn:Hscan.
  - destruct (refill_Value (io.chunks s) "" v rest Hscan) as (r0 & u & ->). eauto.
  - destruct (refill_Malformed (io.chunks s) "" Hscan) as (b & u & ->). eauto.
  - rewrite (refill_NeedMore (io.chunks s) "" Hscan).
    change ("" +:+ io.bytes (io.chunks s)) with (io.bytes (io.chunks s)).
    unfold io.ending. destruct (io.failure s) as [msg|]; cbn [json.error_is io.EOF].
    + eauto.
    + change (String.eqb "EOF" "EOF") with true. cbv iota.
      destruct (json.scan (io.bytes (io.chunks s) +:+ " ")); eauto.
Qed.

Lemma Decode_open {T} (into : json.store T) target (r : io.ReadCloser)
  (h : io.heap) s :
  h !! r = Some s -> io.closed s = false ->
  exists dec' h',
    json.Decode into (json.NewDecoder r) target h
    = (decoded into target
         (firstValue (io.bytes (io.chunks s)) (io.failure s)), dec', h').
Proof.
  intros Hs Hopen. destruct (readValue_open r h s Hs Hopen) as (dec' & h' & HR).
  exists dec', h'. unfold json.Decode, io.bind. rewrite HR.
  destruct (firstValue _ _) as [v|e]; cbn [decoded].
  - destruct (into v target None). reflexivity.
  - reflexivity.
Qed.

Lemma decodeError_open {T} res (h : io.heap) s :
  h !! http.Body res = Some s -> io.closed s = false ->
  fst (@decodeError T res (json.NewDecoder (http.Body res)) h)
  = refused (http.StatusCode res)
      (decoded store_ErrorResponse ErrorResponse.zero
         (firstValue (io.bytes (io.chunks s)) (io.failure s))).
Proof.
  intros Hs Hopen.
  destruct (Decode_open store_ErrorResponse ErrorResponse.zero _ h s Hs Hopen)
    as (dec' & h' & HD).
  destruct (decoded _ _ _) as [result err].
  rewrite (decodeError_eq res _ h result err dec' h' HD). reflexivity.
Qed.

Lemma decodeToBasicResponse_open res (h : io.heap) s :
  h !! http.Body res = Some s -> io.closed s = false ->
  let first := firstValue (io.bytes (io.chunks s)) (io.failure s) in
  fst (decodeToBasicResponse res h)
  = if (http.StatusCode res =? http.StatusOK)%Z
    then returned (decoded store_BasicResponse BasicResponse.zero first)
    else refused (http.StatusCode res)
           (decoded store_ErrorResponse ErrorResponse.zero first).
Proof.
  intros Hs Hopen first.
  destruct (Z.eqb_spec (http.StatusCode res) http.StatusOK) as [Hc|Hc].
  - destruct (Decode_open store_BasicResponse BasicResponse.zero _ h s Hs Hopen)
      as (dec' & h' & HD). fold first in HD.
    destruct (decoded _ _ first) as [result err].
    rewrite (decodeToBasicResponse_OK res h result err dec' h' Hc HD).
    destruct err; reflexivity.
  - rewrite decodeToBasicResponse_error by exact Hc.
    apply decodeError_open; assumption.
Qed.

Lemma decodeToUserProfileResponse_open res (h : io.heap) s :
  h !! http.Body res = Some s -> io.closed s = false ->
  let first := firstValue (io.bytes (io.chunks s)) (io.failure s) in
  fst (decodeToUserProfileResponse res h)
  = if (http.StatusCode res =? http.StatusOK)%Z
    then returned
           (decoded store_UserProfileResponse UserProfileResponse.zero first)
    else refused (http.StatusCode res)
           (decoded store_ErrorResponse ErrorResponse.zero first).
Proof.
  intros Hs Hopen first.
  destruct (Z.eqb_spec (http.StatusCode res) http.StatusOK) as [Hc|Hc].
  - destruct (Decode_open store_UserProfileResponse UserProfileResponse.zero
                _ h s Hs Hopen) as (dec' & h' & HD). fold first in HD.
    destruct (decoded _ _ first) as [result err].
    rewrite (decodeToUserProfileResponse_OK res h result err dec' h' Hc HD).
    destruct err; reflexivity.
  - rewrite decodeToUserProfileResponse_error by exact Hc.
    apply decodeError_open; assumption.
Qed.

Lemma decodeToMessageContentResponse_open res (h : io.heap) s :
  h !! http.Body res = Some s -> io.closed s = false ->
  http.StatusCode res <> http.StatusOK ->
  fst (decodeToMessageContentResponse res h)
  = refused (http.StatusCode res)
      (decoded store_ErrorResponse ErrorResponse.zero
         (firstValue (io.bytes (io.chunks s)) (io.failure s))).
Proof.
  intros Hs Hopen Hc.
  rewrite decodeToMessageContentResponse_error by exact Hc.
  apply decodeError_open; assumption.
Qed.

(** With status 200 the content decoder does not look at the streams. *)
Lemma decodeToMessageContentResponse_200 res (h1 h2 : io.heap) :
  http.StatusCode res = http.StatusOK ->
  fst (decodeToMessageContentResponse res h1)
  = fst (decodeToMessageContentResponse res h2).
Proof.
  intros Hc.
  destruct (mime.ParseMediaType
              (http.Get (http.Header res) "Content-Disposition"))
    as [[mediatype params] err] eqn:HP.
  rewrite !(decodeToMessageContentResponse_OK res _ _ _ _ Hc HP). reflexivity.
Qed.

Lemma status_eqb_OK (res : http.Response) :
  http.StatusCode res = http.StatusOK ->
  (http.StatusCode res =? http.StatusOK)%Z = true.
Proof. intros H. apply Z.eqb_eq. exact H. Qed.

Lemma status_eqb_not_OK (res : http.Response) :
  http.StatusCode res <> http.StatusOK ->
  (http.StatusCode res =? http.StatusOK)%Z = false.
Proof. intros H. apply Z.eqb_neq. exact H. Qed.

(** What the decoders return when reading the body gives the error [e]
    instead of a value. *)
Lemma decoders_on_read_error res (h : io.heap) s e :
  h !! http.Body res = Some s -> io.closed s = false ->
  firstValue (io.bytes (io.chunks s)) (io.failure s) = inr e ->
  (http.StatusCode res = http.StatusOK ->
   fst (decodeToBasicResponse res h) = (None, Some e)
   /\ fst (decodeToUserProfileResponse res h) = (None, Some e))
  /\ (http.StatusCode res <> http.StatusOK ->
      let apiError := newAPIError (http.StatusCode res) None in
      fst (decodeToBasicResponse res h) = (None, Some apiError)
      /\ fst (decodeToUserProfileResponse res h) = (None, Some apiError)
      /\ fst (decodeToMessageContentResponse res h) = (None, Some apiError)).
Proof.
  intros Hs Hopen Hfirst.
  split; intros Hc.
  - rewrite (decodeToBasicResponse_open res h s Hs Hopen),
      (decodeToUserProfileResponse_open res h s Hs Hopen).
    rewrite Hfirst, status_eqb_OK by exact Hc. split; reflexivity.
  - intros apiError.
    rewrite (decodeToBasicResponse_open res h s Hs Hopen),
      (decodeToUserProfileResponse_open res h s Hs Hopen),
      (decodeToMessageContentResponse_open res h s Hs Hopen Hc).
    rewrite Hfirst, status_eqb_not_OK by exact Hc. repeat split.
Qed.

(** ** X1: the chunks of a body *)

(** X1.  What the three decoders return for a response with an open body
    depends on the bytes of the body and on the way the stream ends, not
    on the chunks in which the stream delivers the bytes: two bodies with
    the same bytes and the same end give the same value and the same
    error, for every status code. *)
Theorem X1_chunking_is_irrelevant
  (res : http.Response) (h1 h2 : io.heap) (s1 s2 : io.stream) :
  h1 !! http.Body res = Some s1 -> io.closed s1 = false ->
  h2 !! http.Body res = Some s2 -> io.closed s2 = false ->
  io.bytes (io.chunks s1) = io.bytes (io.chunks s2) ->
  io.failure s1 = io.failure s2 ->
  fst (decodeToBasicResponse res h1) = fst (decodeToBasicResponse res h2)
  /\ fst (decodeToUserProfileResponse res h1)
     = fst (decodeToUserProfileResponse res h2)
  /\ fst (decodeToMessageContentResponse res h1)
     = fst (decodeToMessageContentResponse res h2).
Proof.
  intros Hs1 Ho1 Hs2 Ho2 Hbytes Hfail.
  rewrite (decodeToBasicResponse_open res h1 s1 Hs1 Ho1),
    (decodeToBasicResponse_open res h2 s2 Hs2 Ho2),
    (decodeToUserProfileResponse_open res h1 s1 Hs1 Ho1),
    (decodeToUserProfileResponse_open res h2 s2 Hs2 Ho2).
  rewrite Hbytes, Hfail. split; [reflexivity|]. split; [reflexivity|].
  destruct (Z.eq_dec (http.StatusCode res) http.StatusOK) as [Hc|Hc].
  - apply decodeToMessageContentResponse_200. exact Hc.
  - rewrite (decodeToMessageContentResponse_open res h1 s1 Hs1 Ho1 Hc),
      (decodeToMessageContentResponse_open res h2 s2 Hs2 Ho2 Hc).
    rewrite Hbytes, Hfail. reflexivity.
Qed.

Lemma X1_chunking_is_irrelevant_witness :
  let res := response 200 ∅ in
  let s1 := io.Stream [js "{'requestId':'f70dd685-499a'}"] None false in
  let s2 :=
    io.Stream [js "{'requ"; js "estId':'f70d"; ""; js "d685-499a'"; js "}"]
      None false in
  let h1 : io.heap := {[ body := s1 ]} in
  let h2 : io.heap := {[ body := s2 ]} in
  (h1 !! http.Body res = Some s1 /\ io.closed s1 = false)
  /\ (h2 !! http.Body res = Some s2 /\ io.closed s2 = false)
  /\ io.bytes (io.chunks s1) = io.bytes (io.chunks s2)
  /\ io.failure s1 = io.failure s2
  /\ fst (decodeToBasicResponse res h1) = fst (decodeToBasicResponse res h2)
  /\ fst (decodeToUserProfileResponse res h1)
     = fst (decodeToUserProfileResponse res h2)
  /\ fst (decodeToMessageContentResponse res h1)
     = fst (decodeToMessageContentResponse res h2).
Proof.
  cbv zeta.
  set (s1 := io.Stream [js "{'requestId':'f70dd685-499a'}"] None false).
  set (s2 := io.Stream
               [js "{'requ"; js "estId':'f70d"; ""; js "d685-499a'"; js "}"]
               None false).
  assert (Hs1 : ({[ body := s1 ]} : io.heap) !! http.Body (response 200 ∅)
                = Some s1) by reflexivity.
  assert (Hs2 : ({[ body := s2 ]} : io.heap) !! http.Body (response 200 ∅)
                = Some s2) by reflexivity.
  assert (Ho1 : io.closed s1 = false) by reflexivity.
  assert (Ho2 : io.closed s2 = false) by reflexivity.
  assert (Hbytes : io.bytes (io.chunks s1) = io.bytes (io.chunks s2))
    by reflexivity.
  assert (Hfail : io.failure s1 = io.failure s2) by reflexivity.
  split; [split; [exact Hs1|exact Ho1]|].
  split; [split; [exact Hs2|exact Ho2]|].
  split; [exact Hbytes|]. split; [exact Hfail|].
  exact (X1_chunking_is_irrelevant _ _ _ _ _ Hs1 Ho1 Hs2 Ho2 Hbytes Hfail).
Defined.

(** ** X2: what follows the first value *)

Lemma firstValue_prefix text extra failure v rest :
  json.scan text = json.Value v rest ->
  firstValue (text +:+ extra) failure = inl v.
Proof.
  intros H. unfold firstValue, json.scan.
  rewrite (run_app_Value _ _ _ extra _ _ H). reflexivity.
Qed.

(** X2.  The decoders decode the first JSON value of the body and do not
    look at what follows it.  When the bytes of an open body start with a
    text in which the scanner finds the value [v], the decoders return
    what storing [v] gives -- into the success type with status 200, into
    an [ErrorResponse] otherwise -- whatever bytes come after that text,
    and however the stream ends after them. *)
Theorem X2_bytes_after_the_value_are_ignored
  (res : http.Response) (h : io.heap) (s : io.stream)
  (text extra : string) (v : json.value) (rest : string) :
  h !! http.Body res = Some s -> io.closed s = false ->
  io.bytes (io.chunks s) = text +:+ extra ->
  json.scan text = json.Value v rest ->
  let failed (T : Type) : option T * option error :=
    refused (http.StatusCode res)
      (store_ErrorResponse v ErrorResponse.zero None) in
  fst (decodeToBasicResponse res h)
  = (if (http.StatusCode res =? http.StatusOK)%Z
     then returned (store_BasicResponse v BasicResponse.zero None)
     else failed _)
  /\ fst (decodeToUserProfileResponse res h)
     = (if (http.StatusCode res =? http.StatusOK)%Z
        then returned (store_UserProfileResponse v UserProfileResponse.zero None)
        else failed _)
  /\ (http.StatusCode res <> http.StatusOK ->
      fst (decodeToMessageContentResponse res h) = failed _).
Proof.
  intros Hs Hopen Hbytes Hscan failed.
  rewrite (decodeToBasicResponse_open res h s Hs Hopen),
    (decodeToUserProfileResponse_open res h s Hs Hopen).
  rewrite Hbytes, (firstValue_prefix text extra _ v rest Hscan).
  split; [reflexivity|]. split; [reflexivity|].
  intros Hc.
  rewrite (decodeToMessageContentResponse_open res h s Hs Hopen Hc).
  rewrite Hbytes, (firstValue_prefix text extra _ v rest Hscan). reflexivity.
Qed.

Lemma X2_bytes_after_the_value_are_ignored_witness :
  let res := response 200 ∅ in
  let text := js "{'requestId':'r1'}" in
  let extra := "</html> and more" in
  let s := io.Stream [js "{'requestId':'r1'}</ht"; "ml> and more"]
             (Some "connection reset by peer") false in
  let h : io.heap := {[ body := s ]} in
  let v := json.JObject [("requestId", json.JString "r1")] in
  (h !! http.Body res = Some s /\ io.closed s = false)
  /\ io.bytes (io.chunks s) = text +:+ extra
  /\ json.scan text = json.Value v ""
  /\ fst (decodeToBasicResponse res h)
     = (Some {| BasicResponse.RequestID := "r1" |}, None)
  /\ fst (decodeToUserProfileResponse res h)
     = (Some {| UserProfileResponse.RequestID := "r1";
                UserProfileResponse.UserID := "";
                UserProfileResponse.DisplayName := "";
                UserProfileResponse.PicutureURL := "";
                UserProfileResponse.StatusMessage := "" |}, None).
Proof.
  cbv zeta.
  set (s := io.Stream [js "{'requestId':'r1'}</ht"; "ml> and more"]
              (Some "connection reset by peer") false).
  assert (Hs : ({[ body := s ]} : io.heap) !! http.Body (response 200 ∅)
               = Some s) by reflexivity.
  assert (Hopen : io.closed s = false) by reflexivity.
  assert (Hbytes : io.bytes (io.chunks s)
                   = js "{'requestId':'r1'}" +:+ "</html> and more")
    by reflexivity.
  assert (Hscan : json.scan (js "{'requestId':'r1'}")
                  = json.Value
                      (json.JObject [("requestId", json.JString "r1")]) "")
    by reflexivity.
  destruct (X2_bytes_after_the_value_are_ignored _ _ _ _ _ _ _
              Hs Hopen Hbytes Hscan) as (HB & HU & _).
  split; [split; [exact Hs|exact Hopen]|].
  split; [exact Hbytes|]. split; [exact Hscan|].
  split; [exact HB|exact HU].
Defined.

(** ** X3, X4, X5: a body without a complete value *)

Lemma run_spaces b rest :
  json.nonSpace b = false ->
  json.run [] json.BeginValue (b +:+ rest) = json.run [] json.BeginValue rest.
Proof.
  induction b as [|c b IH]; [reflexivity|].
  cbn [json.nonSpace]. intros H. apply orb_false_iff in H as [Hc Hb].
  apply negb_false_iff in Hc.
  change (String c b +:+ rest) with (String c (b +:+ rest)).
  cbn [json.run json.step]. unfold json.beginValue. rewrite Hc.
  exact (IH Hb).
Qed.

Lemma firstValue_blank b :
  json.nonSpace b = false -> firstValue b None = inr io.EOF.
Proof.
  intros H. unfold firstValue, json.scan.
  rewrite <- (str_app_nil_r b) at 1. rewrite !run_spaces by exact H.
  cbn. rewrite H. reflexivity.
Qed.

(** X3.  A body that ends cleanly and holds no value -- no byte at all,
    or white space only, in whatever chunks -- is an error: with status
    200 the two JSON decoders return [io.EOF] as it is; with any other
    status the three decoders return an [APIError] with the status code
    and a nil [Response]. *)
Theorem X3_body_without_a_value
  (res : http.Response) (h : io.heap) (s : io.stream) :
  h !! http.Body res = Some s -> io.closed s = false ->
  io.failure s = None ->
  json.nonSpace (io.bytes (io.chunks s)) = false ->
  (http.StatusCode res = http.StatusOK ->
   fst (decodeToBasicResponse res h) = (None, Some io.EOF)
   /\ fst (decodeToUserProfileResponse res h) = (None, Some io.EOF))
  /\ (http.StatusCode res <> http.StatusOK ->
      let apiError := newAPIError (http.StatusCode res) None in
      fst (decodeToBasicResponse res h) = (None, Some apiError)
      /\ fst (decodeToUserProfileResponse res h) = (None, Some apiError)
      /\ fst (decodeToMessageContentResponse res h) = (None, Some apiError)).
Proof.
  intros Hs Hopen Hclean Hblank.
  apply (decoders_on_read_error res h s io.EOF Hs Hopen).
  rewrite Hclean. apply firstValue_blank. exact Hblank.
Qed.

Lemma X3_body_without_a_value_witness :
  let s := io.Stream [" "; ""; String (ascii_of_N 10) ""] None false in
  let h : io.heap := {[ body := s ]} in
  (h !! body = Some s /\ io.closed s = false)
  /\ io.failure s = None
  /\ json.nonSpace (io.bytes (io.chunks s)) = false
  /\ fst (decodeToBasicResponse (response 200 ∅) h)
     = (None, Some (errorString "EOF"))
  /\ fst (decodeToUserProfileResponse (response 200 ∅) h)
     = (None, Some (errorString "EOF"))
  /\ fst (decodeToMessageContentResponse (response 204 ∅) h)
     = (None, Some (newAPIError 204 None)).
Proof.
  cbv zeta.
  set (s := io.Stream [" "; ""; String (ascii_of_N 10) ""] None false).
  assert (Hs : forall code,
             ({[ body := s ]} : io.heap) !! http.Body (response code ∅)
             = Some s) by reflexivity.
  assert (Hopen : io.closed s = false) by reflexivity.
  assert (Hclean : io.failure s = None) by reflexivity.
  assert (Hblank : json.nonSpace (io.bytes (io.chunks s)) = false)
    by reflexivity.
  destruct (X3_body_without_a_value (response 200 ∅) _ _
              (Hs 200%Z) Hopen Hclean Hblank) as [H200 _].
  destruct (X3_body_without_a_value (response 204 ∅) _ _
              (Hs 204%Z) Hopen Hclean Hblank) as [_ H204].
  destruct (H200 eq_refl) as [HB HU].
  assert (Hc : http.StatusCode (response 204 ∅) <> http.StatusOK)
    by discriminate.
  destruct (H204 Hc) as (_ & _ & HC).
  split; [split; [exact (Hs 200%Z)|exact Hopen]|].
  split; [exact Hclean|]. split; [exact Hblank|].
  split; [exact HB|]. split; [exact HU|exact HC].
Defined.

(** X4.  A body that ends cleanly in the middle of a value -- the bytes
    are not white space only, and even the end of the stream does not
    complete a value -- is an error: with status 200 the two JSON
    decoders return [io.ErrUnexpectedEOF]; with any other status the
    three decoders return an [APIError] with a nil [Response]. *)
Theorem X4_truncated_body
  (res : http.Response) (h : io.heap) (s : io.stream) :
  h !! http.Body res = Some s -> io.closed s = false ->
  io.failure s = None ->
  json.scan (io.bytes (io.chunks s) +:+ " ") = json.NeedMore ->
  json.nonSpace (io.bytes (io.chunks s)) = true ->
  (http.StatusCode res = http.StatusOK ->
   fst (decodeToBasicResponse res h) = (None, Some io.ErrUnexpectedEOF)
   /\ fst (decodeToUserProfileResponse res h)
      = (None, Some io.ErrUnexpectedEOF))
  /\ (http.StatusCode res <> http.StatusOK ->
      let apiError := newAPIError (http.StatusCode res) None in
      fst (decodeToBasicResponse res h) = (None, Some apiError)
      /\ fst (decodeToUserProfileResponse res h) = (None, Some apiError)
      /\ fst (decodeToMessageContentResponse res h) = (None, Some apiError)).
Proof.
  intros Hs Hopen Hclean Hscan Hsome.
  apply (decoders_on_read_error res h s io.ErrUnexpectedEOF Hs Hopen).
  unfold firstValue. rewrite Hclean, Hscan, Hsome.
  destruct (json.scan (io.bytes (io.chunks s))) as [v rest| |] eqn:Hb.
  - unfold json.scan in *.
    rewrite (run_app_Value _ _ _ " " _ _ Hb) in Hscan. discriminate.
  - unfold json.scan in *.
    rewrite (run_app_Malformed _ _ _ " " Hb) in Hscan. discriminate.
  - reflexivity.
Qed.

Lemma X4_truncated_body_witness :
  let s := io.Stream [js "{'requestId':"; js "'f70dd6"] None false in
  let h : io.heap := {[ body := s ]} in
  (h !! body = Some s /\ io.closed s = false)
  /\ io.failure s = None
  /\ json.scan (io.bytes (io.chunks s) +:+ " ") = json.NeedMore
  /\ json.nonSpace (io.bytes (io.chunks s)) = true
  /\ fst (decodeToBasicResponse (response 200 ∅) h)
     = (None, Some (errorString "unexpected EOF"))
  /\ fst (decodeToUserProfileResponse (response 200 ∅) h)
     = (None, Some (errorString "unexpected EOF"))
  /\ fst (decodeToBasicResponse (response 500 ∅) h)
     = (None, Some (newAPIError 500 None)).
Proof.
  cbv zeta.
  set (s := io.Stream [js "{'requestId':"; js "'f70dd6"] None false).
  assert (Hs : forall code,
             ({[ body := s ]} : io.heap) !! http.Body (response code ∅)
             = Some s) by reflexivity.
  assert (Hopen : io.closed s = false) by reflexivity.
  assert (Hclean : io.failure s = None) by reflexivity.
  assert (Hscan : json.scan (io.bytes (io.chunks s) +:+ " ") = json.NeedMore)
    by reflexivity.
  assert (Hsome : json.nonSpace (io.bytes (io.chunks s)) = true)
    by reflexivity.
  destruct (X4_truncated_body (response 200 ∅) _ _
              (Hs 200%Z) Hopen Hclean Hscan Hsome) as [H200 _].
  destruct (X4_truncated_body (response 500 ∅) _ _
              (Hs 500%Z) Hopen Hclean Hscan Hsome) as [_ H500].
  destruct (H200 eq_refl) as [HB HU].
  assert (Hc : http.StatusCode (response 500 ∅) <> http.StatusOK)
    by discriminate.
  destruct (H500 Hc) as (HE & _ & _).
  split; [split; [exact (Hs 200%Z)|exact Hopen]|].
  split; [exact Hclean|]. split; [exact Hscan|]. split; [exact Hsome|].
  split; [exact HB|]. split; [exact HU|exact HE].
Defined.

(** X5.  When the stream fails before the bytes read hold a value (and
    before they are invalid), the error of the transport is what reading
    gives: with status 200 the two JSON decoders return that error as it
    is; with any other status it is dropped, and the three decoders
    return an [APIError] with the status code and a nil [Response]. *)
Theorem X5_transport_failure_before_the_value
  (res : http.Response) (h : io.heap) (s : io.stream) (msg : string) :
  h !! http.Body res = Some s -> io.closed s = false ->
  io.failure s = Some msg ->
  json.scan (io.bytes (io.chunks s)) = json.NeedMore ->
  (http.StatusCode res = http.StatusOK ->
   fst (decodeToBasicResponse res h) = (None, Some (TransportError msg))
   /\ fst (decodeToUserProfileResponse res h)
      = (None, Some (TransportError msg)))
  /\ (http.StatusCode res <> http.StatusOK ->
      let apiError := newAPIError (http.StatusCode res) None in
      fst (decodeToBasicResponse res h) = (None, Some apiError)
      /\ fst (decodeToUserProfileResponse res h) = (None, Some apiError)
      /\ fst (decodeToMessageContentResponse res h) = (None, Some apiError)).
Proof.
  intros Hs Hopen Hfail Hscan.
  apply (decoders_on_read_error res h s (TransportError msg) Hs Hopen).
  unfold firstValue. rewrite Hscan, Hfail. reflexivity.
Qed.

Lemma X5_transport_failure_before_the_value_witness :
  let s := io.Stream [js "{'userId':'U0cc15"; js "697597f"]
             (Some "read: connection reset by peer") false in
  let h : io.heap := {[ body := s ]} in
  (h !! body = Some s /\ io.closed s = false)
  /\ io.failure s = Some "read: connection reset by peer"
  /\ json.scan (io.bytes (io.chunks s)) = json.NeedMore
  /\ fst (decodeToBasicResponse (response 200 ∅) h)
     = (None, Some (TransportError "read: connection reset by peer"))
  /\ fst (decodeToUserProfileResponse (response 200 ∅) h)
     = (None, Some (TransportError "read: connection reset by peer"))
  /\ fst (decodeToUserProfileResponse (response 502 ∅) h)
     = (None, Some (newAPIError 502 None)).
Proof.
  cbv zeta.
  set (s := io.Stream [js "{'userId':'U0cc15"; js "697597f"]
              (Some "read: connection reset by peer") false).
  assert (Hs : forall code,
             ({[ body := s ]} : io.heap) !! http.Body (response code ∅)
             = Some s) by reflexivity.
  assert (Hopen : io.closed s = false) by reflexivity.
  assert (Hfail : io.failure s = Some "read: connection reset by peer")
    by reflexivity.
  assert (Hscan : json.scan (io.bytes (io.chunks s)) = json.NeedMore)
    by reflexivity.
  destruct (X5_transport_failure_before_the_value (response 200 ∅) _ _ _
              (Hs 200%Z) Hopen Hfail Hscan) as [H200 _].
  destruct (X5_transport_failure_before_the_value (response 502 ∅) _ _ _
              (Hs 502%Z) Hopen Hfail Hscan) as [_ H502].
  destruct (H200 eq_refl) as [HB HU].
  assert (Hc : http.StatusCode (response 502 ∅) <> http.StatusOK)
    by discriminate.
  destruct (H502 Hc) as (_ & HE & _).
  split; [split; [exact (Hs 200%Z)|exact Hopen]|].
  split; [exact Hfail|]. split; [exact Hscan|].
  split; [exact HB|]. split; [exact HU|exact HE].
Defined.

(** ** X6: a body that is already closed *)

Lemma readValue_closed (r : io.ReadCloser) (h : io.heap) :
  (forall s, h !! r = Some s -> io.closed s = true) ->
  json.readValue (json.NewDecoder r) h
  = (inr (io.errReadOnClosedResBody,
          {| json.r := r; json.buf := "";
             json.err := Some io.errReadOnClosedResBody |}), h).
Proof.
  intros Hclosed. unfold json.readValue, json.pending, json.consumed.
  cbn [json.err json.NewDecoder json.r json.buf].
  destruct (h !! r) as [s|] eqn:Hs.
  - rewrite (Hclosed s eq_refl). reflexivity.
  - reflexivity.
Qed.

(** X6.  When the body has been closed before the decoder is called (or
    is no live stream at all), reading it fails at once and nothing
    changes: with status 200 the two JSON decoders return the error of
    the read, the [errReadOnClosedResBody] of [net/http] with the text
    "http: read on closed response body"; with any other status the
    three decoders return an [APIError] with a nil [Response]. *)
Theorem X6_body_closed_before_decoding
  (res : http.Response) (h : io.heap) :
  (forall s, h !! http.Body res = Some s -> io.closed s = true) ->
  (http.StatusCode res = http.StatusOK ->
   decodeToBasicResponse res h = ((None, Some io.errReadOnClosedResBody), h)
   /\ decodeToUserProfileResponse res h
      = ((None, Some io.errReadOnClosedResBody), h))
  /\ (http.StatusCode res <> http.StatusOK ->
      let apiError := newAPIError (http.StatusCode res) None in
      decodeToBasicResponse res h = ((None, Some apiError), h)
      /\ decodeToUserProfileResponse res h = ((None, Some apiError), h)
      /\ decodeToMessageContentResponse res h = ((None, Some apiError), h)).
Proof.
  intros Hclosed.
  pose proof (readValue_closed (http.Body res) h Hclosed) as HR.
  assert (HD : forall T (into : json.store T) target,
             json.Decode into (json.NewDecoder (http.Body res)) target h
             = ((target, Some io.errReadOnClosedResBody,
                 {| json.r := http.Body res; json.buf := "";
                    json.err := Some io.errReadOnClosedResBody |}), h)).
  { intros T into target. unfold json.Decode, io.bind. rewrite HR. reflexivity. }
  split; intros Hc.
  - rewrite (decodeToBasicResponse_OK res h _ _ _ _ Hc (HD _ _ _)),
      (decodeToUserProfileResponse_OK res h _ _ _ _ Hc (HD _ _ _)).
    split; reflexivity.
  - intros apiError.
    rewrite decodeToBasicResponse_error, decodeToUserProfileResponse_error,
      decodeToMessageContentResponse_error by exact Hc.
    rewrite !(decodeError_eq res _ h _ _ _ _ (HD _ _ _)).
    repeat split.
Qed.

Lemma X6_body_closed_before_decoding_witness :
  let s := io.Stream [js "{'requestId':'r1'}"] None true in
  let h : io.heap := {[ body := s ]} in
  (forall s', h !! body = Some s' -> io.closed s' = true)
  /\ decodeToBasicResponse (response 200 ∅) h
     = ((None,
         Some (TransportError "http: read on closed response body")), h)
  /\ decodeToUserProfileResponse (response 200 ∅) h
     = ((None,
         Some (TransportError "http: read on closed response body")), h)
  /\ decodeToMessageContentResponse (response 404 ∅) h
     = ((None, Some (newAPIError 404 None)), h).
Proof.
  cbv zeta.
  set (s := io.Stream [js "{'requestId':'r1'}"] None true).
  assert (Hclosed : forall code s',
             ({[ body := s ]} : io.heap) !! http.Body (response code ∅)
             = Some s' -> io.closed s' = true).
  { intros code s' Hs'.
    change (Some s = Some s') in Hs'. injection Hs' as <-. reflexivity. }
  destruct (X6_body_closed_before_decoding (response 200 ∅) _ (Hclosed 200%Z))
    as [H200 _].
  destruct (X6_body_closed_before_decoding (response 404 ∅) _ (Hclosed 404%Z))
    as [_ H404].
  destruct (H200 eq_refl) as [HB HU].
  assert (Hc : http.StatusCode (response 404 ∅) <> http.StatusOK)
    by discriminate.
  destruct (H404 Hc) as (_ & _ & HC).
  split; [exact (Hclosed 200%Z)|].
  split; [exact HB|]. split; [exact HU|exact HC].
Defined.

(** ** X7: the decoders only read *)

Lemma onlyRead_refl r (h : io.heap) : onlyRead r h h.
Proof.
  split; [reflexivity|].
  destruct (h !! r) as [s|] eqn:Hs; [|reflexivity].
  exists s, []. auto.
Qed.

(** The chunks the loop of [readValue] leaves unread are the last ones. *)
Lemma refill_unread chunks : forall buf,
  match json.refill buf chunks with
  | json.Found _ _ u | json.SyntaxErr _ u =>
    exists read, chunks = (read ++ u)%list
  | json.Starved _ => True
  end.
Proof.
  induction chunks as [|c cs IH]; intros buf; cbn [json.refill].
  - destruct (json.scan buf); [exists []; reflexivity ..|exact I].
  - destruct (json.scan buf); [exists []; reflexivity ..|].
    specialize (IH (buf +:+ c)).
    destruct (json.refill (buf +:+ c) cs); [| |exact I];
      destruct IH as [read ->]; exists (c :: read); reflexivity.
Qed.

Lemma onlyRead_consumed r (h : io.heap) unread :
  (forall s, h !! r = Some s -> io.closed s = false ->
             exists read, io.chunks s = (read ++ unread)%list) ->
  onlyRead r h (json.consumed r unread h).
Proof.
  intros Hu. unfold json.consumed.
  destruct (h !! r) as [s|] eqn:Hs; [|apply onlyRead_refl].
  destruct (io.closed s) eqn:Hc; [apply onlyRead_refl|].
  split.
  - intros r' Hr. apply lookup_insert_ne. congruence.
  - rewrite Hs. destruct (Hu s eq_refl Hc) as [read Hread].
    exists (io.Stream unread (io.failure s) false), read.
    rewrite lookup_insert_eq. cbn. auto.
Qed.

Lemma onlyRead_readValue r (h : io.heap) :
  onlyRead r h (snd (json.readValue (json.NewDecoder r) h)).
Proof.
  unfold json.readValue, json.pending.
  cbn [json.err json.NewDecoder json.r json.buf].
  destruct (h !! r) as [s|] eqn:Hs.
  - destruct (io.closed s) eqn:Hc.
    + assert (Hsame : forall u, json.consumed r u h = h).
      { intros u. unfold json.consumed. rewrite Hs, Hc. reflexivity. }
      change (json.refill "" []) with (json.Starved "").
      cbn [json.error_is io.errReadOnClosedResBody snd].
      rewrite Hsame. apply onlyRead_refl.
    + pose proof (refill_unread (io.chunks s) "") as Hu.
      assert (Hstream : forall s0, h !! r = Some s0 -> io.chunks s0 = io.chunks s)
        by (intros s0 Hs0; congruence).
      destruct (json.refill "" (io.chunks s)) as [v rest u|b u|b]; cbn [snd].
      * apply onlyRead_consumed. intros s0 Hs0 _.
        rewrite (Hstream s0 Hs0). exact Hu.
      * apply onlyRead_consumed. intros s0 Hs0 _.
        rewrite (Hstream s0 Hs0). exact Hu.
      * assert (Hall : onlyRead r h (json.consumed r [] h)).
        { apply onlyRead_consumed. intros s0 _ _. exists (io.chunks s0).
          rewrite app_nil_r. reflexivity. }
        destruct (json.error_is _ _); [destruct (json.scan _)|]; exact Hall.
  - assert (Hsame : forall u, json.consumed r u h = h).
    { intros u. unfold json.consumed. rewrite Hs. reflexivity. }
    change (json.refill "" []) with (json.Starved "").
    cbn [json.error_is io.errReadOnClosedResBody snd].
    rewrite Hsame. apply onlyRead_refl.
Qed.

Lemma onlyRead_Decode {T} (into : json.store T) target r (h : io.heap) :
  onlyRead r h (snd (json.Decode into (json.NewDecoder r) target h)).
Proof.
  pose proof (onlyRead_readValue r h) as H.
  unfold json.Decode, io.bind.
  destruct (json.readValue (json.NewDecoder r) h) as [[[v dec']|[e dec']] h'].
  - destruct (into v target None). exact H.
  - exact H.
Qed.

Lemma onlyRead_decodeError {T} res (h : io.heap) :
  onlyRead (http.Body res) h
    (snd (@decodeError T res (json.NewDecoder (http.Body res)) h)).
Proof.
  pose proof (onlyRead_Decode store_ErrorResponse ErrorResponse.zero
                (http.Body res) h) as H.
  destruct (json.Decode store_ErrorResponse (json.NewDecoder (http.Body res))
              ErrorResponse.zero h) as [[[result err] dec'] h'] eqn:HD.
  rewrite (decodeError_eq res _ h result err dec' h' HD). exact H.
Qed.

(** X7.  The decoders never close the body and touch no other stream.
    For every response and every state of the streams, all a decoder
    does to them is to read chunks from the front of the body of the
    response: the body stays open if it was open, closed if it was
    closed, ends as before and has lost only some of its first chunks.
    With status 200 the content decoder does not even read: it leaves
    every stream exactly as it is. *)
Theorem X7_decoders_only_read (res : http.Response) (h : io.heap) :
  onlyRead (http.Body res) h (snd (decodeToBasicResponse res h))
  /\ onlyRead (http.Body res) h (snd (decodeToUserProfileResponse res h))
  /\ onlyRead (http.Body res) h (snd (decodeToMessageContentResponse res h))
  /\ (http.StatusCode res = http.StatusOK ->
      snd (decodeToMessageContentResponse res h) = h).
Proof.
  destruct (Z.eq_dec (http.StatusCode res) http.StatusOK) as [Hc|Hc].
  - assert (HC : snd (decodeToMessageContentResponse res h) = h).
    { destruct (mime.ParseMediaType
                  (http.Get (http.Header res) "Content-Disposition"))
        as [[mediatype params] err] eqn:HP.
      rewrite (decodeToMessageContentResponse_OK res h _ _ _ Hc HP).
      reflexivity. }
    split; [|split; [|split; [rewrite HC; apply onlyRead_refl|intros _; exact HC]]].
    + pose proof (onlyRead_Decode store_BasicResponse BasicResponse.zero
                    (http.Body res) h) as H.
      destruct (json.Decode store_BasicResponse _ _ h)
        as [[[result err] dec'] h'] eqn:HD.
      rewrite (decodeToBasicResponse_OK res h result err dec' h' Hc HD). exact H.
    + pose proof (onlyRead_Decode store_UserProfileResponse
                    UserProfileResponse.zero (http.Body res) h) as H.
      destruct (json.Decode store_UserProfileResponse _ _ h)
        as [[[result err] dec'] h'] eqn:HD.
      rewrite (decodeToUserProfileResponse_OK res h result err dec' h' Hc HD).
      exact H.
  - rewrite decodeToBasicResponse_error, decodeToUserProfileResponse_error,
      decodeToMessageContentResponse_error by exact Hc.
    split; [|split; [|split]]; try apply onlyRead_decodeError.
    intros Hc'. contradiction.
Qed.

(** ** X8: the fields of a profile *)

(** One member of an object, stored into a profile. *)
Lemma profile_member r m :
  fitsString UserProfileResponse_fields m = true ->
  json.member UserProfileResponse_fields (r, None) m
  = (let now name old := memberString UserProfileResponse_fields name old m in
     {| UserProfileResponse.RequestID :=
          now "requestId" (UserProfileResponse.RequestID r);
        UserProfileResponse.UserID :=
          now "userId" (UserProfileResponse.UserID r);
        UserProfileResponse.DisplayName :=
          now "displayName" (UserProfileResponse.DisplayName r);
        UserProfileResponse.PicutureURL :=
          now "pictureUrl" (UserProfileResponse.PicutureURL r);
        UserProfileResponse.StatusMessage :=
          now "statusMessage" (UserProfileResponse.StatusMessage r) |}, None).
Proof.
  unfold json.member, memberString, selects, fitsString. cbv zeta.
  destruct (json.findField UserProfileResponse_fields (fst m)) as [f|] eqn:Hf.
  - apply findField_In in Hf. cbn [fst snd].
    destruct r as [R U D P S].
    destruct Hf as [<-|[<-|[<-|[<-|[<-|[]]]]]];
      destruct (snd m); intros Hfit; try discriminate Hfit; reflexivity.
  - intros _. destruct r; reflexivity.
Qed.

Lemma profile_members ms : forall r,
  Forall (fun m => fitsString UserProfileResponse_fields m = true) ms ->
  fold_left (json.member UserProfileResponse_fields) ms (r, None)
  = (let last name old :=
       fold_left (memberString UserProfileResponse_fields name) ms old in
     {| UserProfileResponse.RequestID :=
          last "requestId" (UserProfileResponse.RequestID r);
        UserProfileResponse.UserID :=
          last "userId" (UserProfileResponse.UserID r);
        UserProfileResponse.DisplayName :=
          last "displayName" (UserProfileResponse.DisplayName r);
        UserProfileResponse.PicutureURL :=
          last "pictureUrl" (UserProfileResponse.PicutureURL r);
        UserProfileResponse.StatusMessage :=
          last "statusMessage" (UserProfileResponse.StatusMessage r) |}, None).
Proof.
  induction ms as [|m ms IH]; intros r Hfit.
  - destruct r; reflexivity.
  - apply Forall_cons in Hfit as [Hm Hms]. cbn [fold_left].
    rewrite (profile_member r m Hm). cbv zeta.
    rewrite (IH _ Hms). reflexivity.
Qed.

(** X8.  With status 200 and a body whose first value is an object, each
    field of the profile that [decodeToUserProfileResponse] returns is the
    string of the last member that selects the field -- by its exact JSON
    name ([requestId], [userId], [displayName], [pictureUrl],
    [statusMessage]) or by that name in another case -- and holds a
    string; a field no such member is given for is the empty string.
    Members with other keys are skipped, and [null] changes nothing.
    (Every member for a field holds a string or [null] here; X11 is the
    other case.) *)
Theorem X8_profile_fields_from_object
  (res : http.Response) (h : io.heap) (s : io.stream)
  (ms : list (string * json.value)) (rest : string) :
  http.StatusCode res = http.StatusOK ->
  h !! http.Body res = Some s -> io.closed s = false ->
  json.scan (io.bytes (io.chunks s)) = json.Value (json.JObject ms) rest ->
  Forall (fun m => fitsString UserProfileResponse_fields m = true) ms ->
  let last name := lastString UserProfileResponse_fields name ms in
  fst (decodeToUserProfileResponse res h)
  = (Some {| UserProfileResponse.RequestID := last "requestId";
             UserProfileResponse.UserID := last "userId";
             UserProfileResponse.DisplayName := last "displayName";
             UserProfileResponse.PicutureURL := last "pictureUrl";
             UserProfileResponse.StatusMessage := last "statusMessage" |},
     None).
Proof.
  intros Hc Hs Hopen Hscan Hfit last.
  rewrite (decodeToUserProfileResponse_open res h s Hs Hopen).
  rewrite status_eqb_OK by exact Hc.
  unfold firstValue. rewrite Hscan. cbn [decoded].
  unfold store_UserProfileResponse, json.store_struct.
  rewrite (profile_members ms _ Hfit). reflexivity.
Qed.

Lemma X8_profile_fields_from_object_witness :
  let res := response 200 ∅ in
  let s :=
    io.Stream
      [js "{'userId':'U1','displayName':'Brown','pictureUrl':'http://x/p.png',";
       js "'statusMessage':null,'language':['ja'],'DISPLAYNAME':'Cony'}"]
      None false in
  let h : io.heap := {[ body := s ]} in
  let ms :=
    [("userId", json.JString "U1");
     ("displayName", json.JString "Brown");
     ("pictureUrl", json.JString "http://x/p.png");
     ("statusMessage", json.JNull);
     ("language", json.JArray [json.JString "ja"]);
     ("DISPLAYNAME", json.JString "Cony")] in
  http.StatusCode res = http.StatusOK
  /\ (h !! http.Body res = Some s /\ io.closed s = false)
  /\ json.scan (io.bytes (io.chunks s)) = json.Value (json.JObject ms) ""
  /\ Forall (fun m => fitsString UserProfileResponse_fields m = true) ms
  /\ fst (decodeToUserProfileResponse res h)
     = (Some {| UserProfileResponse.RequestID := "";
                UserProfileResponse.UserID := "U1";
                UserProfileResponse.DisplayName := "Cony";
                UserProfileResponse.PicutureURL := "http://x/p.png";
                UserProfileResponse.StatusMessage := "" |}, None).
Proof.
  cbv zeta.
  set (s := io.Stream
              [js "{'userId':'U1','displayName':'Brown','pictureUrl':'http://x/p.png',";
               js "'statusMessage':null,'language':['ja'],'DISPLAYNAME':'Cony'}"]
              None false).
  set (ms := [("userId", json.JString "U1");
              ("displayName", json.JString "Brown");
              ("pictureUrl", json.JString "http://x/p.png");
              ("statusMessage", json.JNull);
              ("language", json.JArray [json.JString "ja"]);
              ("DISPLAYNAME", json.JString "Cony")]).
  assert (Hc : http.StatusCode (response 200 ∅) = http.StatusOK)
    by reflexivity.
  assert (Hs : ({[ body := s ]} : io.heap) !! http.Body (response 200 ∅)
               = Some s) by reflexivity.
  assert (Hopen : io.closed s = false) by reflexivity.
  assert (Hscan : json.scan (io.bytes (io.chunks s))
                  = json.Value (json.JObject ms) "")
    by (vm_compute; reflexivity).
  assert (Hfit : Forall (fun m => fitsString UserProfileResponse_fields m = true)
                   ms)
    by (repeat constructor).
  split; [exact Hc|]. split; [split; [exact Hs|exact Hopen]|].
  split; [exact Hscan|]. split; [exact Hfit|].
  exact (X8_profile_fields_from_object _ _ _ _ _ Hc Hs Hopen Hscan Hfit).
Defined.

(** ** X9: an error body with nothing in it *)

Lemma members_unknown {S} (fields : list (string * json.store S)) ms acc :
  forallb (unknownKey fields) ms = true ->
  fold_left (json.member fields) ms acc = acc.
Proof.
  revert acc. induction ms as [|m ms IH]; intros acc H; [reflexivity|].
  cbn [forallb] in H. apply andb_true_iff in H as [Hm Hms].
  cbn [fold_left]. unfold json.member at 2. unfold unknownKey in Hm.
  destruct (json.findField fields (fst m)); [discriminate|].
  apply IH. exact Hms.
Qed.

Lemma store_struct_nothing {S} goType (fields : list (string * json.store S))
  v old saved :
  carriesNothing fields v = true ->
  json.store_struct goType fields v old saved = (old, saved).
Proof.
  destruct v; try discriminate; intros H; cbn [json.store_struct].
  - reflexivity.
  - apply members_unknown. exact H.
Qed.

(** X9.  With a status other than 200 and a body whose first value is
    [null], or an object none of whose keys selects a field of
    [ErrorResponse], the decode succeeds: the three decoders return an
    [APIError] with the status code whose [Response] is not nil but
    points to an [ErrorResponse] with empty [RequestID] and [Message] and
    nil [Details]. *)
Theorem X9_error_body_without_known_fields
  (res : http.Response) (h : io.heap) (s : io.stream)
  (v : json.value) (rest : string) :
  http.StatusCode res <> http.StatusOK ->
  h !! http.Body res = Some s -> io.closed s = false ->
  json.scan (io.bytes (io.chunks s)) = json.Value v rest ->
  carriesNothing ErrorResponse_fields v = true ->
  let apiError :=
    newAPIError (http.StatusCode res)
      (Some {| ErrorResponse.RequestID := ""; ErrorResponse.Message := "";
               ErrorResponse.Details := None |}) in
  fst (decodeToBasicResponse res h) = (None, Some apiError)
  /\ fst (decodeToUserProfileResponse res h) = (None, Some apiError)
  /\ fst (decodeToMessageContentResponse res h) = (None, Some apiError).
Proof.
  intros Hc Hs Hopen Hscan Hnothing apiError.
  rewrite (decodeToBasicResponse_open res h s Hs Hopen),
    (decodeToUserProfileResponse_open res h s Hs Hopen),
    (decodeToMessageContentResponse_open res h s Hs Hopen Hc).
  rewrite status_eqb_not_OK by exact Hc.
  unfold firstValue. rewrite Hscan. cbn [decoded].
  unfold store_ErrorResponse.
  rewrite (store_struct_nothing _ _ v _ _ Hnothing).
  repeat split.
Qed.

Lemma X9_error_body_without_known_fields_witness :
  let res := response 500 ∅ in
  let s := io.Stream [js "{'error':'Internal Server Error','status':500}"]
             None false in
  let h : io.heap := {[ body := s ]} in
  let v := json.JObject [("error", json.JString "Internal Server Error");
                         ("status", json.JNumber "500")] in
  let apiError :=
    newAPIError 500
      (Some {| ErrorResponse.RequestID := ""; ErrorResponse.Message := "";
               ErrorResponse.Details := None |}) in
  http.StatusCode res <> http.StatusOK
  /\ (h !! http.Body res = Some s /\ io.closed s = false)
  /\ json.scan (io.bytes (io.chunks s)) = json.Value v ""
  /\ carriesNothing ErrorResponse_fields v = true
  /\ fst (decodeToBasicResponse res h) = (None, Some apiError)
  /\ fst (decodeToUserProfileResponse res h) = (None, Some apiError)
  /\ fst (decodeToMessageContentResponse res h) = (None, Some apiError).
Proof.
  cbv zeta.
  set (s := io.Stream [js "{'error':'Internal Server Error','status':500}"]
              None false).
  set (v := json.JObject [("error", json.JString "Internal Server Error");
                          ("status", json.JNumber "500")]).
  assert (Hc : http.StatusCode (response 500 ∅) <> http.StatusOK)
    by discriminate.
  assert (Hs : ({[ body := s ]} : io.heap) !! http.Body (response 500 ∅)
               = Some s) by reflexivity.
  assert (Hopen : io.closed s = false) by reflexivity.
  assert (Hscan : json.scan (io.bytes (io.chunks s)) = json.Value v "")
    by (vm_compute; reflexivity).
  assert (Hnothing : carriesNothing ErrorResponse_fields v = true)
    by (vm_compute; reflexivity).
  split; [exact Hc|]. split; [split; [exact Hs|exact Hopen]|].
  split; [exact Hscan|]. split; [exact Hnothing|].
  exact (X9_error_body_without_known_fields _ _ _ _ _ Hc Hs Hopen Hscan Hnothing).
Defined.

(** ** X10, X11: JSON of the wrong kind in a success body *)

(** X10.  A first value that is neither an object nor [null] -- a string,
    a number, a boolean or an array -- does not fit a struct.  With
    status 200 the two JSON decoders return no value and the type error
    of [encoding/json], which names the kind of the value and the Go
    type; with any other status the three decoders return an [APIError]
    with a nil [Response]. *)
Theorem X10_success_body_of_another_kind
  (res : http.Response) (h : io.heap) (s : io.stream)
  (v : json.value) (rest : string) :
  h !! http.Body res = Some s -> io.closed s = false ->
  json.scan (io.bytes (io.chunks s)) = json.Value v rest ->
  structLike v = false ->
  (http.StatusCode res = http.StatusOK ->
   fst (decodeToBasicResponse res h)
   = (None, Some (UnmarshalTypeError (json.kind v) "linebot.BasicResponse"))
   /\ fst (decodeToUserProfileResponse res h)
      = (None,
         Some (UnmarshalTypeError (json.kind v) "linebot.UserProfileResponse")))
  /\ (http.StatusCode res <> http.StatusOK ->
      let apiError := newAPIError (http.StatusCode res) None in
      fst (decodeToBasicResponse res h) = (None, Some apiError)
      /\ fst (decodeToUserProfileResponse res h) = (None, Some apiError)
      /\ fst (decodeToMessageContentResponse res h) = (None, Some apiError)).
Proof.
  intros Hs Hopen Hscan Hkind.
  split; intros Hc.
  - rewrite (decodeToBasicResponse_open res h s Hs Hopen),
      (decodeToUserProfileResponse_open res h s Hs Hopen).
    rewrite status_eqb_OK by exact Hc.
    unfold firstValue. rewrite Hscan.
    destruct v; try discriminate Hkind; split; reflexivity.
  - intros apiError.
    rewrite (decodeToBasicResponse_open res h s Hs Hopen),
      (decodeToUserProfileResponse_open res h s Hs Hopen),
      (decodeToMessageContentResponse_open res h s Hs Hopen Hc).
    rewrite status_eqb_not_OK by exact Hc.
    unfold firstValue. rewrite Hscan.
    destruct v; try discriminate Hkind; repeat split.
Qed.

Lemma X10_success_body_of_another_kind_witness :
  let s := io.Stream [js "['ok', 1]"] None false in
  let h : io.heap := {[ body := s ]} in
  let v := json.JArray [json.JString "ok"; json.JNumber "1"] in
  (h !! body = Some s /\ io.closed s = false)
  /\ json.scan (io.bytes (io.chunks s)) = json.Value v ""
  /\ structLike v = false
  /\ fst (decodeToBasicResponse (response 200 ∅) h)
     = (None, Some (UnmarshalTypeError "array" "linebot.BasicResponse"))
  /\ fst (decodeToUserProfileResponse (response 200 ∅) h)
     = (None, Some (UnmarshalTypeError "array" "linebot.UserProfileResponse"))
  /\ fst (decodeToBasicResponse (response 400 ∅) h)
     = (None, Some (newAPIError 400 None)).
Proof.
  cbv zeta.
  set (s := io.Stream [js "['ok', 1]"] None false).
  set (v := json.JArray [json.JString "ok"; json.JNumber "1"]).
  assert (Hs : forall code,
             ({[ body := s ]} : io.heap) !! http.Body (response code ∅)
             = Some s) by reflexivity.
  assert (Hopen : io.closed s = false) by reflexivity.
  assert (Hscan : json.scan (io.bytes (io.chunks s)) = json.Value v "")
    by (vm_compute; reflexivity).
  assert (Hkind : structLike v = false) by reflexivity.
  destruct (X10_success_body_of_another_kind (response 200 ∅) _ _ _ _
              (Hs 200%Z) Hopen Hscan Hkind) as [H200 _].
  destruct (X10_success_body_of_another_kind (response 400 ∅) _ _ _ _
              (Hs 400%Z) Hopen Hscan Hkind) as [_ H400].
  destruct (H200 eq_refl) as [HB HU].
  assert (Hc : http.StatusCode (response 400 ∅) <> http.StatusOK)
    by discriminate.
  destruct (H400 Hc) as (HE & _ & _).
  split; [split; [exact (Hs 200%Z)|exact Hopen]|].
  split; [exact Hscan|]. split; [exact Hkind|].
  split; [exact HB|]. split; [exact HU|exact HE].
Defined.

Lemma stringFields_find {S} (fields : list (string * json.store S)) key f :
  stringFields fields -> json.findField fields key = Some f ->
  exists get set, snd f = field get set json.store_string.
Proof.
  intros Hall Hf. apply findField_In in Hf.
  unfold stringFields in Hall. rewrite List.Forall_forall in Hall.
  exact (Hall f Hf).
Qed.

(** A member that fits records no error. *)
Lemma member_fits {S} (fields : list (string * json.store S)) r saved m :
  stringFields fields -> fitsString fields m = true ->
  snd (json.member fields (r, saved) m) = saved.
Proof.
  intros Hall. unfold fitsString, json.member.
  destruct (json.findField fields (fst m)) as [f|] eqn:Hf; [|reflexivity].
  destruct (stringFields_find fields _ f Hall Hf) as (get & set & ->).
  cbn [fst snd]. unfold field.
  destruct (snd m); intros H; try discriminate H; reflexivity.
Qed.

Lemma members_fit {S} (fields : list (string * json.store S)) ms : forall acc,
  stringFields fields ->
  Forall (fun m => fitsString fields m = true) ms ->
  snd (fold_left (json.member fields) ms acc) = snd acc.
Proof.
  induction ms as [|m ms IH]; intros acc Hall Hfit; [reflexivity|].
  apply Forall_cons in Hfit as [Hm Hms]. cbn [fold_left].
  rewrite (IH _ Hall Hms). destruct acc as [r saved].
  apply member_fits; assumption.
Qed.

(** The first member that does not fit records its type error. *)
Lemma member_misfit {S} (fields : list (string * json.store S)) r m :
  stringFields fields -> fitsString fields m = false ->
  snd (json.member fields (r, None) m)
  = Some (UnmarshalTypeError (json.kind (snd m)) "string").
Proof.
  intros Hall. unfold fitsString, json.member.
  destruct (json.findField fields (fst m)) as [f|] eqn:Hf; [|discriminate].
  destruct (stringFields_find fields _ f Hall Hf) as (get & set & ->).
  cbn [fst snd]. unfold field.
  destruct (snd m); intros H; try discriminate H; reflexivity.
Qed.

(** An error that is recorded stays. *)
Lemma member_sticky {S} (fields : list (string * json.store S)) r e m :
  stringFields fields ->
  snd (json.member fields (r, Some e) m) = Some e.
Proof.
  intros Hall. unfold json.member.
  destruct (json.findField fields (fst m)) as [f|] eqn:Hf; [|reflexivity].
  destruct (stringFields_find fields _ f Hall Hf) as (get & set & ->).
  cbn [fst snd]. unfold field. destruct (snd m); reflexivity.
Qed.

Lemma members_sticky {S} (fields : list (string * json.store S)) ms :
  forall r e, stringFields fields ->
  snd (fold_left (json.member fields) ms (r, Some e)) = Some e.
Proof.
  induction ms as [|m ms IH]; intros r e Hall; [reflexivity|].
  cbn [fold_left].
  pose proof (member_sticky fields r e m Hall) as H.
  destruct (json.member fields (r, Some e) m) as [r' saved].
  cbn [snd] in H. subst saved. apply IH. exact Hall.
Qed.

Lemma first_misfit {S} goType (fields : list (string * json.store S))
  before m after old :
  stringFields fields ->
  Forall (fun m => fitsString fields m = true) before ->
  fitsString fields m = false ->
  snd (json.store_struct goType fields
         (json.JObject (before ++ m :: after)) old None)
  = Some (UnmarshalTypeError (json.kind (snd m)) "string").
Proof.
  intros Hall Hbefore Hm. cbn [json.store_struct].
  rewrite fold_left_app. cbn [fold_left].
  pose proof (members_fit fields before (old, None) Hall Hbefore) as H0.
  destruct (fold_left (json.member fields) before (old, None)) as [r0 saved0].
  cbn [snd] in H0. subst saved0.
  pose proof (member_misfit fields r0 m Hall Hm) as H1.
  destruct (json.member fields (r0, None) m) as [r1 saved1].
  cbn [snd] in H1. subst saved1.
  apply members_sticky. exact Hall.
Qed.

Lemma stringFields_BasicResponse : stringFields BasicResponse_fields.
Proof. repeat constructor; cbn [snd]; eauto. Qed.

Lemma stringFields_UserProfileResponse : stringFields UserProfileResponse_fields.
Proof. repeat constructor; cbn [snd]; eauto. Qed.

Lemma returned_error {T} (d : T * option error) e :
  snd d = Some e -> returned d = (None, Some e).
Proof. destruct d as [x saved]. cbn [snd]. intros ->. reflexivity. Qed.

(** X11.  With status 200 and a body whose first value is an object in
    which some member selects a field but holds neither a string nor
    [null], the whole decode fails: the decoder returns no value -- also
    not the fields that were given correctly -- and the type error for
    the first such member, which names the kind of its value and the type
    [string]. *)
Theorem X11_field_of_another_kind
  (res : http.Response) (h : io.heap) (s : io.stream)
  (before after : list (string * json.value)) (m : string * json.value)
  (rest : string) :
  http.StatusCode res = http.StatusOK ->
  h !! http.Body res = Some s -> io.closed s = false ->
  json.scan (io.bytes (io.chunks s))
    = json.Value (json.JObject (before ++ m :: after)) rest ->
  let typeError := UnmarshalTypeError (json.kind (snd m)) "string" in
  (Forall (fun m => fitsString BasicResponse_fields m = true) before ->
   fitsString BasicResponse_fields m = false ->
   fst (decodeToBasicResponse res h) = (None, Some typeError))
  /\ (Forall (fun m => fitsString UserProfileResponse_fields m = true) before ->
      fitsString UserProfileResponse_fields m = false ->
      fst (decodeToUserProfileResponse res h) = (None, Some typeError)).
Proof.
  intros Hc Hs Hopen Hscan typeError.
  split; intros Hbefore Hm.
  - rewrite (decodeToBasicResponse_open res h s Hs Hopen).
    rewrite status_eqb_OK by exact Hc.
    unfold firstValue. rewrite Hscan. cbn [decoded].
    apply returned_error.
    apply first_misfit; auto using stringFields_BasicResponse.
  - rewrite (decodeToUserProfileResponse_open res h s Hs Hopen).
    rewrite status_eqb_OK by exact Hc.
    unfold firstValue. rewrite Hscan. cbn [decoded].
    apply returned_error.
    apply first_misfit; auto using stringFields_UserProfileResponse.
Qed.

Lemma X11_field_of_another_kind_witness :
  let res := response 200 ∅ in
  let s := io.Stream [js "{'userId':'U1','requestId':12345,'displayName':'Brown'}"]
             None false in
  let h : io.heap := {[ body := s ]} in
  let before := [("userId", json.JString "U1")] in
  let m := ("requestId", json.JNumber "12345") in
  let after := [("displayName", json.JString "Brown")] in
  http.StatusCode res = http.StatusOK
  /\ (h !! http.Body res = Some s /\ io.closed s = false)
  /\ json.scan (io.bytes (io.chunks s))
     = json.Value (json.JObject (before ++ m :: after)) ""
  /\ (Forall (fun m => fitsString BasicResponse_fields m = true) before
      /\ fitsString BasicResponse_fields m = false)
  /\ (Forall (fun m => fitsString UserProfileResponse_fields m = true) before
      /\ fitsString UserProfileResponse_fields m = false)
  /\ fst (decodeToBasicResponse res h)
     = (None, Some (UnmarshalTypeError "number" "string"))
  /\ fst (decodeToUserProfileResponse res h)
     = (None, Some (UnmarshalTypeError "number" "string")).
Proof.
  cbv zeta.
  set (s := io.Stream
              [js "{'userId':'U1','requestId':12345,'displayName':'Brown'}"]
              None false).
  set (before := [("userId", json.JString "U1")]).
  set (m := ("requestId", json.JNumber "12345")).
  set (after := [("displayName", json.JString "Brown")]).
  assert (Hc : http.StatusCode (response 200 ∅) = http.StatusOK)
    by reflexivity.
  assert (Hs : ({[ body := s ]} : io.heap) !! http.Body (response 200 ∅)
               = Some s) by reflexivity.
  assert (Hopen : io.closed s = false) by reflexivity.
  assert (Hscan : json.scan (io.bytes (io.chunks s))
                  = json.Value (json.JObject (before ++ m :: after)) "")
    by (vm_compute; reflexivity).
  assert (HbB : Forall (fun m => fitsString BasicResponse_fields m = true) before)
    by (repeat constructor).
  assert (HmB : fitsString BasicResponse_fields m = false) by reflexivity.
  assert (HbU : Forall (fun m => fitsString UserProfileResponse_fields m = true)
                  before)
    by (repeat constructor).
  assert (HmU : fitsString UserProfileResponse_fields m = false) by reflexivity.
  destruct (X11_field_of_another_kind _ _ _ _ _ _ _ Hc Hs Hopen Hscan)
    as [HB HU].
  split; [exact Hc|]. split; [split; [exact Hs|exact Hopen]|].
  split; [exact Hscan|]. split; [split; [exact HbB|exact HmB]|].
  split; [split; [exact HbU|exact HmU]|].
  split; [exact (HB HbB HmB)|exact (HU HbU HmU)].
Defined.

(** ** X12, X13: the file name of a content response *)

Lemma consumeToken_token s :
  isToken s = true -> mime.consumeToken s = (s, "").
Proof.
  induction s as [|c s IH]; [reflexivity|].
  cbn [isToken mime.consumeToken]. intros H.
  apply andb_true_iff in H as [Hc Hs]. rewrite Hc, (IH Hs). reflexivity.
Qed.

Lemma tokenChar_not_space c s :
  mime.isTokenChar c = true ->
  gostrings.TrimLeftSpace (String c s) = String c s.
Proof.
  destruct c as [[] [] [] [] [] [] [] []]; intros H;
    first [discriminate H | reflexivity].
Qed.

Lemma tokenChar_not_quote c : mime.isTokenChar c = true -> byte_is c dq = false.
Proof.
  destruct c as [[] [] [] [] [] [] [] []]; intros H;
    first [discriminate H | reflexivity].
Qed.

Lemma quoted_quotable s rest :
  quotable s = true -> mime.quoted (s +:+ String dq rest) = Some (s, rest).
Proof.
  induction s as [|c s IH]; [reflexivity|].
  cbn [quotable]. intros H. apply andb_true_iff in H as [Hc Hs].
  apply negb_true_iff in Hc.
  apply orb_false_iff in Hc as [Hc Hlf].
  apply orb_false_iff in Hc as [Hc Hcr].
  apply orb_false_iff in Hc as [Hq Hb].
  change (String c s +:+ String dq rest) with (String c (s +:+ String dq rest)).
  cbn [mime.quoted]. rewrite Hq, Hb, Hcr, Hlf, (IH Hs). reflexivity.
Qed.

(** The one parameter [filename], given as a token or as a quoted
    string. *)
Lemma consumeMediaParam_filename value written :
  (written = value /\ isToken value = true /\ value <> "")
  \/ (written = String dq value +:+ String dq "" /\ quotable value = true) ->
  mime.consumeMediaParam ("; filename=" +:+ written)
  = Some ("filename", value, "").
Proof.
  intros Hvalue. unfold mime.consumeMediaParam.
  change (gostrings.TrimLeftSpace ("; filename=" +:+ written))
    with (String ";" (" filename=" +:+ written)).
  change (byte_is ";" ";") with true. cbv iota.
  change (gostrings.TrimLeftSpace (" filename=" +:+ written))
    with ("filename=" +:+ written).
  change (mime.consumeToken ("filename=" +:+ written))
    with ("filename", "=" +:+ written).
  cbv iota beta.
  change (gostrings.TrimLeftSpace ("=" +:+ written))
    with (String "=" written).
  change (byte_is "=" "=") with true. cbv iota.
  change (gostrings.ToLower "filename") with "filename".
  destruct Hvalue as [(-> & Htoken & Hsome)|(-> & Hq)].
  - destruct value as [|c value]; [contradiction|].
    cbn [isToken] in Htoken. apply andb_true_iff in Htoken as [Hc Hrest].
    rewrite (tokenChar_not_space c value Hc).
    unfold mime.consumeValue. rewrite (tokenChar_not_quote c Hc).
    rewrite (consumeToken_token (String c value)); [reflexivity|].
    cbn [isToken]. rewrite Hc, Hrest. reflexivity.
  - change (gostrings.TrimLeftSpace (String dq value +:+ String dq ""))
      with (String dq (value +:+ String dq "")).
    unfold mime.consumeValue. change (byte_is dq dq) with true. cbv iota.
    rewrite (quoted_quotable value "" Hq).
    rewrite andb_false_r. reflexivity.
Qed.

Lemma ParseMediaType_filename value written :
  (written = value /\ isToken value = true /\ value <> "")
  \/ (written = String dq value +:+ String dq "" /\ quotable value = true) ->
  mime.ParseMediaType ("attachment; filename=" +:+ written)
  = ("attachment", {[ "filename" := value ]}, None).
Proof.
  intros Hvalue. unfold mime.ParseMediaType.
  change (gostrings.Cut ";" ("attachment; filename=" +:+ written))
    with (Some ("attachment", " filename=" +:+ written)).
  cbv iota beta.
  change (str_drop (String.length "attachment")
            ("attachment; filename=" +:+ written))
    with ("; filename=" +:+ written).
  change (gostrings.TrimSpace (gostrings.ToLower "attachment"))
    with "attachment".
  change (mime.checkMediaTypeDisposition "attachment") with (@None error).
  cbv iota.
  change (String.length ("; filename=" +:+ written))
    with (S (String.length (" filename=" +:+ written))).
  cbn [mime.parseParams].
  change (gostrings.TrimLeftSpace ("; filename=" +:+ written))
    with ("; filename=" +:+ written).
  change ("; filename=" +:+ written)
    with (String ";" (" filename=" +:+ written)) at 1.
  cbv iota.
  change (String ";" (" filename=" +:+ written))
    with ("; filename=" +:+ written).
  rewrite (consumeMediaParam_filename value written Hvalue).
  change (gostrings.Cut "*" "filename") with (@None (string * string)).
  cbv iota. unfold mime.clash. rewrite lookup_empty.
  reflexivity.
Qed.

(** X12.  With status 200 and the header
    [Content-Disposition: attachment; filename=...], the content decoder
    returns the file name as it is written, for every name: a name given
    as a token (a non-empty text of token characters) is returned
    unchanged, and so is a name given between double quotes that has no
    double quote, backslash or line break in it -- spaces, brackets and
    semicolons included.  The body is not touched. *)
Theorem X12_file_name_as_written
  (res : http.Response) (h : io.heap) (name written : string) :
  http.StatusCode res = http.StatusOK ->
  http.Get (http.Header res) "Content-Disposition"
    = "attachment; filename=" +:+ written ->
  (written = name /\ isToken name = true /\ name <> "")
  \/ (written = String dq name +:+ String dq "" /\ quotable name = true) ->
  decodeToMessageContentResponse res h
  = ((Some {| MessageContentResponse.Content := http.Body res;
              MessageContentResponse.FileName := name |}, None), h).
Proof.
  intros Hc Hheader Hname.
  pose proof (ParseMediaType_filename name written Hname) as HP.
  rewrite <- Hheader in HP.
  rewrite (decodeToMessageContentResponse_OK res h _ _ _ Hc HP).
  rewrite lookup_singleton_eq. reflexivity.
Qed.

Lemma X12_file_name_as_written_witness :
  let written := js "'summer; photo (1).png'" in
  let res := contentResponse ("attachment; filename=" +:+ written) in
  let h := bodyHeap ["PNG"] in
  http.StatusCode res = http.StatusOK
  /\ http.Get (http.Header res) "Content-Disposition"
     = "attachment; filename=" +:+ written
  /\ (written = String dq "summer; photo (1).png" +:+ String dq ""
      /\ quotable "summer; photo (1).png" = true)
  /\ decodeToMessageContentResponse res h
     = ((Some {| MessageContentResponse.Content := body;
                 MessageContentResponse.FileName := "summer; photo (1).png" |},
         None), h).
Proof.
  cbv zeta.
  set (written := js "'summer; photo (1).png'").
  assert (Hc : http.StatusCode
                 (contentResponse ("attachment; filename=" +:+ written))
               = http.StatusOK) by reflexivity.
  assert (Hheader : http.Get
                      (http.Header
                         (contentResponse ("attachment; filename=" +:+ written)))
                      "Content-Disposition"
                    = "attachment; filename=" +:+ written)
    by (vm_compute; reflexivity).
  assert (Hname : written = String dq "summer; photo (1).png" +:+ String dq ""
                  /\ quotable "summer; photo (1).png" = true)
    by (split; reflexivity).
  split; [exact Hc|]. split; [exact Hheader|]. split; [exact Hname|].
  exact (X12_file_name_as_written _ (bodyHeap ["PNG"]) _ _ Hc Hheader
           (or_intror Hname)).
Defined.

(** X13.  The content decoder looks the header up under the one key
    [Content-Disposition], the canonical form of the name.  With status
    200, when the header map has no entry under that key, or an entry
    without values, or one whose first value is empty, the decoder
    returns no value and exactly [mime.ErrNoMediaType], and leaves the
    body alone. *)
Theorem X13_no_content_disposition
  (res : http.Response) (h : io.heap) :
  http.StatusCode res = http.StatusOK ->
  http.Header res !! "Content-Disposition" = None
  \/ http.Header res !! "Content-Disposition" = Some []
  \/ (exists others,
        http.Header res !! "Content-Disposition" = Some ("" :: others)) ->
  decodeToMessageContentResponse res h
  = ((None, Some mime.ErrNoMediaType), h).
Proof.
  intros Hc Hmissing.
  assert (Hget : http.Get (http.Header res) "Content-Disposition" = "").
  { unfold http.Get.
    change (http.CanonicalMIMEHeaderKey "Content-Disposition")
      with "Content-Disposition".
    destruct Hmissing as [->|[->|[others ->]]]; reflexivity. }
  rewrite (decodeToMessageContentResponse_OK res h "" ∅
             (Some mime.ErrNoMediaType) Hc); [reflexivity|].
  rewrite Hget. reflexivity.
Qed.

Lemma X13_no_content_disposition_witness :
  let res :=
    response 200 {[ "content-disposition" := ["attachment; filename=a.png"] ]} in
  let h := bodyHeap ["PNG"] in
  http.StatusCode res = http.StatusOK
  /\ http.Header res !! "Content-Disposition" = None
  /\ decodeToMessageContentResponse res h
     = ((None, Some (errorString "mime: no media type")), h).
Proof.
  cbv zeta.
  set (res := response 200
                {[ "content-disposition" := ["attachment; filename=a.png"] ]}).
  assert (Hc : http.StatusCode res = http.StatusOK) by reflexivity.
  assert (Hmissing : http.Header res !! "Content-Disposition" = None)
    by (vm_compute; reflexivity).
  split; [exact Hc|]. split; [exact Hmissing|].
  exact (X13_no_content_disposition res (bodyHeap ["PNG"]) Hc
           (or_introl Hmissing)).
Defined.

(** ** X14: an error body written by an encoder *)

Lemma quoteFrom_ASCII c s :
  byte_in 0 0x7F c = true ->
  json.quoteFrom 0 (String c s) = json.quoteByte c +:+ json.quoteFrom 0 s.
Proof.
  destruct c as [[] [] [] [] [] [] [] []]; intros H;
    first [discriminate H | reflexivity].
Qed.

(** Inside a string literal the scanner takes what the encoder writes for
    one byte. *)
Lemma run_quoteByte c stk raw rest :
  byte_in 0 0x7F c = true ->
  json.run stk (json.InString raw) (json.quoteByte c +:+ rest)
  = json.run stk (json.InString (pushed (json.quoteByte c) raw)) rest.
Proof.
  destruct c as [[] [] [] [] [] [] [] []]; intros H;
    first [discriminate H | reflexivity].
Qed.

Lemma pushed_app a : forall b raw,
  pushed (a +:+ b) raw = pushed b (pushed a raw).
Proof.
  induction a as [|x a IH]; intros b raw; [reflexivity|].
  change (String x a +:+ b) with (String x (a +:+ b)). cbn [pushed].
  apply IH.
Qed.

Lemma run_quoteFrom s : forall stk raw rest,
  isASCII s = true ->
  json.run stk (json.InString raw) (json.quoteFrom 0 s +:+ rest)
  = json.run stk (json.InString (pushed (json.quoteFrom 0 s) raw)) rest.
Proof.
  induction s as [|c s IH]; intros stk raw rest H; [reflexivity|].
  cbn [isASCII] in H. apply andb_true_iff in H as [Hc Hs].
  rewrite (quoteFrom_ASCII c s Hc), str_app_assoc.
  rewrite (run_quoteByte c stk raw _ Hc), (IH _ _ _ Hs).
  rewrite pushed_app. reflexivity.
Qed.

Lemma string_of_list_ascii_app (a b : list ascii) :
  string_of_list_ascii (a ++ b)
  = string_of_list_ascii a +:+ string_of_list_ascii b.
Proof.
  induction a as [|x a IH]; [reflexivity|].
  cbn [app string_of_list_ascii]. rewrite IH. reflexivity.
Qed.

Lemma text_pushed s : forall raw,
  json.text (pushed s raw) = json.text raw +:+ s.
Proof.
  induction s as [|c s IH]; intros raw; cbn [pushed].
  - rewrite str_app_nil_r. reflexivity.
  - rewrite IH. unfold json.text. cbn [rev].
    rewrite string_of_list_ascii_app. rewrite str_app_assoc. reflexivity.
Qed.

(** Unquoting undoes what the encoder does to one byte. *)
Lemma unquote_quoteByte c rest :
  byte_in 0 0x7F c = true ->
  json.unquote_from json.UPlain 0 None (json.quoteByte c +:+ rest)
  = json.emit (String c "") (json.unquote_from json.UPlain 0 None rest).
Proof.
  destruct c as [[] [] [] [] [] [] [] []]; intros H;
    first [discriminate H | reflexivity].
Qed.

Lemma unquote_quoteFrom s :
  isASCII s = true -> json.unquote (json.quoteFrom 0 s) = Some s.
Proof.
  unfold json.unquote.
  induction s as [|c s IH]; intros H; [reflexivity|].
  cbn [isASCII] in H. apply andb_true_iff in H as [Hc Hs].
  rewrite (quoteFrom_ASCII c s Hc), (unquote_quoteByte c _ Hc), (IH Hs).
  reflexivity.
Qed.

(** Reading back a string that the encoder has written. *)
Lemma run_quote s stk rest :
  isASCII s = true ->
  json.run stk json.BeginValue (json.quote s +:+ rest)
  = match json.deliver stk (json.JString s) with
    | json.Continue stk' st' => json.run stk' st' rest
    | json.End v consumed => json.Value v rest
    | json.Invalid => json.Malformed
    end.
Proof.
  intros H. unfold json.quote.
  rewrite str_app_assoc.
  change (String dq (json.quoteFrom 0 s) +:+ String dq "" +:+ rest)
    with (String dq (json.quoteFrom 0 s +:+ String dq rest)).
  cbn [json.run json.step]. unfold json.beginValue.
  change (json.isSpace dq) with false. change (byte_is dq "{") with false.
  change (byte_is dq "[") with false. change (byte_is dq dq) with true.
  cbv iota.
  rewrite (run_quoteFrom s stk [] _ H).
  cbn [json.run json.step]. change (byte_is dq dq) with true. cbv iota.
  rewrite text_pushed. change (json.text []) with "".
  change ("" +:+ json.quoteFrom 0 s) with (json.quoteFrom 0 s).
  rewrite (unquote_quoteFrom s H).
  destruct (json.deliver stk (json.JString s)) as [stk' st'|v consumed|] eqn:Hd;
    [reflexivity| |reflexivity].
  destruct stk as [|[] stk]; discriminate Hd.
Qed.

Lemma scan_encoded_error requestID message rest :
  isASCII requestID = true -> isASCII message = true ->
  json.scan
    (json.Marshal
       (json.JObject [("requestId", json.JString requestID);
                      ("message", json.JString message)]) +:+ rest)
  = json.Value
      (json.JObject [("requestId", json.JString requestID);
                     ("message", json.JString message)]) rest.
Proof.
  intros Hr Hm. unfold json.scan. cbn [json.Marshal fst snd].
  rewrite !str_app_assoc.
  change (json.quote "requestId") with (js "'requestId'").
  change (json.quote "message") with (js "'message'").
  change ("{" +:+ js "'requestId'" +:+ ":" +:+ json.quote requestID +:+ ","
          +:+ js "'message'" +:+ ":" +:+ json.quote message +:+ "}" +:+ rest)
    with (js "{'requestId':" +:+ json.quote requestID +:+ ","
          +:+ js "'message':" +:+ json.quote message +:+ "}" +:+ rest).
  change (json.run [] json.BeginValue
            (js "{'requestId':" +:+ json.quote requestID +:+ ","
             +:+ js "'message':" +:+ json.quote message +:+ "}" +:+ rest))
    with (json.run [json.FValue [] "requestId"] json.BeginValue
            (json.quote requestID +:+ ","
             +:+ js "'message':" +:+ json.quote message +:+ "}" +:+ rest)).
  rewrite (run_quote requestID _ _ Hr). cbn [json.deliver].
  change (json.run [json.FMember [("requestId", json.JString requestID)]]
            json.EndValue
            ("," +:+ js "'message':" +:+ json.quote message +:+ "}" +:+ rest))
    with (json.run [json.FValue [("requestId", json.JString requestID)]
                      "message"] json.BeginValue
            (json.quote message +:+ "}" +:+ rest)).
  rewrite (run_quote message _ _ Hm). reflexivity.
Qed.

(** X14.  Encoding and decoding are inverse on ASCII texts.  When the
    body of a response with a status other than 200 is what a JSON
    encoder writes for an object with the members [requestId] and
    [message], both texts of ASCII bytes -- with quotes, backslashes,
    control characters and the characters the encoder escapes for HTML
    among them --, the three decoders return an [APIError] whose
    [Response] holds exactly these two texts, and nil [Details]. *)
Theorem X14_encoded_error_message_comes_back
  (res : http.Response) (h : io.heap) (s : io.stream)
  (requestID message : string) :
  http.StatusCode res <> http.StatusOK ->
  h !! http.Body res = Some s -> io.closed s = false ->
  io.bytes (io.chunks s)
    = json.Encode
        (json.JObject [("requestId", json.JString requestID);
                       ("message", json.JString message)]) ->
  isASCII requestID = true -> isASCII message = true ->
  let apiError :=
    newAPIError (http.StatusCode res)
      (Some {| ErrorResponse.RequestID := requestID;
               ErrorResponse.Message := message;
               ErrorResponse.Details := None |}) in
  fst (decodeToBasicResponse res h) = (None, Some apiError)
  /\ fst (decodeToUserProfileResponse res h) = (None, Some apiError)
  /\ fst (decodeToMessageContentResponse res h) = (None, Some apiError).
Proof.
  intros Hc Hs Hopen Hbytes Hr Hm apiError.
  rewrite (decodeToBasicResponse_open res h s Hs Hopen),
    (decodeToUserProfileResponse_open res h s Hs Hopen),
    (decodeToMessageContentResponse_open res h s Hs Hopen Hc).
  rewrite status_eqb_not_OK by exact Hc.
  unfold firstValue. rewrite Hbytes. unfold json.Encode.
  rewrite (scan_encoded_error requestID message _ Hr Hm).
  repeat split.
Qed.

Lemma X14_encoded_error_message_comes_back_witness :
  let requestID := "f70dd685-499a-4231-a441-f24b8d4fba21" in
  let message :=
    js "The property, 'to', in the <request> body is invalid (line: -, column: -) & C:\tmp"
    +:+ String (ascii_of_N 10) (String (ascii_of_N 7) "") in
  let encoded :=
    json.Encode (json.JObject [("requestId", json.JString requestID);
                               ("message", json.JString message)]) in
  let res := response 400 ∅ in
  let s := io.Stream [encoded] None false in
  let h : io.heap := {[ body := s ]} in
  let apiError :=
    newAPIError 400
      (Some {| ErrorResponse.RequestID := requestID;
               ErrorResponse.Message := message;
               ErrorResponse.Details := None |}) in
  http.StatusCode res <> http.StatusOK
  /\ (h !! http.Body res = Some s /\ io.closed s = false)
  /\ io.bytes (io.chunks s) = encoded
  /\ (isASCII requestID = true /\ isASCII message = true)
  /\ fst (decodeToBasicResponse res h) = (None, Some apiError)
  /\ fst (decodeToUserProfileResponse res h) = (None, Some apiError)
  /\ fst (decodeToMessageContentResponse res h) = (None, Some apiError).
Proof.
  cbv zeta.
  set (requestID := "f70dd685-499a-4231-a441-f24b8d4fba21").
  set (message :=
         js "The property, 'to', in the <request> body is invalid (line: -, column: -) & C:\tmp"
         +:+ String (ascii_of_N 10) (String (ascii_of_N 7) "")).
  set (encoded :=
         json.Encode (json.JObject [("requestId", json.JString requestID);
                                    ("message", json.JString message)])).
  set (s := io.Stream [encoded] None false).
  assert (Hc : http.StatusCode (response 400 ∅) <> http.StatusOK)
    by discriminate.
  assert (Hs : ({[ body := s ]} : io.heap) !! http.Body (response 400 ∅)
               = Some s) by reflexivity.
  assert (Hopen : io.closed s = false) by reflexivity.
  assert (Hbytes : io.bytes (io.chunks s) = encoded)
    by (vm_compute; reflexivity).
  assert (Hr : isASCII requestID = true) by reflexivity.
  assert (Hm : isASCII message = true) by reflexivity.
  split; [exact Hc|]. split; [split; [exact Hs|exact Hopen]|].
  split; [exact Hbytes|]. split; [split; [exact Hr|exact Hm]|].
  exact (X14_encoded_error_message_comes_back (response 400 ∅) _ s
           requestID message Hc Hs Hopen Hbytes Hr Hm).
Defined.
